(** * vsce-helper: asset download layer

    A shallow embedding of [src/file-download.ts], [src/file-assets.ts] and
    [src/github-assets.ts] of the Open-CMSIS-Pack vsce-helper module, with the
    properties of its specification that concern them.

    JavaScript objects live in an explicit store, promises are represented by
    their settled outcome (every getter is awaited before the next one is
    queried), and the outside world (HTTPS servers, the GitHub REST API, the
    archive decoder) is a record of oracles. *)

From stdpp Require Import gmap strings list pretty.
From Stdlib Require Import ZArith Lia Ascii String.

Open Scope string_scope.
Open Scope Z_scope.

(** ** JavaScript strings and numbers *)

Module Js.

(** The line feed character, [\n] in the source. *)
Definition nl : string := String "010"%char "".

(** [includes needle hay]: [hay.includes(needle)]. *)
Definition includes (needle hay : string) : Prop :=
  ∃ pre post : string, hay = pre +:+ needle +:+ post.

(** Whether [hay] starts with [needle]. *)
Fixpoint startsWith (needle hay : string) : bool :=
  match needle, hay with
  | "", _ => true
  | String a n', String b h' => Ascii.eqb a b && startsWith n' h'
  | String _ _, "" => false
  end.

(** [includes], decided. *)
Fixpoint includesb (needle hay : string) : bool :=
  startsWith needle hay
  || match hay with
     | "" => false
     | String _ rest => includesb needle rest
     end.

(** Template-literal rendering of an integral JS number. *)
Definition number_toString (n : Z) : string := pretty n.

(** [x ?? d] *)
Definition nullish {A : Type} (x : option A) (d : A) : A :=
  match x with Some a => a | None => d end.

(** Template-literal rendering of a possibly undefined string. *)
Definition string_or_undefined (x : option string) : string :=
  nullish x "undefined".

Fixpoint join (sep : string) (l : list string) : string :=
  match l with
  | [] => ""
  | [x] => x
  | x :: rest => x +:+ sep +:+ join sep rest
  end.

(** Errors a promise can reject with. [SystemError] stands for the errors
    of Node's I/O layer (network and file system), identified by code. *)
Inductive JsError : Type :=
| Error (message : string)
| TypeError (message : string)
| SyntaxError (message : string)
| SystemError (code : string).

Definition message (e : JsError) : string :=
  match e with
  | Error m | TypeError m | SyntaxError m | SystemError m => m
  end.

(** The settled state of a promise. *)
Inductive Settled (A : Type) : Type :=
| Resolved (a : A)
| Rejected (e : JsError).
Arguments Resolved {A} a.
Arguments Rejected {A} e.

End Js.
Export Js.

(** ** JSON.stringify on response headers *)

Module JSON.

Definition hex_digit (n : nat) : ascii :=
  match n with
  | 0 => "0" | 1 => "1" | 2 => "2" | 3 => "3" | 4 => "4" | 5 => "5"
  | 6 => "6" | 7 => "7" | 8 => "8" | 9 => "9" | 10 => "a" | 11 => "b"
  | 12 => "c" | 13 => "d" | 14 => "e" | _ => "f"
  end%nat%char.

(** The double quote character. *)
Definition dq : string := String "034"%char "".

(** QuoteJSONString on one code unit (header strings are Latin-1). *)
Definition quote_char (c : ascii) : string :=
  let n := nat_of_ascii c in
  if (n =? 34)%nat then "\" +:+ dq
  else if (n =? 92)%nat then "\\"
  else if (n =? 8)%nat then "\b"
  else if (n =? 12)%nat then "\f"
  else if (n =? 10)%nat then "\n"
  else if (n =? 13)%nat then "\r"
  else if (n =? 9)%nat then "\t"
  else if (n <? 32)%nat then
    "\u00" +:+ String (hex_digit (n / 16)) (String (hex_digit (n mod 16)) "")
  else String c "".

Fixpoint quote_body (s : string) : string :=
  match s with
  | "" => ""
  | String c rest => quote_char c +:+ quote_body rest
  end.

Definition quote (s : string) : string := dq +:+ quote_body s +:+ dq.

End JSON.

(** ** HTTP messages *)

(** A value of Node's [OutgoingHttpHeaders] dictionary. *)
Inductive OutgoingHttpHeader : Type :=
| HNumber (n : Z)
| HString (s : string)
| HArray (l : list string)
| HUndefined.

Abbreviation OutgoingHttpHeaders := (gmap string OutgoingHttpHeader).

(** A value of [IncomingHttpHeaders]: a string, or a string array for the
    headers Node keeps apart (set-cookie). *)
Inductive IncomingHttpHeader : Type :=
| IString (s : string)
| IArray (l : list string).

(** [res.headers], keys in the order the object enumerates them. *)
Abbreviation IncomingHttpHeaders := (list (string * IncomingHttpHeader)).

Module IncomingMessage.
Record t : Type := {
  statusCode : option Z;
  statusMessage : option string;
  headers : IncomingHttpHeaders;
  body : string;
}.
End IncomingMessage.

Fixpoint header_get (k : string) (h : IncomingHttpHeaders) : option IncomingHttpHeader :=
  match h with
  | [] => None
  | (k', v) :: rest => if String.eqb k k' then Some v else header_get k rest
  end.

(** [res.headers.location], which Node types as a string. *)
Definition location (h : IncomingHttpHeaders) : option string :=
  match header_get "location" h with
  | Some (IString s) => Some s
  | _ => None
  end.

(** JS truthiness of [string | undefined]. *)
Definition truthy (x : option string) : bool :=
  match x with
  | Some s => negb (String.eqb s "")
  | None => false
  end.

Module JSONHeaders.
Import JSON.

Definition value (indent : string) (v : IncomingHttpHeader) : string :=
  match v with
  | IString s => quote s
  | IArray [] => "[]"
  | IArray l =>
      "[" +:+ nl
      +:+ Js.join ("," +:+ nl) (map (λ s, indent +:+ "  " +:+ quote s) l)
      +:+ nl +:+ indent +:+ "]"
  end.

Definition property (indent : string) (kv : string * IncomingHttpHeader) : string :=
  indent +:+ quote (fst kv) +:+ ": " +:+ value indent (snd kv).

(** [JSON.stringify(headers, null, 2)] *)
Definition stringify (h : IncomingHttpHeaders) : string :=
  match h with
  | [] => "{}"
  | _ => "{" +:+ nl +:+ Js.join ("," +:+ nl) (map (property "  ") h) +:+ nl +:+ "}"
  end.

End JSONHeaders.

(** ** GitHub REST API data *)

Module Octokit.
(** An API client, distinguished by the token it was constructed with. *)
Record t : Type := { auth : option string }.
End Octokit.

Module GitHubRelease.
Record t : Type := { id : Z; tag_name : string }.
End GitHubRelease.

Module ReleaseAsset.
Record t : Type := { id : Z; name : string; url : string }.
End ReleaseAsset.

Module WorkflowRun.
Record t : Type := {
  id : Z;
  run_number : Z;
  status : option string;
  conclusion : option string;
}.
End WorkflowRun.

Module Artifact.
Record t : Type := { id : Z; name : string }.
End Artifact.

Module ListWorkflowRunsParams.
Record t : Type := {
  owner : string;
  repo : string;
  workflow_id : string;
  per_page : nat;
  status : option string;
}.
End ListWorkflowRunsParams.

Inductive ApiCall : Type :=
| ListReleases (owner repo : string)
| ListReleaseAssets (owner repo : string) (release_id : Z)
| GetRef (owner repo ref : string)
| DownloadTarballArchive (owner repo ref : string)
| ListWorkflowRuns (params : ListWorkflowRunsParams.t)
| ListWorkflowRunArtifacts (owner repo : string) (run_id : Z)
| DownloadArtifact (owner repo : string) (artifact_id : Z) (archive_format : string).

(** ** The outside world *)

Record World : Type := {
  (** [https.request(url, { headers })]: a transport error emitted on the
      request, or the response. *)
  https_request : string → OutgoingHttpHeaders → JsError + IncomingMessage.t;
  (** the error a write to this path fails with, if any *)
  write_error : string → option JsError;
  (** the error a read of this path fails with when the file is absent *)
  enoent : string → JsError;
  (** name of the n-th scratch directory under the system temp root *)
  temp_name : nat → string;
  (** entries (path, content) of an archive, if the bytes are one *)
  archive_entries : string → option (list (string * string));
  (** GitHub: releases of a repository, newest first *)
  releases : Octokit.t → string → string → JsError + list GitHubRelease.t;
  release_assets : Octokit.t → string → string → Z → JsError + list ReleaseAsset.t;
  git_ref_sha : Octokit.t → string → string → string → JsError + string;
  tarball_url : Octokit.t → string → string → string → JsError + string;
  (** GitHub: every run of a workflow, most recent first *)
  workflow_runs : Octokit.t → string → string → string → JsError + list WorkflowRun.t;
  run_artifacts : Octokit.t → string → string → Z → JsError + list Artifact.t;
  artifact_zip : Octokit.t → string → string → Z → JsError + string;
}.

(** ** The store *)

(** A cleanup action registered with [addDisposable]. *)
Inductive Disposable : Type :=
| DisposeAsset (oid : nat)
| DisposeRm (path : string).

(** The mutable fields of an asset instance. A promise is kept as its
    settled outcome. *)
Module Instance.
Record t : Type := {
  cacheDir : option string;
  disposables : list Disposable;
  refs : gmap string string;
  releasePromise : option (Settled (option GitHubRelease.t));
  lastWorkflowRunPromise : option (Settled (option WorkflowRun.t));
}.
Definition fresh : t :=
  {| cacheDir := None; disposables := []; refs := ∅;
     releasePromise := None; lastWorkflowRunPromise := None |}.
End Instance.

Inductive Event : Type :=
| ConsoleLog (line : string)
| ConsoleDebug (line : string)
| HttpsRequest (url : string) (headers : OutgoingHttpHeaders)
| Api (client : Octokit.t) (call : ApiCall).

Record State : Type := {
  files : gmap string string;
  dirs : gset string;
  OCTOKIT : gmap string Octokit.t;
  heap : gmap nat Instance.t;
  temp_count : nat;
  trace : list Event;
}.

Definition initial : State :=
  {| files := ∅; dirs := ∅; OCTOKIT := ∅; heap := ∅; temp_count := 0; trace := [] |}.

Definition with_files (f : gmap string string → gmap string string) (σ : State) : State :=
  {| files := f (files σ); dirs := dirs σ; OCTOKIT := OCTOKIT σ; heap := heap σ;
     temp_count := temp_count σ; trace := trace σ |}.
Definition with_dirs (f : gset string → gset string) (σ : State) : State :=
  {| files := files σ; dirs := f (dirs σ); OCTOKIT := OCTOKIT σ; heap := heap σ;
     temp_count := temp_count σ; trace := trace σ |}.
Definition with_OCTOKIT (f : gmap string Octokit.t → gmap string Octokit.t) (σ : State) : State :=
  {| files := files σ; dirs := dirs σ; OCTOKIT := f (OCTOKIT σ); heap := heap σ;
     temp_count := temp_count σ; trace := trace σ |}.
Definition with_heap (f : gmap nat Instance.t → gmap nat Instance.t) (σ : State) : State :=
  {| files := files σ; dirs := dirs σ; OCTOKIT := OCTOKIT σ; heap := f (heap σ);
     temp_count := temp_count σ; trace := trace σ |}.
Definition with_temp_count (f : nat → nat) (σ : State) : State :=
  {| files := files σ; dirs := dirs σ; OCTOKIT := OCTOKIT σ; heap := heap σ;
     temp_count := f (temp_count σ); trace := trace σ |}.
Definition with_trace (f : list Event → list Event) (σ : State) : State :=
  {| files := files σ; dirs := dirs σ; OCTOKIT := OCTOKIT σ; heap := heap σ;
     temp_count := temp_count σ; trace := f (trace σ) |}.

(** ** Asynchronous computations

    [None] is a computation that never settles. A rejection keeps the
    store as it was when the error was thrown. *)

Definition M (A : Type) : Type := State → option (Settled A * State).

#[export] Instance M_ret : MRet M := λ A a σ, Some (Resolved a, σ).
#[export] Instance M_bind : MBind M := λ A B k m σ,
  match m σ with
  | None => None
  | Some (Resolved a, σ') => k a σ'
  | Some (Rejected e, σ') => Some (Rejected e, σ')
  end.

Definition throw {A : Type} (e : JsError) : M A := λ σ, Some (Rejected e, σ).
Definition never {A : Type} : M A := λ _, None.
Definition get : M State := λ σ, Some (Resolved σ, σ).
Definition modify (f : State → State) : M () := λ σ, Some (Resolved (), f σ).
Definition emit (e : Event) : M () := modify (with_trace (λ t, (t ++ [e])%list)).
Definition of_result {A : Type} (r : JsError + A) : M A :=
  match r with inl e => throw e | inr a => mret a end.

(** The promise of [m] as a value: its outcome, settled. *)
Definition settle {A : Type} (m : M A) : M (Settled A) := λ σ,
  match m σ with
  | None => None
  | Some (r, σ') => Some (Resolved r, σ')
  end.
(** [await p] on a settled promise. *)
Definition await {A : Type} (p : Settled A) : M A :=
  match p with Resolved a => mret a | Rejected e => throw e end.

Definition console_log (line : string) : M () := emit (ConsoleLog line).
Definition console_debug (line : string) : M () := emit (ConsoleDebug line).

(** ** [src/file-download.ts] *)

Section Download.
Context (W : World).

(** [createWriteStream(outputPath)] with the response piped into it. *)
Definition pipe_to_file (outputPath content : string) : M () :=
  match write_error W outputPath with
  | Some e => throw e
  | None => modify (with_files (insert outputPath content))
  end.

Definition status_error_message (url : string) (res : IncomingMessage.t) (code : Z) : string :=
  let headers := JSONHeaders.stringify (IncomingMessage.headers res) in
  "Status Code: " +:+ number_toString code +:+ nl
  +:+ url +:+ ": " +:+ nullish (IncomingMessage.statusMessage res) "" +:+ nl
  +:+ headers.

Definition default_headers : OutgoingHttpHeaders :=
  {[ "Accept" := HString "application/octet-stream";
     "User-Agent" := HString "vsce-helpers" ]}.

(** One unit of fuel per request issued. [res.destroy()] leaves no mark on
    the store; the recursive call is written without [headers], which then
    takes its default, the empty object. *)
Fixpoint downloadFile (fuel : nat) (url outputPath : string)
    (headers : OutgoingHttpHeaders) : M string :=
  match fuel with
  | O => never
  | S fuel' =>
      let requestOptions := headers ∪ default_headers in
      console_log ("Downloading file from " +:+ url +:+ " ...");;
      emit (HttpsRequest url requestOptions);;
      res ← of_result (https_request W url requestOptions);
      let write :=
        pipe_to_file outputPath (IncomingMessage.body res);;
        mret outputPath in
      match IncomingMessage.statusCode res with
      | Some code =>
          if (code <? 200) || (code >=? 300) then
            if ((code =? 301) || (code =? 302))
               && truthy (location (IncomingMessage.headers res))
            then
              downloadFile fuel' (string_or_undefined (location (IncomingMessage.headers res)))
                outputPath ∅
            else
              throw (Error (status_error_message url res code))
          else write
      | None => write
      end
  end.

(** The store once the request for [url] has been announced and issued. *)
Definition requested (url : string) (requestOptions : OutgoingHttpHeaders) (σ : State) : State :=
  with_trace (λ t, t ++ [ConsoleLog ("Downloading file from " +:+ url +:+ " ...");
                         HttpsRequest url requestOptions])%list σ.

End Download.

(** ** Regular expressions

    The fragment of ECMAScript patterns used for tags and artifact names:
    literal characters, [.], [\d], identity escapes, [^] and [$], capturing
    groups, alternation and the greedy quantifiers [?], [*] and [+], without
    flags. Matching is the backtracking semantics of the language
    specification: greedy, leftmost, captures of a quantified group cleared
    at each iteration, empty iterations refused. *)

Module RegExp.

Inductive Pattern : Type :=
| Empty
| Char (c : ascii)
| Any
| Digit
| Bol
| Eol
| Seq (a b : Pattern)
| Alt (a b : Pattern)
| Group (n : nat) (a : Pattern)
| Opt (a : Pattern)
| Star (a : Pattern)
| Plus (a : Pattern).

Record t : Type := { source : string; pattern : Pattern }.

(** The array [exec] returns: index 0 is the matched text, index [i] the
    capture of group [i], or undefined. *)
Record MatchArray : Type := { matched : string; captures : gmap nat string }.

Definition index (a : MatchArray) (i : nat) : option string :=
  match i with
  | O => Some (matched a)
  | _ => captures a !! i
  end.

Record MState : Type := { pos : nat; caps : gmap nat string }.

Fixpoint groups (p : Pattern) : list nat :=
  match p with
  | Seq a b | Alt a b => groups a ++ groups b
  | Group n a => n :: groups a
  | Opt a | Star a | Plus a => groups a
  | _ => []
  end.

Definition clear (p : Pattern) (x : MState) : MState :=
  {| pos := pos x; caps := foldr delete (caps x) (groups p) |}.

Definition is_digit (c : ascii) : bool :=
  let n := nat_of_ascii c in (48 <=? n)%nat && (n <=? 57)%nat.

Definition is_line_terminator (c : ascii) : bool :=
  let n := nat_of_ascii c in (n =? 10)%nat || (n =? 13)%nat.

Section Matcher.
Context (input : list ascii).

Definition slice (from to : nat) : string :=
  string_of_list_ascii (take (to - from) (drop from input)).

Definition step (ok : ascii → bool) (x : MState) (k : MState → option MState) : option MState :=
  match input !! pos x with
  | Some c => if ok c then k {| pos := S (pos x); caps := caps x |} else None
  | None => None
  end.

Fixpoint run (p : Pattern) (x : MState) (k : MState → option MState) : option MState :=
  match p with
  | Empty => k x
  | Char c => step (Ascii.eqb c) x k
  | Any => step (λ c, negb (is_line_terminator c)) x k
  | Digit => step is_digit x k
  | Bol => if (pos x =? 0)%nat then k x else None
  | Eol => if (pos x =? List.length input)%nat then k x else None
  | Seq a b => run a x (λ y, run b y k)
  | Alt a b =>
      match run a x k with
      | Some r => Some r
      | None => run b x k
      end
  | Group n a =>
      run a x (λ y, k {| pos := pos y; caps := <[n := slice (pos x) (pos y)]> (caps y) |})
  | Opt a =>
      match run a (clear a x) (λ y, if (pos y =? pos x)%nat then None else k y) with
      | Some r => Some r
      | None => k x
      end
  | Star a =>
      (fix loop (fuel : nat) (x : MState) : option MState :=
         match fuel with
         | O => k x
         | S fuel' =>
             match run a (clear a x)
                     (λ y, if (pos y =? pos x)%nat then None else loop fuel' y) with
             | Some r => Some r
             | None => k x
             end
         end) (List.length input - pos x)%nat x
  | Plus a =>
      run a (clear a x)
        ((fix loop (fuel : nat) (x : MState) : option MState :=
           match fuel with
           | O => k x
           | S fuel' =>
               match run a (clear a x)
                       (λ y, if (pos y =? pos x)%nat then None else loop fuel' y) with
               | Some r => Some r
               | None => k x
               end
           end) (List.length input))
  end.

(** Try each start index from [start], for [n] positions. *)
Fixpoint search (p : Pattern) (n start : nat) : option MatchArray :=
  match n with
  | O => None
  | S n' =>
      match run p {| pos := start; caps := ∅ |} Some with
      | Some y => Some {| matched := slice start (pos y); captures := caps y |}
      | None => search p n' (S start)
      end
  end.

End Matcher.

(** [re.exec(s)] for a pattern without flags. *)
Definition exec (re : t) (s : string) : option MatchArray :=
  let input := list_ascii_of_string s in
  search input (pattern re) (S (List.length input)) 0.

(** *** Parsing a pattern text *)

Definition syntax_character (c : ascii) : bool :=
  existsb (Ascii.eqb c) (list_ascii_of_string "^$\.*+?()[]{}|/").

Definition quantified (a : Pattern) (s : list ascii)
    : option (Pattern * list ascii) :=
  let lazy (q : Pattern) (s1 : list ascii) :=
    match s1 with
    | "?"%char :: _ => None
    | _ => Some (q, s1)
    end in
  match s with
  | "?"%char :: s1 => lazy (Opt a) s1
  | "*"%char :: s1 => lazy (Star a) s1
  | "+"%char :: s1 => lazy (Plus a) s1
  | _ => Some (a, s)
  end.

Definition finish (n : nat) (r : option (Pattern * list ascii))
    : option (Pattern * nat * list ascii) :=
  match r with
  | Some (q, s) => Some (q, n, s)
  | None => None
  end.

(** [n] counts the groups opened so far. *)
Fixpoint parse_disjunction (fuel n : nat) (s : list ascii)
    : option (Pattern * nat * list ascii) :=
  match fuel with
  | O => None
  | S f =>
      match parse_alternative f n s with
      | Some (a, n1, "|"%char :: s2) =>
          match parse_disjunction f n1 s2 with
          | Some (b, n2, s3) => Some (Alt a b, n2, s3)
          | None => None
          end
      | r => r
      end
  end
with parse_alternative (fuel n : nat) (s : list ascii)
    : option (Pattern * nat * list ascii) :=
  match fuel with
  | O => None
  | S f =>
      match s with
      | [] => Some (Empty, n, s)
      | c :: _ =>
          if Ascii.eqb c "|" || Ascii.eqb c ")" then Some (Empty, n, s)
          else
            match parse_term f n s with
            | Some (a, n1, s1) =>
                match parse_alternative f n1 s1 with
                | Some (b, n2, s2) => Some (Seq a b, n2, s2)
                | None => None
                end
            | None => None
            end
      end
  end
with parse_term (fuel n : nat) (s : list ascii)
    : option (Pattern * nat * list ascii) :=
  match fuel with
  | O => None
  | S f =>
      match s with
      | [] => None
      | "^"%char :: s1 => Some (Bol, n, s1)
      | "$"%char :: s1 => Some (Eol, n, s1)
      | "."%char :: s1 => finish n (quantified Any s1)
      | "\"%char :: c :: s1 =>
          if Ascii.eqb c "d" then finish n (quantified Digit s1)
          else if syntax_character c || Ascii.eqb c "-" then
            finish n (quantified (Char c) s1)
          else None
      | "("%char :: s1 =>
          match s1 with
          | "?"%char :: _ => None
          | _ =>
              match parse_disjunction f (S n) s1 with
              | Some (a, n1, ")"%char :: s3) => finish n1 (quantified (Group (S n) a) s3)
              | _ => None
              end
          end
      | c :: s1 =>
          if syntax_character c && negb (Ascii.eqb c "/") then None
          else finish n (quantified (Char c) s1)
      end
  end.

Definition parse (text : string) : option Pattern :=
  let s := list_ascii_of_string text in
  match parse_disjunction (4 * List.length s + 4) 0 s with
  | Some (p, _, []) => Some p
  | _ => None
  end.

(** EscapeRegExpPattern: the [source] of a pattern built from a string. *)
Fixpoint escape (s : list ascii) : list ascii :=
  match s with
  | [] => []
  | "\"%char :: c :: rest => "\"%char :: c :: escape rest
  | c :: rest =>
      if Ascii.eqb c "/" then "\"%char :: "/"%char :: escape rest
      else if (nat_of_ascii c =? 10)%nat then "\"%char :: "n"%char :: escape rest
      else if (nat_of_ascii c =? 13)%nat then "\"%char :: "r"%char :: escape rest
      else c :: escape rest
  end.

Definition source_of (text : string) : string :=
  match text with
  | "" => "(?:)"
  | _ => string_of_list_ascii (escape (list_ascii_of_string text))
  end.

(** [new RegExp(text)]. A text outside the fragment is refused like an
    invalid one. *)
Definition new (text : string) : JsError + t :=
  match parse text with
  | Some p => inr {| source := source_of text; pattern := p |}
  | None => inl (SyntaxError ("Invalid regular expression: /" +:+ text +:+ "/"))
  end.

End RegExp.

(** [s.match(re)]: an array is truthy, null is not. *)
Definition String_match (s : string) (re : RegExp.t) : option RegExp.MatchArray :=
  RegExp.exec re s.

(** ** Node's [path] module (POSIX flavour) *)

Module path.

Definition slash : ascii := "/"%char.

(** The segments between slashes. *)
Fixpoint segments (s : list ascii) : list (list ascii) :=
  match s with
  | [] => [[]]
  | c :: rest =>
      if Ascii.eqb c slash then [] :: segments rest
      else
        match segments rest with
        | seg :: more => (c :: seg) :: more
        | [] => [[c]]
        end
  end.

Definition dotdot : list ascii := ["."%char; "."%char].

(** normalizeString: the kept segments, last one first. *)
Fixpoint resolve (allowAboveRoot : bool) (acc : list (list ascii))
    (segs : list (list ascii)) : list (list ascii) :=
  match segs with
  | [] => acc
  | seg :: rest =>
      if bool_decide (seg = []) || bool_decide (seg = ["."%char]) then
        resolve allowAboveRoot acc rest
      else if bool_decide (seg = dotdot) then
        match acc with
        | top :: below =>
            if bool_decide (top = dotdot) then resolve allowAboveRoot (seg :: acc) rest
            else resolve allowAboveRoot below rest
        | [] =>
            if allowAboveRoot then resolve allowAboveRoot [seg] rest
            else resolve allowAboveRoot [] rest
        end
      else resolve allowAboveRoot (seg :: acc) rest
  end.

Definition unsegments (segs : list (list ascii)) : string :=
  Js.join "/" (map string_of_list_ascii segs).

Definition ends_with_slash (s : list ascii) : bool :=
  match last s with
  | Some c => Ascii.eqb c slash
  | None => false
  end.

Definition normalize (p : string) : string :=
  let s := list_ascii_of_string p in
  match s with
  | [] => "."
  | c :: _ =>
      let isAbsolute := Ascii.eqb c slash in
      let trailingSeparator := ends_with_slash s in
      let body := unsegments (rev (resolve (negb isAbsolute) [] (segments s))) in
      match body with
      | "" => if isAbsolute then "/" else if trailingSeparator then "./" else "."
      | _ =>
          let body := if trailingSeparator then body +:+ "/" else body in
          if isAbsolute then "/" +:+ body else body
      end
  end.

Definition join (parts : list string) : string :=
  match filter (λ p, p ≠ "") parts with
  | [] => "."
  | l => normalize (Js.join "/" l)
  end.

(** The last non-empty segment. *)
Definition basename (p : string) : string :=
  match filter (λ seg, seg ≠ []) (rev (segments (list_ascii_of_string p))) with
  | seg :: _ => string_of_list_ascii seg
  | [] => ""
  end.

(** [end] of Node's scan: the index of the slash that closes the directory
    part, looking at indices [i] down to 1 of the reversed text. *)
Fixpoint dirname_end (rev_tail : list ascii) (i : nat) (matchedSlash : bool) : option nat :=
  match rev_tail, i with
  | c :: rest, S i' =>
      if Ascii.eqb c slash then
        if matchedSlash then dirname_end rest i' true else Some i
      else dirname_end rest i' false
  | _, _ => None
  end.

Definition dirname (p : string) : string :=
  let s := list_ascii_of_string p in
  match s with
  | [] => "."
  | c :: _ =>
      let hasRoot := Ascii.eqb c slash in
      match dirname_end (rev s) (List.length s - 1) true with
      | None => if hasRoot then "/" else "."
      | Some e =>
          if hasRoot && (e =? 1)%nat then "//"
          else string_of_list_ascii (take e s)
      end
  end.

End path.

(** ** WHATWG URLs

    Only the three components the source reads. [new] covers URLs that are
    already in serialised form, as the GitHub API returns them. *)

Module URL.

Record t : Type := { href : string; host : string; pathname : string }.

Fixpoint after_scheme (s : list ascii) : option (list ascii) :=
  match s with
  | ":"%char :: "/"%char :: "/"%char :: rest => Some rest
  | c :: rest => if Ascii.eqb c "/" then None else after_scheme rest
  | [] => None
  end.

Definition ends_part (stops : string) (c : ascii) : bool :=
  existsb (Ascii.eqb c) (list_ascii_of_string stops).

Fixpoint take_until (stop : ascii → bool) (s : list ascii) : list ascii * list ascii :=
  match s with
  | [] => ([], [])
  | c :: rest =>
      if stop c then ([], s)
      else let '(a, b) := take_until stop rest in (c :: a, b)
  end.

Definition new (text : string) : JsError + t :=
  match after_scheme (list_ascii_of_string text) with
  | Some rest =>
      let '(h, tail) := take_until (ends_part "/?#") rest in
      let '(p, _) := take_until (ends_part "?#") tail in
      match h with
      | [] => inl (TypeError "Invalid URL")
      | _ =>
          inr {| href := text;
                 host := string_of_list_ascii h;
                 pathname := match p with [] => "/" | _ => string_of_list_ascii p end |}
      end
  | None => inl (TypeError "Invalid URL")
  end.

End URL.

(** ** Instances in the store *)

Module Instance_ops.
Import Instance.

Definition with_cacheDir (v : option string) (i : t) : t :=
  {| cacheDir := v; disposables := disposables i; refs := refs i;
     releasePromise := releasePromise i;
     lastWorkflowRunPromise := lastWorkflowRunPromise i |}.
Definition with_disposables (v : list Disposable) (i : t) : t :=
  {| cacheDir := cacheDir i; disposables := v; refs := refs i;
     releasePromise := releasePromise i;
     lastWorkflowRunPromise := lastWorkflowRunPromise i |}.
Definition with_refs (v : gmap string string) (i : t) : t :=
  {| cacheDir := cacheDir i; disposables := disposables i; refs := v;
     releasePromise := releasePromise i;
     lastWorkflowRunPromise := lastWorkflowRunPromise i |}.
Definition with_releasePromise (v : option (Settled (option GitHubRelease.t))) (i : t) : t :=
  {| cacheDir := cacheDir i; disposables := disposables i; refs := refs i;
     releasePromise := v;
     lastWorkflowRunPromise := lastWorkflowRunPromise i |}.
Definition with_lastWorkflowRunPromise (v : option (Settled (option WorkflowRun.t))) (i : t) : t :=
  {| cacheDir := cacheDir i; disposables := disposables i; refs := refs i;
     releasePromise := releasePromise i;
     lastWorkflowRunPromise := v |}.

(** The fields of the instance at address [this]; an address the store
    does not hold yet is an instance just constructed. *)
Definition fields (this : nat) (σ : State) : t := default fresh (heap σ !! this).

Definition read {A : Type} (this : nat) (f : t → A) : M A :=
  σ ← get; mret (f (fields this σ)).

Definition write (this : nat) (f : t → t) : M () :=
  modify (λ σ, with_heap (insert this (f (fields this σ))) σ).

End Instance_ops.
Export Instance_ops.

(** ** Node's [fs/promises] *)

Module fs.
Section Ops.
Context (W : World).

(** [fs.mkdir(p, { recursive: true })] *)
Definition mkdir (p : string) : M () :=
  match write_error W p with
  | Some e => throw e
  | None => modify (with_dirs (λ d, {[p]} ∪ d))
  end.

Definition readFile (p : string) : M string :=
  σ ← get;
  match files σ !! p with
  | Some content => mret content
  | None => throw (enoent W p)
  end.

Definition writeFile (p content : string) : M () :=
  match write_error W p with
  | Some e => throw e
  | None => modify (with_files (insert p content))
  end.

Definition copyFile (src dest : string) : M () :=
  content ← readFile src;
  writeFile dest content.

End Ops.
End fs.

(** ** [AbstractAsset], the base class of every asset *)

Module AbstractAsset.
Section Methods.
Context (W : World) (this : nat).

(** Modelled from the spec: [AbstractAsset.addDisposable] of
    src/downloader.ts; each asset accumulates a list of cleanup actions. *)
Definition addDisposable (d : Disposable) : M () :=
  write this (λ i, with_disposables (Instance.disposables i ++ [d])%list i).

(** Modelled from the spec: [AbstractAsset.withCacheDir] of
    src/downloader.ts, which records the cache directory supplied by the
    orchestrator. *)
Definition withCacheDir (cacheDir : string) : M () :=
  write this (with_cacheDir (Some cacheDir)).

(** Modelled from the spec: the [version] getter of [AbstractAsset] in
    src/downloader.ts, inherited by a variant that declares none; such a
    variant has version undefined. *)
Definition version : M (option string) := mret None.

(** Modelled from the spec: the [cacheId] getter of [AbstractAsset] in
    src/downloader.ts, inherited by a variant that declares none; such a
    variant has no cache slot. *)
Definition cacheId : M (option string) := mret None.

(** Modelled from the spec: [AbstractAsset.mkTempDir] of src/downloader.ts;
    creates a uniquely named directory under the system temp root and
    registers its recursive deletion as a disposable. *)
Definition mkTempDir : M string :=
  σ ← get;
  let dir := temp_name W (temp_count σ) in
  modify (with_temp_count S);;
  fs.mkdir W dir;;
  addDisposable (DisposeRm dir);;
  mret dir.

(** Modelled from the spec: [AbstractAsset.mkDest] of src/downloader.ts;
    [copyTo] returns the path actually used, the destination supplied or,
    when none is, a scratch location registered as a disposable. *)
Definition mkDest (dest : option string) : M string :=
  match dest with
  | Some d => fs.mkdir W d;; mret d
  | None => mkTempDir
  end.

(** Modelled from the spec: [AbstractAsset.downloadFile] of
    src/downloader.ts; downloads via the transfer primitive. *)
Definition downloadFile (fuel : nat) (url : URL.t) (downloadFilePath : string)
    (headers : OutgoingHttpHeaders) : M string :=
  downloadFile W fuel (URL.href url) downloadFilePath headers.

(** Modelled from the spec: [AbstractAsset.assureFile] of src/downloader.ts;
    whether a file of that name already exists locally. *)
Definition assureFile (p : string) : M bool :=
  σ ← get; mret (bool_decide (is_Some (files σ !! p))).

(** An entry path without its outermost [strip] segments; nothing when no
    segment remains. *)
Definition strip_segments (strip : nat) (entry : string) : option string :=
  match drop strip (filter (λ seg, seg ≠ []) (path.segments (list_ascii_of_string entry))) with
  | [] => None
  | segs => Some (path.unsegments segs)
  end.

Fixpoint write_entries (dest : string) (strip : nat) (entries : list (string * string)) : M () :=
  match entries with
  | [] => mret ()
  | (name, content) :: rest =>
      match strip_segments strip name with
      | Some rel => fs.writeFile W (path.join [dest; rel]) content
      | None => mret ()
      end;;
      write_entries dest strip rest
  end.

(** Modelled from the spec: [AbstractAsset.extractArchive] of
    src/downloader.ts; extracts all entries into the destination, discarding
    the outermost [strip] segments of each, and creates the destination if
    absent. *)
Definition extractArchive (archivePath : string) (dest : option string) (strip : nat) : M string :=
  dest ← mkDest dest;
  bytes ← fs.readFile W archivePath;
  match archive_entries W bytes with
  | Some entries => write_entries dest strip entries;; mret dest
  | None => throw (Error ("Unsupported archive: " +:+ archivePath))
  end.

(** Modelled from the spec: [AbstractAsset.copyRecursive] of
    src/downloader.ts; copies a file or a directory tree with the stripping
    rule of extraction, paths taken relative to the parent of the source. *)
Definition copyRecursive (src dest : string) (strip : nat) : M () :=
  σ ← get;
  let parent := path.dirname src +:+ "/" in
  let under (p : string) : bool :=
    String.eqb p src || String.prefix (src +:+ "/") p in
  let entries :=
    omap (λ '(p, content),
            if under p
            then Some (String.substring (String.length parent) (String.length p) p, content)
            else None)
         (map_to_list (files σ)) in
  match entries with
  | [] => throw (enoent W src)
  | _ => write_entries dest strip entries
  end.

End Methods.
End AbstractAsset.

(** ** [src/file-assets.ts]: web and local files *)

Module WebFileAsset.

Record t : Type := {
  this : nat;
  url : URL.t;
  filename : option string;
  _version : option string;
  headers : OutgoingHttpHeaders;
}.

Definition version (a : t) : option string := _version a.

Definition cacheId (a : t) : string :=
  path.join [URL.host (url a); path.normalize (URL.pathname (url a))].

Definition copyTo (W : World) (fuel : nat) (a : t) (dest : option string) : M string :=
  dest ← AbstractAsset.mkDest W (this a) dest;
  let destFile :=
    path.join [dest; nullish (filename a) (path.basename (URL.pathname (url a)))] in
  AbstractAsset.downloadFile W fuel (url a) destFile (headers a).

End WebFileAsset.

Module LocalFileAsset.

Record t : Type := {
  this : nat;
  filepath : string;
  targetName : option string;
}.

Definition copyTo (W : World) (a : t) (dest : option string) : M string :=
  dest ← AbstractAsset.mkDest W (this a) dest;
  fs.copyFile W (filepath a)
    (path.join [dest; nullish (targetName a) (path.basename (filepath a))]);;
  mret dest.

End LocalFileAsset.

(** ** [src/github-assets.ts] *)

(** A call through an Octokit client: recorded, then answered by the world. *)
Definition api {A : Type} (octokit : Octokit.t) (call : ApiCall) (answer : JsError + A) : M A :=
  emit (Api octokit call);;
  of_result answer.

(** Reading property [prop] of undefined. *)
Definition read_of_undefined (prop : string) : JsError :=
  TypeError ("Cannot read properties of undefined (reading '" +:+ prop +:+ "')").

Module GitHubAsset.

(** [token] is [this.options?.token]. *)
Record t : Type := {
  this : nat;
  owner : string;
  repo : string;
  token : option string;
}.

Section Methods.
Context (W : World) (a : t).

Definition getOctokit : M Octokit.t :=
  let ghToken := token a in
  σ ← get;
  let octokit :=
    nullish (OCTOKIT σ !! nullish ghToken "") {| Octokit.auth := ghToken |} in
  modify (with_OCTOKIT (insert (nullish ghToken "") octokit));;
  mret octokit.

Definition downloadFile (fuel : nat) (url : URL.t) (downloadFilePath : string) : M string :=
  let headers : OutgoingHttpHeaders :=
    if truthy (token a)
    then {[ "authorization" := HString ("Bearer " +:+ string_or_undefined (token a)) ]}
    else ∅ in
  AbstractAsset.downloadFile W fuel url downloadFilePath headers.

Definition resolveRef (ref : string) : M string :=
  refs ← read (this a) Instance.refs;
  match refs !! ref with
  | Some sha => mret sha
  | None =>
      octokit ← getOctokit;
      sha ← api octokit (GetRef (owner a) (repo a) ref)
              (git_ref_sha W octokit (owner a) (repo a) ref);
      write (this a) (λ i, with_refs (<[ref := sha]> (Instance.refs i)) i);;
      mret sha
  end.

Definition downloadRepo (fuel : nat) (dest ref : string) : M string :=
  octokit ← getOctokit;
  url ← api octokit (DownloadTarballArchive (owner a) (repo a) ref)
          (tarball_url W octokit (owner a) (repo a) ref);
  url ← of_result (URL.new url);
  downloadFile fuel url (path.join [dest; "repo.tar.gz"]).

End Methods.
End GitHubAsset.

Module GitHubReleaseAsset.

Record t : Type := {
  base : GitHubAsset.t;
  tag : RegExp.t + string;
  assetName : string;
}.

Section Methods.
Context (W : World) (a : t).

Let this := GitHubAsset.this (base a).
Let owner := GitHubAsset.owner (base a).
Let repo := GitHubAsset.repo (base a).

Definition tagRegex : JsError + RegExp.t :=
  match tag a with
  | inr s => RegExp.new ("v?(" +:+ s +:+ ")")
  | inl re => inr re
  end.

(** [data.find(r => r.tag_name.match(this.tagRegex))] *)
Fixpoint find_release (data : list GitHubRelease.t) : JsError + option GitHubRelease.t :=
  match data with
  | [] => inr None
  | r :: rest =>
      match tagRegex with
      | inl e => inl e
      | inr re =>
          match String_match (GitHubRelease.tag_name r) re with
          | Some _ => inr (Some r)
          | None => find_release rest
          end
      end
  end.

Definition release : M (Settled (option GitHubRelease.t)) :=
  releasePromise ← read this Instance.releasePromise;
  match releasePromise with
  | Some p => mret p
  | None =>
      p ← settle (
        octokit ← GitHubAsset.getOctokit (base a);
        data ← api octokit (ListReleases owner repo) (releases W octokit owner repo);
        of_result (find_release data));
      write this (with_releasePromise (Some p));;
      mret p
  end.

Definition cacheId : M (option string) :=
  p ← release;
  release ← await p;
  mret (Some (owner +:+ "/" +:+ repo +:+ "/"
              +:+ string_or_undefined (GitHubRelease.tag_name <$> release))).

Definition findReleaseAsset : M ReleaseAsset.t :=
  octokit ← GitHubAsset.getOctokit (base a);
  p ← release;
  release ← await p;
  match release with
  | None =>
      re ← of_result tagRegex;
      throw (Error ("Could not find release for tag pattern " +:+ RegExp.source re))
  | Some release =>
      assets ← api octokit (ListReleaseAssets owner repo (GitHubRelease.id release))
                 (release_assets W octokit owner repo (GitHubRelease.id release));
      match List.find (λ x, String.eqb (ReleaseAsset.name x) (assetName a)) assets with
      | None =>
          throw (Error ("Could not find release asset " +:+ assetName a
                        +:+ " for release '" +:+ GitHubRelease.tag_name release +:+ "'"))
      | Some asset => mret asset
      end
  end.

Definition version : M (option string) :=
  p ← release;
  release ← await p;
  match release with
  | None => mret None
  | Some release =>
      re ← of_result tagRegex;
      mret (m ← String_match (GitHubRelease.tag_name release) re; RegExp.index m 1)
  end.

Definition copyTo (fuel : nat) (dest : option string) : M string :=
  asset ← findReleaseAsset;
  dest ← AbstractAsset.mkDest W this dest;
  url ← of_result (URL.new (ReleaseAsset.url asset));
  GitHubAsset.downloadFile W (base a) fuel url (path.join [dest; assetName a]).

End Methods.
End GitHubReleaseAsset.

Module GitHubRepoAsset.

(** [ref] is the field set by the constructor; [path] is
    [this.options?.path]. *)
Record t : Type := {
  base : GitHubAsset.t;
  ref : string;
  path : option (string + list string);
}.

(** The constructor's [options?.ref ?? 'main']. *)
Definition new (this : nat) (owner repo : string) (token ref : option string)
    (path : option (string + list string)) : t :=
  {| base := {| GitHubAsset.this := this; GitHubAsset.owner := owner;
                GitHubAsset.repo := repo; GitHubAsset.token := token |};
     ref := nullish ref "main";
     path := path |}.

Definition toArray {A : Type} (value : option (A + list A)) : list A :=
  match value with
  | Some (inr l) => l
  | Some (inl v) => [v]
  | None => []
  end.

Section Methods.
Context (W : World) (a : t).

Let this := GitHubAsset.this (base a).
Let owner := GitHubAsset.owner (base a).
Let repo := GitHubAsset.repo (base a).

Definition version : M (option string) :=
  sha ← GitHubAsset.resolveRef W (base a) (ref a);
  mret (Some (ref a +:+ "@" +:+ sha)).

Definition cacheId : M (option string) :=
  sha ← GitHubAsset.resolveRef W (base a) (ref a);
  mret (Some (owner +:+ "/" +:+ repo +:+ "/" +:+ sha)).

Fixpoint copy_paths (extracted dest : string) (paths : list string) : M () :=
  match paths with
  | [] => mret ()
  | srcPath :: rest =>
      let src := path.join [extracted; srcPath] in
      console_log ("Copying " +:+ src +:+ " to " +:+ dest);;
      AbstractAsset.copyRecursive W src dest 1;;
      copy_paths extracted dest rest
  end.

Definition copyTo (fuel : nat) (dest : option string) : M string :=
  temp ← AbstractAsset.mkTempDir W this;
  archive ← GitHubAsset.downloadRepo W (base a) fuel temp (ref a);
  extracted ← AbstractAsset.extractArchive W this archive (Some (path.join [temp; "repo"])) 1;
  AbstractAsset.addDisposable this (DisposeRm extracted);;
  let paths := toArray (Some (nullish (path a) (inl ""))) in
  match dest with
  | None =>
      throw (TypeError ("The " +:+ JSON.dq +:+ "path" +:+ JSON.dq
                        +:+ " argument must be of type string. Received undefined"))
  | Some dest =>
      fs.mkdir W dest;;
      copy_paths extracted dest paths;;
      mret dest
  end.

End Methods.
End GitHubRepoAsset.

Module GitHubWorkflowAsset.

Record t : Type := {
  base : GitHubAsset.t;
  workflow : string;
  artifactName : string + RegExp.t;
}.

(** GitHub's [status] filter of the run listing: the run's status or its
    conclusion is the one asked for. *)
Definition has_status (wanted : option string) (run : WorkflowRun.t) : bool :=
  match wanted with
  | None => true
  | Some s =>
      bool_decide (WorkflowRun.status run = Some s)
      || bool_decide (WorkflowRun.conclusion run = Some s)
  end.

(** The page the listing endpoint answers with. *)
Definition page (params : ListWorkflowRunsParams.t) (runs : list WorkflowRun.t) : list WorkflowRun.t :=
  take (ListWorkflowRunsParams.per_page params)
       (List.filter (has_status (ListWorkflowRunsParams.status params)) runs).

Section Methods.
Context (W : World) (a : t).

Let this := GitHubAsset.this (base a).
Let owner := GitHubAsset.owner (base a).
Let repo := GitHubAsset.repo (base a).

Definition listWorkflowRuns (octokit : Octokit.t) (params : ListWorkflowRunsParams.t)
    : M (list WorkflowRun.t) :=
  api octokit (ListWorkflowRuns params)
    (match workflow_runs W octokit (ListWorkflowRunsParams.owner params)
             (ListWorkflowRunsParams.repo params)
             (ListWorkflowRunsParams.workflow_id params) with
     | inl e => inl e
     | inr runs => inr (page params runs)
     end).

Definition lastWorkflowRun : M (Settled (option WorkflowRun.t)) :=
  lastWorkflowRunPromise ← read this Instance.lastWorkflowRunPromise;
  match lastWorkflowRunPromise with
  | Some p => mret p
  | None =>
      let params :=
        {| ListWorkflowRunsParams.owner := owner;
           ListWorkflowRunsParams.repo := repo;
           ListWorkflowRunsParams.workflow_id := workflow a;
           ListWorkflowRunsParams.per_page := 1;
           ListWorkflowRunsParams.status := Some "success" |} in
      p ← settle (
        octokit ← GitHubAsset.getOctokit (base a);
        workflow_runs ← listWorkflowRuns octokit params;
        mret (head workflow_runs));
      write this (with_lastWorkflowRunPromise (Some p));;
      mret p
  end.

Definition downloadArtifact (id : Z) (downloadFilePath : string) : M string :=
  present ← AbstractAsset.assureFile downloadFilePath;
  (if present : bool then mret ()
   else
     octokit ← GitHubAsset.getOctokit (base a);
     data ← api octokit (DownloadArtifact owner repo id "zip")
              (artifact_zip W octokit owner repo id);
     fs.mkdir W (path.dirname downloadFilePath);;
     fs.writeFile W downloadFilePath data);;
  mret downloadFilePath.

(** [run.id] of a run that may be undefined. *)
Definition run_prop {A : Type} (prop : string) (f : WorkflowRun.t → A)
    (run : option WorkflowRun.t) : M A :=
  match run with
  | Some r => mret (f r)
  | None => throw (read_of_undefined prop)
  end.

Definition version : M (option string) :=
  p ← lastWorkflowRun;
  run ← await p;
  id ← run_prop "id" WorkflowRun.id run;
  mret (Some (workflow a +:+ "@" +:+ number_toString id)).

Definition cacheId : M (option string) :=
  p ← lastWorkflowRun;
  run ← await p;
  id ← run_prop "id" WorkflowRun.id run;
  mret (Some (owner +:+ "/" +:+ repo +:+ "/" +:+ workflow a +:+ "/" +:+ number_toString id)).

(** [name.match(this.artifactName)]: a string is compiled on the fly. *)
Definition matches_artifactName (name : string) : JsError + bool :=
  match artifactName a with
  | inl s =>
      match RegExp.new s with
      | inl e => inl e
      | inr re => inr (bool_decide (is_Some (String_match name re)))
      end
  | inr re => inr (bool_decide (is_Some (String_match name re)))
  end.

Fixpoint find_artifact (artifacts : list Artifact.t) : JsError + option Artifact.t :=
  match artifacts with
  | [] => inr None
  | x :: rest =>
      match matches_artifactName (Artifact.name x) with
      | inl e => inl e
      | inr true => inr (Some x)
      | inr false => find_artifact rest
      end
  end.

(** Template rendering of [this.artifactName]. *)
Definition artifactName_toString : string :=
  match artifactName a with
  | inl s => s
  | inr re => "/" +:+ RegExp.source re +:+ "/"
  end.

Definition copyTo (dest : option string) : M string :=
  octokit ← GitHubAsset.getOctokit (base a);
  temp ← AbstractAsset.mkTempDir W this;
  p ← lastWorkflowRun;
  run ← await p;
  run_id ← run_prop "id" WorkflowRun.id run;
  artifacts ← api octokit (ListWorkflowRunArtifacts owner repo run_id)
                (run_artifacts W octokit owner repo run_id);
  artifact ← of_result (find_artifact artifacts);
  match artifact with
  | None =>
      throw (Error ("No artifact found matching " +:+ artifactName_toString
                    +:+ " in workflow run " +:+ number_toString run_id))
  | Some artifact =>
      let artifactDownloadPath := path.join [temp; Artifact.name artifact +:+ ".zip"] in
      run_number ← run_prop "run_number" WorkflowRun.run_number run;
      console_debug ("Downloading artifact " +:+ Artifact.name artifact +:+ " from "
                   +:+ workflow a +:+ "@" +:+ number_toString run_number +:+ " ...");;
      downloadArtifact (Artifact.id artifact) artifactDownloadPath;;
      AbstractAsset.extractArchive W this artifactDownloadPath dest 0
  end.

End Methods.
End GitHubWorkflowAsset.

(** ** The [Asset] interface and [ArchiveFileAsset] *)

Inductive Asset : Type :=
| ArchiveFileAsset (this : nat) (subject : Asset) (strip : nat)
| Web (a : WebFileAsset.t)
| Local (a : LocalFileAsset.t)
| Release (a : GitHubReleaseAsset.t)
| Repo (a : GitHubRepoAsset.t)
| Workflow (a : GitHubWorkflowAsset.t).

Definition address (a : Asset) : nat :=
  match a with
  | ArchiveFileAsset this _ _ => this
  | Web a => WebFileAsset.this a
  | Local a => LocalFileAsset.this a
  | Release a => GitHubAsset.this (GitHubReleaseAsset.base a)
  | Repo a => GitHubAsset.this (GitHubRepoAsset.base a)
  | Workflow a => GitHubAsset.this (GitHubWorkflowAsset.base a)
  end.

(** The constructor of [ArchiveFileAsset], [strip] defaulting to 0. *)
Definition new_ArchiveFileAsset (this : nat) (subject : Asset) (strip : option nat) : M Asset :=
  AbstractAsset.addDisposable this (DisposeAsset (address subject));;
  mret (ArchiveFileAsset this subject (nullish strip 0%nat)).

Section Interface.
Context (W : World).

Fixpoint version (a : Asset) : M (option string) :=
  match a with
  | ArchiveFileAsset _ subject _ => version subject
  | Web a => mret (WebFileAsset.version a)
  | Local _ => AbstractAsset.version
  | Release a => GitHubReleaseAsset.version W a
  | Repo a => GitHubRepoAsset.version W a
  | Workflow a => GitHubWorkflowAsset.version W a
  end.

Definition cacheId (a : Asset) : M (option string) :=
  match a with
  | ArchiveFileAsset _ _ _ => AbstractAsset.cacheId
  | Web a => mret (Some (WebFileAsset.cacheId a))
  | Local _ => AbstractAsset.cacheId
  | Release a => GitHubReleaseAsset.cacheId W a
  | Repo a => GitHubRepoAsset.cacheId W a
  | Workflow a => GitHubWorkflowAsset.cacheId W a
  end.

Fixpoint withCacheDir (a : Asset) (cacheDir : string) : M () :=
  match a with
  | ArchiveFileAsset this subject _ =>
      withCacheDir subject cacheDir;;
      AbstractAsset.withCacheDir this cacheDir
  | _ => AbstractAsset.withCacheDir (address a) cacheDir
  end.

Fixpoint copyTo (fuel : nat) (a : Asset) (dest : option string) : M string :=
  match a with
  | ArchiveFileAsset this subject strip =>
      archiveFile ← copyTo fuel subject None;
      AbstractAsset.extractArchive W this archiveFile dest strip
  | Web a => WebFileAsset.copyTo W fuel a dest
  | Local a => LocalFileAsset.copyTo W a dest
  | Release a => GitHubReleaseAsset.copyTo W a fuel dest
  | Repo a => GitHubRepoAsset.copyTo W a fuel dest
  | Workflow a => GitHubWorkflowAsset.copyTo W a dest
  end.

End Interface.

(** ** Sample worlds and assets *)

Module Samples.

Definition response (code : Z) (text : string) (headers : IncomingHttpHeaders)
    (body : string) : IncomingMessage.t :=
  {| IncomingMessage.statusCode := Some code;
     IncomingMessage.statusMessage := Some text;
     IncomingMessage.headers := headers;
     IncomingMessage.body := body |}.

(** A world without servers: every request fails, GitHub knows nothing. *)
Definition offline : World :=
  {| https_request := λ _ _, inl (SystemError "ENOTFOUND");
     write_error := λ _, None;
     enoent := λ _, SystemError "ENOENT";
     temp_name := λ n, "/tmp/vsce-" +:+ pretty n;
     archive_entries := λ _, None;
     releases := λ _ _ _, inl (Error "Not Found");
     release_assets := λ _ _ _ _, inl (Error "Not Found");
     git_ref_sha := λ _ _ _ _, inl (Error "Not Found");
     tarball_url := λ _ _ _ _, inl (Error "Not Found");
     workflow_runs := λ _ _ _ _, inl (Error "Not Found");
     run_artifacts := λ _ _ _ _, inl (Error "Not Found");
     artifact_zip := λ _ _ _ _, inl (Error "Not Found") |}.

Definition with_https (f : string → OutgoingHttpHeaders → JsError + IncomingMessage.t)
    (W : World) : World :=
  {| https_request := f; write_error := write_error W; enoent := enoent W;
     temp_name := temp_name W; archive_entries := archive_entries W;
     releases := releases W; release_assets := release_assets W;
     git_ref_sha := git_ref_sha W; tarball_url := tarball_url W;
     workflow_runs := workflow_runs W; run_artifacts := run_artifacts W;
     artifact_zip := artifact_zip W |}.

Definition with_releases (l : list GitHubRelease.t) (W : World) : World :=
  {| https_request := https_request W; write_error := write_error W; enoent := enoent W;
     temp_name := temp_name W; archive_entries := archive_entries W;
     releases := λ _ _ _, inr l; release_assets := λ _ _ _ _, inr [];
     git_ref_sha := git_ref_sha W; tarball_url := tarball_url W;
     workflow_runs := workflow_runs W; run_artifacts := run_artifacts W;
     artifact_zip := artifact_zip W |}.

Definition with_workflow_runs (l : list WorkflowRun.t) (W : World) : World :=
  {| https_request := https_request W; write_error := write_error W; enoent := enoent W;
     temp_name := temp_name W; archive_entries := archive_entries W;
     releases := releases W; release_assets := release_assets W;
     git_ref_sha := git_ref_sha W; tarball_url := tarball_url W;
     workflow_runs := λ _ _ _ _, inr l; run_artifacts := λ _ _ _ _, inr [];
     artifact_zip := artifact_zip W |}.

(** Host [a] redirects to host [b]; [b] serves the file to authorised
    requests only. *)
Definition redirecting : World :=
  with_https (λ url headers,
    if String.eqb url "https://a.example/tool.zip" then
      inr (response 302 "Found" [("location", IString "https://b.example/tool.zip")] "")
    else if String.eqb url "https://b.example/tool.zip" then
      match headers !! "authorization" with
      | Some _ => inr (response 200 "OK" [] "zip-bytes")
      | None => inr (response 401 "Unauthorized" [("content-length", IString "0")] "")
      end
    else inl (SystemError "ENOTFOUND")) offline.

Definition bearer : OutgoingHttpHeaders :=
  {[ "authorization" := HString "Bearer secret" ]}.

(** Host [a] serves a file; everything else is missing. *)
Definition serving : World :=
  with_https (λ url _,
    if String.eqb url "https://a.example/dist/tool.zip" then
      inr (response 200 "OK" [] "zip-bytes")
    else inr (response 404 "Not Found" [("content-type", IString "text/plain")] "")) offline.

Definition release (id : Z) (tag : string) : GitHubRelease.t :=
  {| GitHubRelease.id := id; GitHubRelease.tag_name := tag |}.

Definition three_releases : World :=
  with_releases [release 3 "v2.0.0"; release 2 "v1.5.0"; release 1 "v1.0.0"] offline.

Definition run (id : Z) (conclusion : string) : WorkflowRun.t :=
  {| WorkflowRun.id := id; WorkflowRun.run_number := id - 100;
     WorkflowRun.status := Some "completed"; WorkflowRun.conclusion := Some conclusion |}.

(** The latest run failed, the two before it succeeded. *)
Definition mixed_runs : World :=
  with_workflow_runs [run 105 "failure"; run 104 "success"; run 103 "success"] offline.

(** No run of the workflow succeeded. *)
Definition failed_runs : World :=
  with_workflow_runs [run 105 "failure"; run 104 "cancelled"] offline.

Definition github : GitHubAsset.t :=
  {| GitHubAsset.this := 1%nat; GitHubAsset.owner := "org";
     GitHubAsset.repo := "tool"; GitHubAsset.token := None |}.

Definition release_asset (tag : string) : GitHubReleaseAsset.t :=
  {| GitHubReleaseAsset.base := github; GitHubReleaseAsset.tag := inr tag;
     GitHubReleaseAsset.assetName := "tool.zip" |}.

Definition repo_asset : GitHubRepoAsset.t :=
  GitHubRepoAsset.new 1 "org" "tool" None None None.

Definition workflow_asset : GitHubWorkflowAsset.t :=
  {| GitHubWorkflowAsset.base := github; GitHubWorkflowAsset.workflow := "build.yml";
     GitHubWorkflowAsset.artifactName := inl "dist" |}.

Definition web_asset : WebFileAsset.t :=
  {| WebFileAsset.this := 2%nat;
     WebFileAsset.url := {| URL.href := "https://a.example/dist/tool.zip";
                            URL.host := "a.example";
                            URL.pathname := "/dist/tool.zip" |};
     WebFileAsset.filename := None; WebFileAsset._version := None;
     WebFileAsset.headers := ∅ |}.

Definition local_asset : LocalFileAsset.t :=
  {| LocalFileAsset.this := 3%nat; LocalFileAsset.filepath := "/src/tool.bin";
     LocalFileAsset.targetName := None |}.

End Samples.

(** ** Queries and resolution calls *)

(** The two getters a caller may query. *)
Inductive Getter : Type := Version | CacheId.

Definition query (W : World) (g : Getter) (a : Asset) : M (option string) :=
  match g with
  | Version => version W a
  | CacheId => cacheId W a
  end.

(** The API calls that resolve a tag pattern, a ref or a workflow run. *)
Definition is_resolution (e : Event) : bool :=
  match e with
  | Api _ (ListReleases _ _) | Api _ (GetRef _ _ _) | Api _ (ListWorkflowRuns _) => true
  | _ => false
  end.

Definition resolutions (σ : State) : nat :=
  List.length (List.filter is_resolution (trace σ)).

Definition github_backed (a : Asset) : Prop :=
  match a with
  | Release _ | Repo _ | Workflow _ => True
  | _ => False
  end.

(** A computation that settles without touching the store. *)
Definition quiet {A : Type} (m : M A) : Prop :=
  ∀ σ, ∃ r, m σ = Some (r, σ).

(** ** Stores along a run *)

Definition settled_of {A : Type} (r : JsError + A) : Settled A :=
  match r with inl e => Rejected e | inr a => Resolved a end.

(** The client [getOctokit] hands out in store [σ]. *)
Definition client (a : GitHubAsset.t) (σ : State) : Octokit.t :=
  nullish (OCTOKIT σ !! nullish (GitHubAsset.token a) "")
    {| Octokit.auth := GitHubAsset.token a |}.

(** The store after [getOctokit]. *)
Definition pooled (a : GitHubAsset.t) (σ : State) : State :=
  with_OCTOKIT (insert (nullish (GitHubAsset.token a) "") (client a σ)) σ.

(** The store after an API call. *)
Definition called (octokit : Octokit.t) (call : ApiCall) (σ : State) : State :=
  with_trace (λ t, t ++ [Api octokit call])%list σ.

(** The store after an update of the instance at [this]. *)
Definition stored (this : nat) (f : Instance.t → Instance.t) (σ : State) : State :=
  with_heap (insert this (f (fields this σ))) σ.

(** Whether the tag of a release matches a pattern. *)
Definition tag_matches (re : RegExp.t) (r : GitHubRelease.t) : bool :=
  bool_decide (is_Some (String_match (GitHubRelease.tag_name r) re)).

(** Whether a run passes GitHub's filter for successful runs. *)
Definition successful (run : WorkflowRun.t) : bool :=
  GitHubWorkflowAsset.has_status (Some "success") run.

(** The store once the releases were listed and the promise [p] kept. *)
Definition listed (a : GitHubReleaseAsset.t) (p : Settled (option GitHubRelease.t))
    (σ : State) : State :=
  let base := GitHubReleaseAsset.base a in
  stored (GitHubAsset.this base) (with_releasePromise (Some p))
    (called (client base σ)
       (ListReleases (GitHubAsset.owner base) (GitHubAsset.repo base))
       (pooled base σ)).

(** The parameters [lastWorkflowRun] lists the runs with. *)
Definition successful_runs (a : GitHubWorkflowAsset.t) : ListWorkflowRunsParams.t :=
  let base := GitHubWorkflowAsset.base a in
  {| ListWorkflowRunsParams.owner := GitHubAsset.owner base;
     ListWorkflowRunsParams.repo := GitHubAsset.repo base;
     ListWorkflowRunsParams.workflow_id := GitHubWorkflowAsset.workflow a;
     ListWorkflowRunsParams.per_page := 1;
     ListWorkflowRunsParams.status := Some "success" |}.

(** The store once the runs were listed and the promise [p] kept. *)
Definition looked_up (a : GitHubWorkflowAsset.t) (p : Settled (option WorkflowRun.t))
    (σ : State) : State :=
  let base := GitHubWorkflowAsset.base a in
  stored (GitHubAsset.this base) (with_lastWorkflowRunPromise (Some p))
    (called (client base σ) (ListWorkflowRuns (successful_runs a)) (pooled base σ)).

(** [σ'] continues the trace of [σ]. *)
Definition extends (σ σ' : State) : Prop :=
  ∃ later, trace σ' = (trace σ ++ later)%list.

(** A computation that always settles and only ever adds to the trace. *)
Definition steady {A : Type} (m : M A) : Prop :=
  ∀ σ, ∃ r σ', m σ = Some (r, σ') ∧ extends σ σ'.

(** The store after [mkTempDir]. *)
Definition scratch (W : World) (this : nat) (σ : State) : State :=
  let dir := temp_name W (temp_count σ) in
  stored this (λ i, with_disposables (Instance.disposables i ++ [DisposeRm dir])%list i)
    (with_dirs (λ d, {[dir]} ∪ d) (with_temp_count S σ)).

(** ** The claims the code departs from, as stated *)

(** On a redirect the recursive call would be given the caller's headers. *)
Definition redirect_keeps_headers (W : World) (fuel : nat) (url outputPath : string)
    (headers : OutgoingHttpHeaders) (σ : State) : Prop :=
  ∀ (res : IncomingMessage.t) (code : Z) (loc : string),
    https_request W url (headers ∪ default_headers) = inr res →
    IncomingMessage.statusCode res = Some code →
    code = 301 ∨ code = 302 →
    location (IncomingMessage.headers res) = Some loc →
    loc ≠ "" →
    downloadFile W (S fuel) url outputPath headers σ
    = downloadFile W fuel loc outputPath headers
        (requested url (headers ∪ default_headers) σ).

(** Whatever the outcomes, two sequential queries would issue at most one
    resolution call. *)
Definition at_most_one_resolution (W : World) (a : Asset) (σ : State) : Prop :=
  ∀ g1 g2 r1 σ1 r2 σ2,
    query W g1 a σ = Some (r1, σ1) →
    query W g2 a σ1 = Some (r2, σ2) →
    (resolutions σ2 ≤ resolutions σ + 1)%nat.

(** An archive would answer both getters as its subject does. *)
Definition archive_shares_identity (W : World) (this : nat) (subject : Asset)
    (strip : nat) (σ : State) : Prop :=
  version W (ArchiveFileAsset this subject strip) σ = version W subject σ
  ∧ cacheId W (ArchiveFileAsset this subject strip) σ = cacheId W subject σ.

(** The asset inside every archive wrapper. *)
Fixpoint innermost (a : Asset) : Asset :=
  match a with
  | ArchiveFileAsset _ subject _ => innermost subject
  | _ => a
  end.

(** [σ0] is [σ], or the store a query of a getter of [a] in [σ] leaves. *)
Definition after_query (W : World) (a : Asset) (σ σ0 : State) : Prop :=
  σ0 = σ ∨ ∃ g r, query W g a σ = Some (r, σ0).

(** ** Further notions for the properties of the code *)

(** What [downloadFile] does once the response [res] to its request for
    [url] has arrived, with [fuel] requests left for redirects. *)
Definition on_response (W : World) (fuel : nat) (url outputPath : string)
    (res : IncomingMessage.t) : M string :=
  let write :=
    pipe_to_file W outputPath (IncomingMessage.body res);;
    mret outputPath in
  match IncomingMessage.statusCode res with
  | Some code =>
      if (code <? 200) || (code >=? 300) then
        if ((code =? 301) || (code =? 302))
           && truthy (location (IncomingMessage.headers res))
        then
          downloadFile W fuel (string_or_undefined (location (IncomingMessage.headers res)))
            outputPath ∅
        else
          throw (Error (status_error_message url res code))
      else write
  | None => write
  end.

(** [res] is a 301 or 302 answer whose location is [loc]. *)
Definition redirects_to (res : IncomingMessage.t) (loc : string) : Prop :=
  ∃ code,
    IncomingMessage.statusCode res = Some code
    ∧ (code = 301 ∨ code = 302)
    ∧ location (IncomingMessage.headers res) = Some loc
    ∧ loc ≠ "".

(** [res] takes the branch that stores the body: a 2xx status, or none. *)
Definition stores_body (res : IncomingMessage.t) : Prop :=
  match IncomingMessage.statusCode res with
  | Some code => 200 ≤ code < 300
  | None => True
  end.

(** The request for [url] with [headers] is redirected along [hops], each
    hop asked for with the default headers, and the last answer is [final]. *)
Fixpoint redirect_chain (W : World) (url : string) (headers : OutgoingHttpHeaders)
    (hops : list string) (final : IncomingMessage.t) : Prop :=
  match hops with
  | [] =>
      https_request W url (headers ∪ default_headers) = inr final ∧ stores_body final
  | next :: rest =>
      ∃ res,
        https_request W url (headers ∪ default_headers) = inr res
        ∧ redirects_to res next
        ∧ redirect_chain W next ∅ rest final
  end.

(** The HTTPS requests of a trace, oldest first. *)
Definition https_requests (t : list Event) : list (string * OutgoingHttpHeaders) :=
  omap (λ e, match e with HttpsRequest url headers => Some (url, headers) | _ => None end) t.

(** The calls made through Octokit clients in a trace, oldest first. *)
Definition api_calls (t : list Event) : list (Octokit.t * ApiCall) :=
  omap (λ e, match e with Api octokit call => Some (octokit, call) | _ => None end) t.

(** No call through an Octokit client was made between the two stores. *)
Definition same_calls (σ σ' : State) : Prop :=
  api_calls (trace σ') = api_calls (trace σ).

(** Every URL of [P] answers every request with a redirect into [P]. *)
Definition trapped (W : World) (P : string → Prop) : Prop :=
  ∀ url headers, P url →
    ∃ res loc, https_request W url headers = inr res ∧ redirects_to res loc ∧ P loc.


(** *** Literal tags *)

(** A character of a tag that the pattern text reads as itself, or a dot. *)
Definition tag_char (c : ascii) : bool :=
  Ascii.eqb c "." || negb (RegExp.syntax_character c).

(** The pattern of one character of a tag. *)
Definition atom (c : ascii) : RegExp.Pattern :=
  if Ascii.eqb c "." then RegExp.Any else RegExp.Char c.

(** The pattern a tag of such characters is read as. *)
Definition literal (s : list ascii) : RegExp.Pattern :=
  foldr (λ c p, RegExp.Seq (atom c) p) RegExp.Empty s.

(** A character of the text fits one of the tag: a dot stands for any
    character but a line terminator. *)
Definition fits (c u : ascii) : bool :=
  if Ascii.eqb c "." then negb (RegExp.is_line_terminator u) else Ascii.eqb c u.

(** The text begins with characters that fit the tag, one by one. *)
Fixpoint fits_at (s text : list ascii) : bool :=
  match s, text with
  | [], _ => true
  | c :: s', u :: text' => fits c u && fits_at s' text'
  | _ :: _, [] => false
  end.

(** The headers [GitHubAsset.downloadFile] adds for a token. *)
Definition token_headers (token : option string) : OutgoingHttpHeaders :=
  if truthy token
  then {[ "authorization" := HString ("Bearer " +:+ string_or_undefined token) ]}
  else ∅.

Module MoreSamples.

(** Two hosts that redirect to each other for ever. *)
Definition ping_pong : World :=
  Samples.with_https (λ url _,
    if String.eqb url "https://a.example/x" then
      inr (Samples.response 302 "Found" [("location", IString "https://b.example/x")] "")
    else
      inr (Samples.response 301 "Moved" [("location", IString "https://a.example/x")] ""))
    Samples.offline.

(** Host [a] redirects to host [b], [b] to host [c], which serves the
    file whatever the headers. *)
Definition mirrored : World :=
  Samples.with_https (λ url _,
    if String.eqb url "https://a.example/tool.zip" then
      inr (Samples.response 301 "Moved" [("location", IString "https://b.example/tool.zip")] "")
    else if String.eqb url "https://b.example/tool.zip" then
      inr (Samples.response 302 "Found" [("location", IString "https://c.example/tool.zip")] "")
    else if String.eqb url "https://c.example/tool.zip" then
      inr (Samples.response 200 "OK" [] "zip-bytes")
    else inl (SystemError "ENOTFOUND")) Samples.offline.


(** GitHub knows the branch [main] of every repository, and no other ref. *)
Definition only_main : World :=
  {| https_request := https_request Samples.offline;
     write_error := write_error Samples.offline;
     enoent := enoent Samples.offline; temp_name := temp_name Samples.offline;
     archive_entries := archive_entries Samples.offline;
     releases := releases Samples.offline;
     release_assets := release_assets Samples.offline;
     git_ref_sha := λ _ _ _ ref,
       if String.eqb ref "main" then inr "0a1b2c3" else inl (Error "Not Found");
     tarball_url := tarball_url Samples.offline;
     workflow_runs := workflow_runs Samples.offline;
     run_artifacts := run_artifacts Samples.offline;
     artifact_zip := artifact_zip Samples.offline |}.

(** The pattern [^v1], which has no group. *)
Definition major_one : RegExp.t :=
  {| RegExp.source := "^v1";
     RegExp.pattern :=
       RegExp.Seq RegExp.Bol
         (RegExp.Seq (RegExp.Char "v") (RegExp.Seq (RegExp.Char "1") RegExp.Empty)) |}.

Definition with_token (token : option string) : GitHubAsset.t :=
  {| GitHubAsset.this := 1%nat; GitHubAsset.owner := "org";
     GitHubAsset.repo := "tool"; GitHubAsset.token := token |}.

Definition api_url : URL.t :=
  {| URL.href := "https://a.example/tool.zip"; URL.host := "a.example";
     URL.pathname := "/tool.zip" |}.

Definition with_release_assets (l : list ReleaseAsset.t) (W : World) : World :=
  {| https_request := https_request W; write_error := write_error W; enoent := enoent W;
     temp_name := temp_name W; archive_entries := archive_entries W;
     releases := releases W; release_assets := λ _ _ _ _, inr l;
     git_ref_sha := git_ref_sha W; tarball_url := tarball_url W;
     workflow_runs := workflow_runs W; run_artifacts := run_artifacts W;
     artifact_zip := artifact_zip W |}.

Definition file (id : Z) (name : string) : ReleaseAsset.t :=
  {| ReleaseAsset.id := id; ReleaseAsset.name := name;
     ReleaseAsset.url := "https://a.example/assets/" +:+ number_toString id |}.

(** The releases of [Samples.three_releases], each with a checksum file
    and two uploads of the same name. *)
Definition published : World :=
  with_release_assets [file 11 "tool.zip.sha256"; file 12 "tool.zip"; file 13 "tool.zip"]
    Samples.three_releases.

Definition with_run_artifacts (l : list Artifact.t) (W : World) : World :=
  {| https_request := https_request W; write_error := write_error W; enoent := enoent W;
     temp_name := temp_name W; archive_entries := archive_entries W;
     releases := releases W; release_assets := release_assets W;
     git_ref_sha := git_ref_sha W; tarball_url := tarball_url W;
     workflow_runs := workflow_runs W; run_artifacts := λ _ _ _ _, inr l;
     artifact_zip := artifact_zip W |}.

(** The runs of [Samples.mixed_runs], each with two artifacts. *)
Definition built : World :=
  with_run_artifacts [{| Artifact.id := 7; Artifact.name := "docs" |};
                      {| Artifact.id := 8; Artifact.name := "logs" |}]
    Samples.mixed_runs.

End MoreSamples.

(** The key [getOctokit] pools the client of [a] under. *)
Definition pool_key (a : GitHubAsset.t) : string := nullish (GitHubAsset.token a) "".

(** The GitHub coordinates of an asset, looking through archive wrappers. *)
Definition github_base (a : Asset) : option GitHubAsset.t :=
  match innermost a with
  | Release x => Some (GitHubReleaseAsset.base x)
  | Repo x => Some (GitHubRepoAsset.base x)
  | Workflow x => Some (GitHubWorkflowAsset.base x)
  | _ => None
  end.

(** What a getter of a GitHub asset with coordinates [b] may change: the
    trace, the fields of its own instance, and the pool, by a client of
    its own token under its own key when the key was free. *)
Definition getter_frame (b : GitHubAsset.t) (σ σ' : State) : Prop :=
  files σ' = files σ
  ∧ dirs σ' = dirs σ
  ∧ temp_count σ' = temp_count σ
  ∧ (∀ i, i ≠ GitHubAsset.this b → heap σ' !! i = heap σ !! i)
  ∧ (∀ k, OCTOKIT σ' !! k = OCTOKIT σ !! k
          ∨ (k = pool_key b
             ∧ OCTOKIT σ !! k = None
             ∧ OCTOKIT σ' !! k = Some {| Octokit.auth := GitHubAsset.token b |})).

(** Every settled run of [m] relates the stores by [R]. *)
Definition keeps (R : State → State → Prop) {A : Type} (m : M A) : Prop :=
  ∀ σ r σ', m σ = Some (r, σ') → R σ σ'.


(** * Properties *)

(** ** Strings *)

Lemma append_assoc (a b c : string) : (a +:+ b) +:+ c = a +:+ b +:+ c.
Proof.
  induction a as [|x a IH]; [done|].
  change (String x ((a +:+ b) +:+ c) = String x (a +:+ b +:+ c)). by f_equal.
Qed.

Lemma append_empty_r (a : string) : a +:+ "" = a.
Proof.
  induction a as [|x a IH]; [done|].
  change (String x (a +:+ "") = String x a). by f_equal.
Qed.

Lemma includes_prefix (x rest : string) : includes x (x +:+ rest).
Proof. by exists "", rest. Qed.

Lemma includes_self (x : string) : includes x x.
Proof. exists "", "". by rewrite append_empty_r. Qed.

Lemma includes_skip (x a b : string) : includes x b → includes x (a +:+ b).
Proof. intros (p & q & ->). exists (a +:+ p), q. by rewrite append_assoc. Qed.

Lemma startsWith_spec (n h : string) :
  startsWith n h = true ↔ ∃ rest, h = n +:+ rest.
Proof.
  revert h. induction n as [|a n IH]; intros h; simpl.
  - split; [intros _; by exists h | done].
  - destruct h as [|b h].
    + split; [done | intros (rest & H); discriminate H].
    + rewrite andb_true_iff, IH, Ascii.eqb_eq. split.
      * intros (-> & rest & ->). by exists rest.
      * intros (rest & H). injection H as -> ->. eauto.
Qed.

Lemma includesb_spec (n h : string) : includesb n h = true ↔ includes n h.
Proof.
  induction h as [|c h IH]; simpl; rewrite orb_true_iff, startsWith_spec.
  - split.
    + intros [(rest & H) | H]; [|done]. exists "", rest. exact H.
    + intros (p & q & H). left. destruct p; [by exists q|discriminate H].
  - rewrite IH. split.
    + intros [(rest & H) | (p & q & ->)].
      * exists "", rest. exact H.
      * by exists (String c p), q.
    + intros (p & q & H). destruct p as [|c' p].
      * left. by exists q.
      * right. injection H as -> ->. by exists p, q.
Qed.

Lemma not_includes (n h : string) : includesb n h = false → ¬ includes n h.
Proof. intros H Hin. apply includesb_spec in Hin. congruence. Qed.

(** ** [downloadFile] *)

Lemma status_error_message_includes (url : string) (res : IncomingMessage.t) (code : Z) :
  let msg := status_error_message url res code in
  includes (number_toString code) msg
  ∧ includes url msg
  ∧ includes (nullish (IncomingMessage.statusMessage res) "") msg
  ∧ includes (JSONHeaders.stringify (IncomingMessage.headers res)) msg.
Proof.
  unfold status_error_message. repeat split.
  - apply includes_skip, includes_prefix.
  - do 3 apply includes_skip. apply includes_prefix.
  - do 5 apply includes_skip. apply includes_prefix.
  - do 7 apply includes_skip. apply includes_self.
Qed.

Lemma requested_unfold (url : string) (requestOptions : OutgoingHttpHeaders) (σ : State) :
  with_trace (λ t, t ++ [HttpsRequest url requestOptions])%list
    (with_trace (λ t, t ++ [ConsoleLog ("Downloading file from " +:+ url +:+ " ...")])%list σ)
  = requested url requestOptions σ.
Proof. unfold requested, with_trace. cbn. by rewrite <- app_assoc. Qed.

(** C8. A response whose status is outside 200..299 and that is not a
    301/302 redirect with a location makes [downloadFile] reject with an
    error whose message contains the status code, the URL, the status
    message and the response headers; nothing is written. *)
Theorem downloadFile_rejects_on_status (W : World) (fuel : nat) (url outputPath : string)
    (headers : OutgoingHttpHeaders) (σ : State) (res : IncomingMessage.t) (code : Z) :
  https_request W url (headers ∪ default_headers) = inr res →
  IncomingMessage.statusCode res = Some code →
  code < 200 ∨ 300 ≤ code →
  ((code =? 301) || (code =? 302)) && truthy (location (IncomingMessage.headers res)) = false →
  ∃ msg,
    downloadFile W (S fuel) url outputPath headers σ
      = Some (Rejected (Error msg), requested url (headers ∪ default_headers) σ)
    ∧ includes (number_toString code) msg
    ∧ includes url msg
    ∧ includes (nullish (IncomingMessage.statusMessage res) "") msg
    ∧ includes (JSONHeaders.stringify (IncomingMessage.headers res)) msg.
Proof.
  intros Hreq Hcode Hrange Hnoredirect.
  exists (status_error_message url res code). split.
  - cbn -[default_headers]. unfold mbind, M_bind. cbn -[default_headers].
    rewrite Hreq. cbn -[default_headers]. rewrite Hcode.
    replace ((code <? 200) || (code >=? 300)) with true
      by (symmetry; apply orb_true_iff; lia).
    rewrite Hnoredirect, requested_unfold. reflexivity.
  - apply status_error_message_includes.
Qed.

Lemma downloadFile_rejects_on_status_witness :
  ∃ msg,
    downloadFile Samples.serving 1 "https://a.example/missing" "/out/x" ∅ initial
      = Some (Rejected (Error msg),
              requested "https://a.example/missing" (∅ ∪ default_headers) initial)
    ∧ includes (number_toString 404) msg
    ∧ includes "https://a.example/missing" msg
    ∧ includes "Not Found" msg
    ∧ includes (JSONHeaders.stringify [("content-type", IString "text/plain")]) msg.
Proof.
  apply (downloadFile_rejects_on_status Samples.serving 0 "https://a.example/missing"
           "/out/x" ∅ initial
           (Samples.response 404 "Not Found" [("content-type", IString "text/plain")] "") 404).
  - reflexivity.
  - reflexivity.
  - right. lia.
  - reflexivity.
Defined.

(** A 301/302 response with a non-empty location makes [downloadFile]
    continue as a fresh call on the location, whatever headers that call
    is given. *)
Lemma downloadFile_redirect_step (W : World) (fuel : nat) (url outputPath : string)
    (headers : OutgoingHttpHeaders) (σ : State) (res : IncomingMessage.t)
    (code : Z) (loc : string) :
  https_request W url (headers ∪ default_headers) = inr res →
  IncomingMessage.statusCode res = Some code →
  code = 301 ∨ code = 302 →
  location (IncomingMessage.headers res) = Some loc →
  loc ≠ "" →
  downloadFile W (S fuel) url outputPath headers σ
  = downloadFile W fuel loc outputPath ∅ (requested url (headers ∪ default_headers) σ).
Proof.
  intros Hreq Hcode Hredirect Hloc Hne.
  cbn -[default_headers]. unfold mbind, M_bind. cbn -[default_headers].
  rewrite Hreq. cbn -[default_headers]. rewrite Hcode, Hloc, requested_unfold.
  replace ((code <? 200) || (code >=? 300)) with true
    by (symmetry; apply orb_true_iff; lia).
  replace ((code =? 301) || (code =? 302)) with true
    by (symmetry; apply orb_true_iff; lia).
  cbn. destruct (String.eqb_spec loc ""); [done|]. reflexivity.
Qed.

(** Every call that settles has announced and issued its own request
    first, with the caller's headers laid over the defaults. *)
Lemma downloadFile_trace (W : World) (fuel : nat) (url outputPath : string)
    (headers : OutgoingHttpHeaders) (σ σ' : State) (r : Settled string) :
  downloadFile W fuel url outputPath headers σ = Some (r, σ') →
  ∃ later,
    trace σ' = (trace (requested url (headers ∪ default_headers) σ) ++ later)%list.
Proof.
  revert url headers σ. induction fuel as [|fuel IH]; intros url headers σ; [done|].
  cbn -[default_headers]. unfold mbind, M_bind. cbn -[default_headers].
  rewrite requested_unfold.
  destruct (https_request W url (headers ∪ default_headers)) as [e|res];
    cbn -[default_headers].
  { intros [= <- <-]. exists []. by rewrite app_nil_r. }
  assert (Hwrite : ∀ s x,
    match pipe_to_file W outputPath (IncomingMessage.body res) s with
    | Some (Resolved _, s') => (mret outputPath : M string) s'
    | Some (Rejected e, s') => Some (Rejected e, s')
    | None => None
    end = Some (x, σ') → trace σ' = trace s).
  { intros s x. unfold pipe_to_file.
    destruct (write_error W outputPath); cbn; by intros [= <- <-]. }
  destruct (IncomingMessage.statusCode res) as [code|].
  2:{ intros H. apply Hwrite in H. exists []. by rewrite app_nil_r. }
  destruct ((code <? 200) || (code >=? 300)).
  2:{ intros H. apply Hwrite in H. exists []. by rewrite app_nil_r. }
  destruct (((code =? 301) || (code =? 302))
            && truthy (location (IncomingMessage.headers res))).
  - intros H. apply IH in H as [later ->].
    unfold requested at 1. cbn [trace with_trace].
    rewrite <- app_assoc. eexists. reflexivity.
  - intros [= <- <-]. exists []. by rewrite app_nil_r.
Qed.

Lemma downloadFile_resolves_to_outputPath (W : World) (fuel : nat) (url outputPath : string)
    (headers : OutgoingHttpHeaders) (σ σ' : State) (p : string) :
  downloadFile W fuel url outputPath headers σ = Some (Resolved p, σ') → p = outputPath.
Proof.
  revert url headers σ. induction fuel as [|fuel IH]; intros url headers σ; [done|].
  cbn -[default_headers]. unfold mbind, M_bind. cbn -[default_headers].
  destruct (https_request W url (headers ∪ default_headers)) as [e|res];
    cbn -[default_headers]; [done|].
  assert (Hwrite : ∀ s,
    match pipe_to_file W outputPath (IncomingMessage.body res) s with
    | Some (Resolved _, s') => (mret outputPath : M string) s'
    | Some (Rejected e, s') => Some (Rejected e, s')
    | None => None
    end = Some (Resolved p, σ') → p = outputPath).
  { intros s. unfold pipe_to_file.
    destruct (write_error W outputPath); cbn; [done | by intros [= <- <-]]. }
  destruct (IncomingMessage.statusCode res) as [code|]; [|apply Hwrite].
  destruct ((code <? 200) || (code >=? 300)); [|apply Hwrite].
  destruct (((code =? 301) || (code =? 302))
            && truthy (location (IncomingMessage.headers res))); [apply IH | done].
Qed.

Lemma downloadFile_stores_body (W : World) (fuel : nat) (url outputPath : string)
    (headers : OutgoingHttpHeaders) (σ : State) (res : IncomingMessage.t) (code : Z) :
  https_request W url (headers ∪ default_headers) = inr res →
  IncomingMessage.statusCode res = Some code →
  200 ≤ code < 300 →
  write_error W outputPath = None →
  downloadFile W (S fuel) url outputPath headers σ
  = Some (Resolved outputPath,
          with_files (insert outputPath (IncomingMessage.body res))
            (requested url (headers ∪ default_headers) σ)).
Proof.
  intros Hreq Hcode Hrange Hok.
  cbn -[default_headers]. unfold mbind, M_bind. cbn -[default_headers].
  rewrite Hreq. cbn -[default_headers]. rewrite Hcode, requested_unfold.
  replace ((code <? 200) || (code >=? 300)) with false
    by (symmetry; apply orb_false_iff; lia).
  unfold pipe_to_file. rewrite Hok. reflexivity.
Qed.

(** C1, as the code has it. On a 301/302 response with a non-empty
    location [downloadFile] recurses on the location with the same output
    path and without the caller's headers: the call settles exactly as that
    recursive call does, and the follow-up request carries the default
    headers only. *)
Theorem downloadFile_follows_redirect (W : World) (fuel : nat) (url outputPath : string)
    (headers : OutgoingHttpHeaders) (σ : State) (res : IncomingMessage.t)
    (code : Z) (loc : string) :
  https_request W url (headers ∪ default_headers) = inr res →
  IncomingMessage.statusCode res = Some code →
  code = 301 ∨ code = 302 →
  location (IncomingMessage.headers res) = Some loc →
  loc ≠ "" →
  downloadFile W (S fuel) url outputPath headers σ
  = downloadFile W fuel loc outputPath ∅ (requested url (headers ∪ default_headers) σ)
  ∧ ∀ r σ',
      downloadFile W (S fuel) url outputPath headers σ = Some (r, σ') →
      ∃ later,
        trace σ' = (trace σ
                    ++ [ConsoleLog ("Downloading file from " +:+ url +:+ " ...");
                        HttpsRequest url (headers ∪ default_headers);
                        ConsoleLog ("Downloading file from " +:+ loc +:+ " ...");
                        HttpsRequest loc default_headers]
                    ++ later)%list.
Proof.
  intros Hreq Hcode Hredirect Hloc Hne.
  pose proof (downloadFile_redirect_step W fuel url outputPath headers σ res code loc
                Hreq Hcode Hredirect Hloc Hne) as Hstep.
  split; [exact Hstep|].
  intros r σ' H. rewrite Hstep in H.
  apply downloadFile_trace in H as [later ->].
  exists later. rewrite (left_id_L ∅ (∪)). cbn. by rewrite <- !app_assoc.
Qed.

Lemma downloadFile_follows_redirect_witness :
  downloadFile Samples.redirecting 2 "https://a.example/tool.zip" "/out/tool.zip"
    Samples.bearer initial
  = downloadFile Samples.redirecting 1 "https://b.example/tool.zip" "/out/tool.zip" ∅
      (requested "https://a.example/tool.zip" (Samples.bearer ∪ default_headers) initial)
  ∧ ∀ r σ',
      downloadFile Samples.redirecting 2 "https://a.example/tool.zip" "/out/tool.zip"
        Samples.bearer initial = Some (r, σ') →
      ∃ later,
        trace σ' = (trace initial
                    ++ [ConsoleLog ("Downloading file from " +:+ "https://a.example/tool.zip" +:+ " ...");
                        HttpsRequest "https://a.example/tool.zip" (Samples.bearer ∪ default_headers);
                        ConsoleLog ("Downloading file from " +:+ "https://b.example/tool.zip" +:+ " ...");
                        HttpsRequest "https://b.example/tool.zip" default_headers]
                    ++ later)%list.
Proof.
  apply (downloadFile_follows_redirect Samples.redirecting 1 "https://a.example/tool.zip"
           "/out/tool.zip" Samples.bearer initial
           (Samples.response 302 "Found"
              [("location", IString "https://b.example/tool.zip")] "")
           302 "https://b.example/tool.zip").
  - reflexivity.
  - reflexivity.
  - right. reflexivity.
  - reflexivity.
  - discriminate.
Defined.

(** The bearer token given for host [a] is not sent to host [b]: the
    download is refused with 401 where a call carrying the token would
    have stored the file. *)
Lemma downloadFile_redirect_drops_headers :
  ¬ redirect_keeps_headers Samples.redirecting 1 "https://a.example/tool.zip"
      "/out/tool.zip" Samples.bearer initial.
Proof.
  intros H.
  specialize (H (Samples.response 302 "Found"
                   [("location", IString "https://b.example/tool.zip")] "")
                302 "https://b.example/tool.zip"
                eq_refl eq_refl (or_intror eq_refl) eq_refl).
  assert (Hne : "https://b.example/tool.zip" ≠ "") by discriminate.
  specialize (H Hne).
  apply (f_equal (λ o, match o with
                       | Some (Resolved _, _) => 1%nat
                       | Some (Rejected _, _) => 2%nat
                       | None => 0%nat
                       end)) in H.
  vm_compute in H. discriminate H.
Qed.

(** ** Running the store operations *)

Lemma resolutions_trace (σ σ' : State) :
  trace σ' = trace σ → resolutions σ' = resolutions σ.
Proof. unfold resolutions. by intros ->. Qed.

Lemma resolutions_called (o : Octokit.t) (call : ApiCall) (σ : State) :
  resolutions (called o call σ)
  = (resolutions σ + if is_resolution (Api o call) then 1 else 0)%nat.
Proof.
  unfold resolutions, called. cbn -[is_resolution].
  rewrite List.filter_app, List.length_app. cbn -[is_resolution].
  by destruct (is_resolution _).
Qed.

Lemma fields_stored (this : nat) (f : Instance.t → Instance.t) (σ : State) :
  fields this (stored this f σ) = f (fields this σ).
Proof. unfold fields, stored. cbn. by rewrite lookup_insert_eq. Qed.

Lemma resolutions_stored (this : nat) (f : Instance.t → Instance.t) (σ : State) :
  resolutions (stored this f σ) = resolutions σ.
Proof. reflexivity. Qed.

Lemma resolutions_pooled (a : GitHubAsset.t) (σ : State) :
  resolutions (pooled a σ) = resolutions σ.
Proof. reflexivity. Qed.

Lemma fields_pooled (this : nat) (a : GitHubAsset.t) (σ : State) :
  fields this (pooled a σ) = fields this σ.
Proof. reflexivity. Qed.

Lemma fields_called (this : nat) (o : Octokit.t) (call : ApiCall) (σ : State) :
  fields this (called o call σ) = fields this σ.
Proof. reflexivity. Qed.

Lemma trace_stored (this : nat) (f : Instance.t → Instance.t) (σ : State) :
  trace (stored this f σ) = trace σ.
Proof. reflexivity. Qed.

Lemma trace_pooled (a : GitHubAsset.t) (σ : State) : trace (pooled a σ) = trace σ.
Proof. reflexivity. Qed.

Lemma trace_called (o : Octokit.t) (call : ApiCall) (σ : State) :
  trace (called o call σ) = (trace σ ++ [Api o call])%list.
Proof. reflexivity. Qed.

Lemma client_stored (a : GitHubAsset.t) (this : nat) (f : Instance.t → Instance.t) (σ : State) :
  client a (stored this f σ) = client a σ.
Proof. reflexivity. Qed.

Lemma client_called (a : GitHubAsset.t) (o : Octokit.t) (call : ApiCall) (σ : State) :
  client a (called o call σ) = client a σ.
Proof. reflexivity. Qed.

Create Rewrite HintDb store.
#[local] Hint Rewrite fields_stored resolutions_stored resolutions_pooled
  resolutions_called fields_pooled fields_called trace_stored trace_pooled
  trace_called client_stored client_called : store.

Lemma client_pooled (a : GitHubAsset.t) (σ : State) : client a (pooled a σ) = client a σ.
Proof. unfold client at 1, pooled. cbn. by rewrite lookup_insert_eq. Qed.

Lemma getOctokit_run (a : GitHubAsset.t) (σ : State) :
  GitHubAsset.getOctokit a σ = Some (Resolved (client a σ), pooled a σ).
Proof. reflexivity. Qed.

Lemma api_run {A : Type} (o : Octokit.t) (call : ApiCall) (answer : JsError + A) (σ : State) :
  api o call answer σ = Some (settled_of answer, called o call σ).
Proof. by destruct answer. Qed.

Lemma of_result_run {A : Type} (r : JsError + A) (σ : State) :
  of_result r σ = Some (settled_of r, σ).
Proof. by destruct r. Qed.

Lemma read_run {A : Type} (this : nat) (f : Instance.t → A) (σ : State) :
  read this f σ = Some (Resolved (f (fields this σ)), σ).
Proof. reflexivity. Qed.

Lemma write_run (this : nat) (f : Instance.t → Instance.t) (σ : State) :
  write this f σ = Some (Resolved (), stored this f σ).
Proof. reflexivity. Qed.

Lemma await_run {A : Type} (p : Settled A) (σ : State) : await p σ = Some (p, σ).
Proof. by destruct p. Qed.

Lemma bind_run {A B : Type} (m : M A) (k : A → M B) (σ : State) :
  (m ≫= k) σ
  = match m σ with
    | None => None
    | Some (Resolved x, σ') => k x σ'
    | Some (Rejected e, σ') => Some (Rejected e, σ')
    end.
Proof. reflexivity. Qed.

Lemma settle_run {A : Type} (m : M A) (σ : State) :
  settle m σ
  = match m σ with
    | None => None
    | Some (r, σ') => Some (Resolved r, σ')
    end.
Proof. reflexivity. Qed.

Arguments resolutions : simpl never.
Arguments fields : simpl never.
Arguments client : simpl never.
Arguments pooled : simpl never.
Arguments called : simpl never.
Arguments stored : simpl never.
Arguments GitHubAsset.getOctokit : simpl never.
Arguments api : simpl never.
Arguments of_result : simpl never.
Arguments read : simpl never.
Arguments write : simpl never.
Arguments settle : simpl never.
Arguments await : simpl never.

(** One step of a run: expose the next operation and perform it. *)
Ltac run_step :=
  first
    [ rewrite bind_run
    | rewrite getOctokit_run
    | rewrite api_run
    | rewrite of_result_run
    | rewrite read_run
    | rewrite write_run
    | rewrite settle_run
    | rewrite await_run
    | rewrite client_pooled
    | progress cbn ].
Ltac run := repeat run_step.

Lemma quiet_ret {A : Type} (x : A) : quiet (mret x : M A).
Proof. intros σ. by eexists. Qed.

Lemma quiet_throw {A : Type} (e : JsError) : quiet (throw e : M A).
Proof. intros σ. by eexists. Qed.

Lemma quiet_of_result {A : Type} (r : JsError + A) : quiet (of_result r).
Proof. intros σ. rewrite of_result_run. by eexists. Qed.

Lemma quiet_await {A : Type} (p : Settled A) : quiet (await p).
Proof. destruct p; [apply quiet_ret | apply quiet_throw]. Qed.

Lemma quiet_bind {A B : Type} (m : M A) (k : A → M B) :
  quiet m → (∀ x, quiet (k x)) → quiet (m ≫= k).
Proof.
  intros Hm Hk σ. rewrite bind_run. destruct (Hm σ) as [[x|e] ->].
  - apply Hk.
  - by eexists.
Qed.

(** A getter that awaits a promise and then computes without effects
    settles in the store the promise was handed out in. *)
Lemma then_quiet {A B : Type} (promise : M (Settled A)) (k : A → M B)
    (σ σ' : State) (p : Settled A) :
  (∀ x, quiet (k x)) →
  promise σ = Some (Resolved p, σ') →
  ∃ r, (p ← promise; x ← await p; k x) σ = Some (r, σ').
Proof.
  intros Hk Hp. rewrite bind_run, Hp.
  apply (quiet_bind (await p) k); [apply quiet_await | exact Hk].
Qed.

(** ** Memoised resolution *)

Section ReleaseFacts.
Context (W : World) (a : GitHubReleaseAsset.t).

Let this := GitHubAsset.this (GitHubReleaseAsset.base a).

(** The getter always hands out a promise and leaves it stored; it lists
    the releases at most once, and not at all when a promise is stored. *)
Lemma release_promise (σ : State) :
  ∃ p σ',
    GitHubReleaseAsset.release W a σ = Some (Resolved p, σ')
    ∧ Instance.releasePromise (fields this σ') = Some p
    ∧ (resolutions σ' ≤ resolutions σ + 1)%nat
    ∧ (Instance.releasePromise (fields this σ) ≠ None → σ' = σ).
Proof.
  unfold GitHubReleaseAsset.release. run. fold this.
  destruct (Instance.releasePromise (fields this σ)) as [q|] eqn:Hq.
  - exists q, σ. split; [done|]. split; [done|]. split; [lia | done].
  - run.
    match goal with |- context [settled_of ?r] => destruct r as [e|data] end; run.
    + eexists _, _. split; [reflexivity|].
      autorewrite with store. cbn. split; [done|]. split; [lia | done].
    + match goal with |- context [settled_of ?r] => destruct r as [e|found] end; run.
      all: eexists _, _; (split; [reflexivity|]).
      all: autorewrite with store; cbn; (split; [done|]); split; [lia | done].
Qed.

Lemma release_tail_quiet (g : Getter) :
  ∃ k : option GitHubRelease.t → M (option string),
    (∀ x, quiet (k x))
    ∧ query W g (Release a)
      = (p ← GitHubReleaseAsset.release W a; x ← await p; k x).
Proof.
  destruct g; eexists; (split; [|reflexivity]).
  - intros [r|]; [|apply quiet_ret].
    apply quiet_bind; [apply quiet_of_result | intros; apply quiet_ret].
  - intros x. apply quiet_ret.
Qed.

(** A query of either getter settles, leaves a promise stored and lists
    the releases at most once; with a promise stored it touches nothing. *)
Lemma release_query (g : Getter) (σ : State) :
  ∃ r σ',
    query W g (Release a) σ = Some (r, σ')
    ∧ Instance.releasePromise (fields this σ') ≠ None
    ∧ (resolutions σ' ≤ resolutions σ + 1)%nat
    ∧ (Instance.releasePromise (fields this σ) ≠ None → σ' = σ).
Proof.
  destruct (release_tail_quiet g) as (k & Hk & ->).
  destruct (release_promise σ) as (p & σ' & Hp & Hstored & Hcount & Hsame).
  destruct (then_quiet _ k σ σ' p Hk Hp) as [r Hr].
  exists r, σ'. rewrite Hr, Hstored. done.
Qed.

End ReleaseFacts.

Section WorkflowFacts.
Context (W : World) (a : GitHubWorkflowAsset.t).

Let this := GitHubAsset.this (GitHubWorkflowAsset.base a).

Lemma lastWorkflowRun_promise (σ : State) :
  ∃ p σ',
    GitHubWorkflowAsset.lastWorkflowRun W a σ = Some (Resolved p, σ')
    ∧ Instance.lastWorkflowRunPromise (fields this σ') = Some p
    ∧ (resolutions σ' ≤ resolutions σ + 1)%nat
    ∧ (Instance.lastWorkflowRunPromise (fields this σ) ≠ None → σ' = σ).
Proof.
  unfold GitHubWorkflowAsset.lastWorkflowRun. run. fold this.
  destruct (Instance.lastWorkflowRunPromise (fields this σ)) as [q|] eqn:Hq.
  - exists q, σ. split; [done|]. split; [done|]. split; [lia | done].
  - unfold GitHubWorkflowAsset.listWorkflowRuns. run.
    match goal with |- context [settled_of ?r] => destruct r as [e|data] end; run.
    all: eexists _, _; (split; [reflexivity|]).
    all: autorewrite with store; cbn; (split; [done|]); split; [lia | done].
Qed.

Lemma workflow_tail_quiet (g : Getter) :
  ∃ k : option WorkflowRun.t → M (option string),
    (∀ x, quiet (k x))
    ∧ query W g (Workflow a)
      = (p ← GitHubWorkflowAsset.lastWorkflowRun W a; x ← await p; k x).
Proof.
  destruct g; eexists; (split; [|reflexivity]).
  all: intros x; apply quiet_bind; [|intros; apply quiet_ret].
  all: destruct x; [apply quiet_ret | apply quiet_throw].
Qed.

Lemma workflow_query (g : Getter) (σ : State) :
  ∃ r σ',
    query W g (Workflow a) σ = Some (r, σ')
    ∧ Instance.lastWorkflowRunPromise (fields this σ') ≠ None
    ∧ (resolutions σ' ≤ resolutions σ + 1)%nat
    ∧ (Instance.lastWorkflowRunPromise (fields this σ) ≠ None → σ' = σ).
Proof.
  destruct (workflow_tail_quiet g) as (k & Hk & ->).
  destruct (lastWorkflowRun_promise σ) as (p & σ' & Hp & Hstored & Hcount & Hsame).
  destruct (then_quiet _ k σ σ' p Hk Hp) as [r Hr].
  exists r, σ'. rewrite Hr, Hstored. done.
Qed.

End WorkflowFacts.

Section RepoFacts.
Context (W : World) (a : GitHubRepoAsset.t).

Let this := GitHubAsset.this (GitHubRepoAsset.base a).

(** [resolveRef] settles and asks for the ref at most once; a SHA it
    resolves with is stored, and with a SHA stored it touches nothing. *)
Lemma resolveRef_outcome (ref : string) (σ : State) :
  ∃ r σ',
    GitHubAsset.resolveRef W (GitHubRepoAsset.base a) ref σ = Some (r, σ')
    ∧ (resolutions σ' ≤ resolutions σ + 1)%nat
    ∧ ((∃ sha, r = Resolved sha) → Instance.refs (fields this σ') !! ref ≠ None)
    ∧ (Instance.refs (fields this σ) !! ref ≠ None → σ' = σ).
Proof.
  unfold GitHubAsset.resolveRef. run. fold this.
  destruct (Instance.refs (fields this σ) !! ref) as [sha|] eqn:Hsha; run.
  - exists (Resolved sha), σ. split; [done|]. split; [lia|]. split; [|done].
    intros _. by rewrite Hsha.
  - match goal with |- context [settled_of ?r] => destruct r as [e|sha] end; run.
    + eexists _, _. split; [reflexivity|]. autorewrite with store; cbn.
      split; [lia|]. split; [|done]. by intros [? [=]].
    + eexists _, _. split; [reflexivity|]. autorewrite with store; cbn.
      split; [lia|]. split; [|done]. intros _. by rewrite lookup_insert_eq.
Qed.

Lemma repo_query (g : Getter) (σ : State) :
  ∃ r σ',
    query W g (Repo a) σ = Some (r, σ')
    ∧ (resolutions σ' ≤ resolutions σ + 1)%nat
    ∧ ((∃ v, r = Resolved v) → Instance.refs (fields this σ') !! GitHubRepoAsset.ref a ≠ None)
    ∧ (Instance.refs (fields this σ) !! GitHubRepoAsset.ref a ≠ None → σ' = σ).
Proof.
  destruct (resolveRef_outcome (GitHubRepoAsset.ref a) σ)
    as (r & σ' & Hr & Hcount & Hstored & Hsame).
  destruct g; cbn; unfold GitHubRepoAsset.version, GitHubRepoAsset.cacheId.
  all: rewrite bind_run, Hr; destruct r as [sha|e]; cbn.
  all: eexists _, σ'; (split; [reflexivity|]); split; [done|]; split; [|done].
  all: try (intros _; apply Hstored; by eexists).
  all: by intros [? [=]].
Qed.

End RepoFacts.

(** C2, as the code has it. Two sequential queries of [version] or
    [cacheId] on one GitHub-backed instance both settle; the first issues
    at most one resolution call, and the second leaves the store untouched,
    so it issues none, provided, for a repository snapshot, that the first
    query resolved: the release listing and the workflow-run lookup are
    kept as promises whatever their outcome, a ref is kept only once its
    SHA is known. *)
Theorem getters_memoized (W : World) (a : Asset) (g1 g2 : Getter) (σ : State) :
  github_backed a →
  ∃ r1 σ1 r2 σ2,
    query W g1 a σ = Some (r1, σ1)
    ∧ query W g2 a σ1 = Some (r2, σ2)
    ∧ (resolutions σ1 ≤ resolutions σ + 1)%nat
    ∧ ((∀ repo, a = Repo repo → ∃ v, r1 = Resolved v) →
       σ2 = σ1 ∧ (resolutions σ2 ≤ resolutions σ + 1)%nat).
Proof.
  destruct a as [| | |a|a|a]; try done; intros _.
  - destruct (release_query W a g1 σ) as (r1 & σ1 & H1 & Hstored & Hcount & _).
    destruct (release_query W a g2 σ1) as (r2 & σ2 & H2 & _ & _ & Hsame).
    exists r1, σ1, r2, σ2. rewrite (Hsame Hstored) in *. done.
  - destruct (repo_query W a g1 σ) as (r1 & σ1 & H1 & Hcount & Hstored & _).
    destruct (repo_query W a g2 σ1) as (r2 & σ2 & H2 & _ & _ & Hsame).
    exists r1, σ1, r2, σ2. split; [done|]. split; [done|]. split; [done|].
    intros Hresolved. rewrite (Hsame (Hstored (Hresolved a eq_refl))). done.
  - destruct (workflow_query W a g1 σ) as (r1 & σ1 & H1 & Hstored & Hcount & _).
    destruct (workflow_query W a g2 σ1) as (r2 & σ2 & H2 & _ & _ & Hsame).
    exists r1, σ1, r2, σ2. rewrite (Hsame Hstored) in *. done.
Qed.

Lemma getters_memoized_witness :
  ∃ r1 σ1 r2 σ2,
    query Samples.three_releases Version (Release (Samples.release_asset "1.5.0")) initial
      = Some (r1, σ1)
    ∧ query Samples.three_releases CacheId (Release (Samples.release_asset "1.5.0")) σ1
      = Some (r2, σ2)
    ∧ (resolutions σ1 ≤ resolutions initial + 1)%nat
    ∧ ((∀ repo, Release (Samples.release_asset "1.5.0") = Repo repo → ∃ v, r1 = Resolved v) →
       σ2 = σ1 ∧ (resolutions σ2 ≤ resolutions initial + 1)%nat).
Proof.
  apply (getters_memoized Samples.three_releases (Release (Samples.release_asset "1.5.0"))
           Version CacheId initial).
  exact I.
Defined.

(** A repository snapshot whose ref cannot be resolved asks GitHub for
    the ref again at the second query. *)
Lemma resolveRef_retried_after_failure :
  ¬ at_most_one_resolution Samples.offline (Repo Samples.repo_asset) initial.
Proof.
  intros H.
  destruct (query Samples.offline Version (Repo Samples.repo_asset) initial)
    as [[r1 σ1]|] eqn:H1; [|by vm_compute in H1].
  destruct (query Samples.offline Version (Repo Samples.repo_asset) σ1)
    as [[r2 σ2]|] eqn:H2.
  2:{ vm_compute in H1. injection H1 as <- <-. by vm_compute in H2. }
  specialize (H Version Version r1 σ1 r2 σ2 H1 H2).
  vm_compute in H1. injection H1 as <- <-.
  vm_compute in H2. injection H2 as <- <-.
  vm_compute in H. lia.
Qed.

(** ** Release assets *)

Arguments String_match : simpl never.
Arguments RegExp.new : simpl never.
Arguments listed : simpl never.

Section ReleaseResolution.
Context (W : World) (a : GitHubReleaseAsset.t).

Let base := GitHubReleaseAsset.base a.
Let this := GitHubAsset.this base.
Let owner := GitHubAsset.owner base.
Let repo := GitHubAsset.repo base.

(** A literal tag is read as the pattern [v?(<tag>)]. *)
Lemma tagRegex_literal (s : string) :
  GitHubReleaseAsset.tag a = inr s →
  GitHubReleaseAsset.tagRegex a = RegExp.new ("v?(" +:+ s +:+ ")").
Proof. unfold GitHubReleaseAsset.tagRegex. by intros ->. Qed.

(** The release found is the first of the listing whose tag matches. *)
Lemma find_release_first (re : RegExp.t) (data : list GitHubRelease.t) :
  GitHubReleaseAsset.tagRegex a = inr re →
  GitHubReleaseAsset.find_release a data = inr (List.find (tag_matches re) data).
Proof.
  intros Hre. induction data as [|r data IH]; [done|].
  cbn. rewrite Hre. unfold tag_matches at 1.
  destruct (String_match (GitHubRelease.tag_name r) re) as [m|] eqn:Hm.
  - rewrite bool_decide_eq_true_2; [done | by eexists].
  - rewrite bool_decide_eq_false_2; [exact IH | by intros [? [=]]].
Qed.

Lemma release_first_run (re : RegExp.t) (data : list GitHubRelease.t) (σ : State) :
  Instance.releasePromise (fields this σ) = None →
  releases W (client base σ) owner repo = inr data →
  GitHubReleaseAsset.tagRegex a = inr re →
  GitHubReleaseAsset.release W a σ
  = Some (Resolved (Resolved (List.find (tag_matches re) data)),
          listed a (Resolved (List.find (tag_matches re) data)) σ).
Proof.
  intros Hfresh Hdata Hre.
  unfold GitHubReleaseAsset.release. run. fold base this owner repo.
  rewrite Hfresh. run. fold base owner repo. rewrite Hdata. run.
  rewrite (find_release_first re data Hre). run. reflexivity.
Qed.

Lemma version_first_run (re : RegExp.t) (data : list GitHubRelease.t) (σ : State) :
  Instance.releasePromise (fields this σ) = None →
  releases W (client base σ) owner repo = inr data →
  GitHubReleaseAsset.tagRegex a = inr re →
  version W (Release a) σ
  = Some (Resolved (r ← List.find (tag_matches re) data;
                    m ← String_match (GitHubRelease.tag_name r) re;
                    RegExp.index m 1),
          listed a (Resolved (List.find (tag_matches re) data)) σ).
Proof.
  intros Hfresh Hdata Hre. cbn. unfold GitHubReleaseAsset.version.
  rewrite bind_run, (release_first_run re data σ Hfresh Hdata Hre).
  destruct (List.find (tag_matches re) data) as [r|]; run; [|done].
  rewrite Hre. run. reflexivity.
Qed.

Lemma cacheId_first_run (re : RegExp.t) (data : list GitHubRelease.t) (σ : State) :
  Instance.releasePromise (fields this σ) = None →
  releases W (client base σ) owner repo = inr data →
  GitHubReleaseAsset.tagRegex a = inr re →
  cacheId W (Release a) σ
  = Some (Resolved (Some (owner +:+ "/" +:+ repo +:+ "/"
                          +:+ string_or_undefined
                                (GitHubRelease.tag_name <$> List.find (tag_matches re) data))),
          listed a (Resolved (List.find (tag_matches re) data)) σ).
Proof.
  intros Hfresh Hdata Hre. cbn. unfold GitHubReleaseAsset.cacheId.
  rewrite bind_run, (release_first_run re data σ Hfresh Hdata Hre).
  run. reflexivity.
Qed.

(** [copyTo] when the pattern matched no release. *)
Lemma copyTo_release_not_found (re : RegExp.t) (data : list GitHubRelease.t)
    (fuel : nat) (dest : option string) (σ : State) :
  Instance.releasePromise (fields this σ) = None →
  releases W (client base σ) owner repo = inr data →
  GitHubReleaseAsset.tagRegex a = inr re →
  List.find (tag_matches re) data = None →
  copyTo W fuel (Release a) dest σ
  = Some (Rejected (Error ("Could not find release for tag pattern " +:+ RegExp.source re)),
          listed a (Resolved None) (pooled base σ)).
Proof.
  intros Hfresh Hdata Hre Hnone. cbn.
  unfold GitHubReleaseAsset.copyTo, GitHubReleaseAsset.findReleaseAsset.
  run. fold base.
  rewrite (release_first_run re data (pooled base σ)); [| done | by rewrite client_pooled | done].
  rewrite Hnone. run. rewrite Hre. run. reflexivity.
Qed.

(** [copyTo] when the matched release lacks the asset. *)
Lemma copyTo_asset_not_found (re : RegExp.t) (data : list GitHubRelease.t)
    (r : GitHubRelease.t) (assets : list ReleaseAsset.t)
    (fuel : nat) (dest : option string) (σ : State) :
  Instance.releasePromise (fields this σ) = None →
  releases W (client base σ) owner repo = inr data →
  GitHubReleaseAsset.tagRegex a = inr re →
  List.find (tag_matches re) data = Some r →
  release_assets W (client base σ) owner repo (GitHubRelease.id r) = inr assets →
  List.find (λ x, String.eqb (ReleaseAsset.name x) (GitHubReleaseAsset.assetName a)) assets = None →
  copyTo W fuel (Release a) dest σ
  = Some (Rejected (Error ("Could not find release asset " +:+ GitHubReleaseAsset.assetName a
                           +:+ " for release '" +:+ GitHubRelease.tag_name r +:+ "'")),
          called (client base σ) (ListReleaseAssets owner repo (GitHubRelease.id r))
            (listed a (Resolved (Some r)) (pooled base σ))).
Proof.
  intros Hfresh Hdata Hre Hfound Hassets Hnone. cbn.
  unfold GitHubReleaseAsset.copyTo, GitHubReleaseAsset.findReleaseAsset.
  run. fold base.
  rewrite (release_first_run re data (pooled base σ)); [| done | by rewrite client_pooled | done].
  rewrite Hfound. run. fold base owner repo. rewrite Hassets. run.
  rewrite Hnone. run. reflexivity.
Qed.

(** With a promise kept, the getters and [copyTo] read it. *)
Lemma release_kept (p : Settled (option GitHubRelease.t)) (σ : State) :
  Instance.releasePromise (fields this σ) = Some p →
  GitHubReleaseAsset.release W a σ = Some (Resolved p, σ).
Proof.
  intros Hkept. unfold GitHubReleaseAsset.release. run. fold base this.
  rewrite Hkept. reflexivity.
Qed.

Lemma releasePromise_listed (p : Settled (option GitHubRelease.t)) (σ : State) :
  Instance.releasePromise (fields this (listed a p σ)) = Some p.
Proof. unfold listed. fold base this. rewrite fields_stored. reflexivity. Qed.

Lemma version_kept (re : RegExp.t) (found : option GitHubRelease.t) (σ : State) :
  Instance.releasePromise (fields this σ) = Some (Resolved found) →
  GitHubReleaseAsset.tagRegex a = inr re →
  version W (Release a) σ
  = Some (Resolved (r ← found;
                    m ← String_match (GitHubRelease.tag_name r) re;
                    RegExp.index m 1), σ).
Proof.
  intros Hkept Hre. cbn. unfold GitHubReleaseAsset.version.
  rewrite bind_run, (release_kept _ σ Hkept).
  destruct found as [r|]; run; [|done]. rewrite Hre. run. reflexivity.
Qed.

Lemma cacheId_kept (found : option GitHubRelease.t) (σ : State) :
  Instance.releasePromise (fields this σ) = Some (Resolved found) →
  cacheId W (Release a) σ
  = Some (Resolved (Some (owner +:+ "/" +:+ repo +:+ "/"
                          +:+ string_or_undefined (GitHubRelease.tag_name <$> found))), σ).
Proof.
  intros Hkept. cbn. unfold GitHubReleaseAsset.cacheId.
  rewrite bind_run, (release_kept _ σ Hkept). run. reflexivity.
Qed.

Lemma copyTo_release_not_found_kept (re : RegExp.t) (fuel : nat) (dest : option string)
    (σ : State) :
  Instance.releasePromise (fields this σ) = Some (Resolved None) →
  GitHubReleaseAsset.tagRegex a = inr re →
  copyTo W fuel (Release a) dest σ
  = Some (Rejected (Error ("Could not find release for tag pattern " +:+ RegExp.source re)),
          pooled base σ).
Proof.
  intros Hkept Hre. cbn.
  unfold GitHubReleaseAsset.copyTo, GitHubReleaseAsset.findReleaseAsset.
  run. fold base. rewrite (release_kept (Resolved None) (pooled base σ)) by exact Hkept.
  run. rewrite Hre. run. reflexivity.
Qed.

Lemma copyTo_asset_not_found_kept (r : GitHubRelease.t) (assets : list ReleaseAsset.t)
    (fuel : nat) (dest : option string) (σ : State) :
  Instance.releasePromise (fields this σ) = Some (Resolved (Some r)) →
  release_assets W (client base σ) owner repo (GitHubRelease.id r) = inr assets →
  List.find (λ x, String.eqb (ReleaseAsset.name x) (GitHubReleaseAsset.assetName a)) assets = None →
  copyTo W fuel (Release a) dest σ
  = Some (Rejected (Error ("Could not find release asset " +:+ GitHubReleaseAsset.assetName a
                           +:+ " for release '" +:+ GitHubRelease.tag_name r +:+ "'")),
          called (client base σ) (ListReleaseAssets owner repo (GitHubRelease.id r))
            (pooled base σ)).
Proof.
  intros Hkept Hassets Hnone. cbn.
  unfold GitHubReleaseAsset.copyTo, GitHubReleaseAsset.findReleaseAsset.
  run. fold base.
  rewrite (release_kept (Resolved (Some r)) (pooled base σ)) by exact Hkept.
  run. fold base owner repo. rewrite Hassets. run. rewrite Hnone. run. reflexivity.
Qed.

(** Either getter, queried first, leaves the releases listed. *)
Lemma after_query_release (re : RegExp.t) (data : list GitHubRelease.t) (σ σ0 : State) :
  Instance.releasePromise (fields this σ) = None →
  releases W (client base σ) owner repo = inr data →
  GitHubReleaseAsset.tagRegex a = inr re →
  after_query W (Release a) σ σ0 →
  σ0 = σ ∨ σ0 = listed a (Resolved (List.find (tag_matches re) data)) σ.
Proof.
  intros Hfresh Hdata Hre [-> | (g & r & Hq)]; [by left | right].
  destruct g; cbn [query] in Hq.
  - rewrite (version_first_run re data σ Hfresh Hdata Hre) in Hq. by injection Hq.
  - rewrite (cacheId_first_run re data σ Hfresh Hdata Hre) in Hq. by injection Hq.
Qed.

Lemma client_listed (p : Settled (option GitHubRelease.t)) (σ : State) :
  client base (listed a p σ) = client base σ.
Proof. unfold listed. fold base. autorewrite with store. apply client_pooled. Qed.

End ReleaseResolution.

Lemma find_unmatched (re : RegExp.t) (data : list GitHubRelease.t) :
  Forall (λ r, String_match (GitHubRelease.tag_name r) re = None) data →
  List.find (tag_matches re) data = None.
Proof.
  induction 1 as [|r data Hr _ IH]; [done|].
  cbn. unfold tag_matches at 1. rewrite Hr.
  rewrite bool_decide_eq_false_2; [exact IH | by intros [? [=]]].
Qed.

Lemma find_absent (name : string) (assets : list ReleaseAsset.t) :
  Forall (λ x, ReleaseAsset.name x ≠ name) assets →
  List.find (λ x, String.eqb (ReleaseAsset.name x) name) assets = None.
Proof.
  induction 1 as [|x assets Hx _ IH]; [done|].
  cbn. destruct (String.eqb_spec (ReleaseAsset.name x) name); [done | exact IH].
Qed.

(** C3. With the literal tag 1.5.0 and a listing whose tags are v2.0.0,
    v1.5.0, v1.0.0 in that order, the tag is read as the pattern v?(1.5.0),
    the release picked is the first whose tag matches, the one tagged
    v1.5.0; [version] resolves to the first capture group, 1.5.0, and
    [cacheId], queried first or after [version], to owner/repo/v1.5.0,
    which contains v1.5.0. *)
Theorem release_literal_tag_resolution (W : World) (a : GitHubReleaseAsset.t)
    (data : list GitHubRelease.t) (σ : State) :
  let base := GitHubReleaseAsset.base a in
  GitHubReleaseAsset.tag a = inr "1.5.0" →
  releases W (client base σ) (GitHubAsset.owner base) (GitHubAsset.repo base) = inr data →
  map GitHubRelease.tag_name data = ["v2.0.0"; "v1.5.0"; "v1.0.0"] →
  Instance.releasePromise (fields (GitHubAsset.this base) σ) = None →
  ∃ re r σ',
    GitHubReleaseAsset.tagRegex a = RegExp.new "v?(1.5.0)"
    ∧ RegExp.new "v?(1.5.0)" = inr re
    ∧ List.find (tag_matches re) data = Some r
    ∧ GitHubRelease.tag_name r = "v1.5.0"
    ∧ (m ← String_match "v1.5.0" re; RegExp.index m 1) = Some "1.5.0"
    ∧ version W (Release a) σ = Some (Resolved (Some "1.5.0"), σ')
    ∧ cacheId W (Release a) σ
      = Some (Resolved (Some (GitHubAsset.owner base +:+ "/" +:+ GitHubAsset.repo base
                              +:+ "/" +:+ "v1.5.0")), σ')
    ∧ cacheId W (Release a) σ'
      = Some (Resolved (Some (GitHubAsset.owner base +:+ "/" +:+ GitHubAsset.repo base
                              +:+ "/" +:+ "v1.5.0")), σ')
    ∧ includes "v1.5.0"
        (GitHubAsset.owner base +:+ "/" +:+ GitHubAsset.repo base +:+ "/" +:+ "v1.5.0").
Proof.
  intros base Htag Hdata Htags Hfresh.
  destruct data as [|r1 [|r2 [|r3 [|]]]]; try discriminate Htags.
  injection Htags as H1 H2 H3.
  pose proof (tagRegex_literal a "1.5.0" Htag) as Hre.
  destruct (RegExp.new "v?(1.5.0)") as [e|re] eqn:Hnew;
    [vm_compute in Hnew; discriminate Hnew|].
  change (RegExp.new ("v?(" +:+ "1.5.0" +:+ ")")) with (RegExp.new "v?(1.5.0)") in Hre.
  rewrite Hnew in Hre.
  vm_compute in Hnew. injection Hnew as <-.
  match type of Hre with _ = inr ?x => set (re := x) in * end.
  assert (Hfind : List.find (tag_matches re) [r1; r2; r3] = Some r2).
  { cbn. unfold tag_matches. rewrite H1, H2.
    replace (String_match "v2.0.0" re) with (@None RegExp.MatchArray)
      by (vm_compute; reflexivity).
    rewrite bool_decide_eq_false_2 by (by intros [? [=]]).
    rewrite bool_decide_eq_true_2; [done|]. vm_compute. by eexists. }
  assert (Hgroup : (m ← String_match "v1.5.0" re; RegExp.index m 1) = Some "1.5.0").
  { vm_compute. reflexivity. }
  exists re, r2, (listed a (Resolved (Some r2)) σ).
  split; [done|]. split; [done|]. split; [exact Hfind|]. split; [exact H2|].
  split; [exact Hgroup|]. split; [|split; [|split]].
  - rewrite (version_first_run W a re [r1; r2; r3] σ Hfresh Hdata Hre), Hfind.
    cbn [mbind option_bind]. rewrite H2, Hgroup. reflexivity.
  - rewrite (cacheId_first_run W a re [r1; r2; r3] σ Hfresh Hdata Hre), Hfind.
    cbn. rewrite H2. reflexivity.
  - rewrite (cacheId_kept W a (Some r2) _ (releasePromise_listed a _ σ)).
    cbn. rewrite H2. reflexivity.
  - do 4 apply includes_skip. apply includes_self.
Qed.

Lemma release_literal_tag_resolution_witness :
  ∃ re r σ',
    GitHubReleaseAsset.tagRegex (Samples.release_asset "1.5.0") = RegExp.new "v?(1.5.0)"
    ∧ RegExp.new "v?(1.5.0)" = inr re
    ∧ List.find (tag_matches re)
        [Samples.release 3 "v2.0.0"; Samples.release 2 "v1.5.0"; Samples.release 1 "v1.0.0"]
      = Some r
    ∧ GitHubRelease.tag_name r = "v1.5.0"
    ∧ (m ← String_match "v1.5.0" re; RegExp.index m 1) = Some "1.5.0"
    ∧ version Samples.three_releases (Release (Samples.release_asset "1.5.0")) initial
      = Some (Resolved (Some "1.5.0"), σ')
    ∧ cacheId Samples.three_releases (Release (Samples.release_asset "1.5.0")) initial
      = Some (Resolved (Some ("org" +:+ "/" +:+ "tool" +:+ "/" +:+ "v1.5.0")), σ')
    ∧ cacheId Samples.three_releases (Release (Samples.release_asset "1.5.0")) σ'
      = Some (Resolved (Some ("org" +:+ "/" +:+ "tool" +:+ "/" +:+ "v1.5.0")), σ')
    ∧ includes "v1.5.0" ("org" +:+ "/" +:+ "tool" +:+ "/" +:+ "v1.5.0").
Proof.
  apply (release_literal_tag_resolution Samples.three_releases
           (Samples.release_asset "1.5.0")
           [Samples.release 3 "v2.0.0"; Samples.release 2 "v1.5.0"; Samples.release 1 "v1.0.0"]
           initial).
  - reflexivity.
  - reflexivity.
  - reflexivity.
  - reflexivity.
Defined.

(** C6. [copyTo] on a release asset rejects with an error naming the tag
    pattern when no tag of the listing matches it, and with an error
    naming the asset and the tag of the matched release when that release
    has no asset of the name asked for, whether it is called first or
    after a getter was queried. *)
Theorem release_copyTo_not_found (W : World) (a : GitHubReleaseAsset.t) (re : RegExp.t)
    (data : list GitHubRelease.t) (fuel : nat) (dest : option string) (σ σ0 : State) :
  let base := GitHubReleaseAsset.base a in
  Instance.releasePromise (fields (GitHubAsset.this base) σ) = None →
  releases W (client base σ) (GitHubAsset.owner base) (GitHubAsset.repo base) = inr data →
  GitHubReleaseAsset.tagRegex a = inr re →
  after_query W (Release a) σ σ0 →
  (Forall (λ r, String_match (GitHubRelease.tag_name r) re = None) data →
   ∃ msg σ',
     copyTo W fuel (Release a) dest σ0 = Some (Rejected (Error msg), σ')
     ∧ includes (RegExp.source re) msg)
  ∧ (∀ r assets,
       List.find (tag_matches re) data = Some r →
       release_assets W (client base σ) (GitHubAsset.owner base) (GitHubAsset.repo base)
         (GitHubRelease.id r) = inr assets →
       Forall (λ x, ReleaseAsset.name x ≠ GitHubReleaseAsset.assetName a) assets →
       ∃ msg σ',
         copyTo W fuel (Release a) dest σ0 = Some (Rejected (Error msg), σ')
         ∧ includes (GitHubReleaseAsset.assetName a) msg
         ∧ includes (GitHubRelease.tag_name r) msg).
Proof.
  intros base Hfresh Hdata Hre Hafter.
  apply (after_query_release W a re data σ σ0 Hfresh Hdata Hre) in Hafter.
  split.
  - intros Hnone%find_unmatched. rewrite Hnone in Hafter.
    assert (∃ σ', copyTo W fuel (Release a) dest σ0
                  = Some (Rejected (Error ("Could not find release for tag pattern "
                                           +:+ RegExp.source re)), σ'))
      as [σ' Hcopy].
    { destruct Hafter as [-> | ->]; eexists.
      - apply (copyTo_release_not_found W a re data fuel dest σ Hfresh Hdata Hre Hnone).
      - apply (copyTo_release_not_found_kept W a re);
          [apply releasePromise_listed | exact Hre]. }
    eexists _, σ'. split; [exact Hcopy|]. apply includes_skip, includes_self.
  - intros r assets Hfound Hassets Habsent%find_absent. rewrite Hfound in Hafter.
    assert (∃ σ', copyTo W fuel (Release a) dest σ0
                  = Some (Rejected (Error ("Could not find release asset "
                                           +:+ GitHubReleaseAsset.assetName a
                                           +:+ " for release '"
                                           +:+ GitHubRelease.tag_name r +:+ "'")), σ'))
      as [σ' Hcopy].
    { destruct Hafter as [-> | ->]; eexists.
      - apply (copyTo_asset_not_found W a re data r assets fuel dest σ
                 Hfresh Hdata Hre Hfound Hassets Habsent).
      - apply (copyTo_asset_not_found_kept W a r assets);
          [apply releasePromise_listed | by rewrite client_listed | exact Habsent]. }
    eexists _, σ'. split; [exact Hcopy|]. split.
    + apply includes_skip, includes_prefix.
    + do 3 apply includes_skip. apply includes_prefix.
Qed.

Lemma release_copyTo_not_found_witness :
  (∃ msg σ',
     copyTo Samples.three_releases 1 (Release (Samples.release_asset "3.5.0"))
       (Some "/out") initial = Some (Rejected (Error msg), σ')
     ∧ includes "v?(3.5.0)" msg)
  ∧ (∃ msg σ',
       copyTo Samples.three_releases 1 (Release (Samples.release_asset "1.5.0"))
         (Some "/out") initial = Some (Rejected (Error msg), σ')
       ∧ includes "tool.zip" msg
       ∧ includes "v1.5.0" msg).
Proof.
  split.
  - refine (proj1 (release_copyTo_not_found Samples.three_releases
                     (Samples.release_asset "3.5.0")
                     {| RegExp.source := "v?(3.5.0)";
                        RegExp.pattern := _ |}
                     [Samples.release 3 "v2.0.0"; Samples.release 2 "v1.5.0";
                      Samples.release 1 "v1.0.0"]
                     1 (Some "/out") initial initial eq_refl eq_refl eq_refl
                     (or_introl eq_refl)) _).
    repeat constructor.
  - refine (proj2 (release_copyTo_not_found Samples.three_releases
                     (Samples.release_asset "1.5.0")
                     {| RegExp.source := "v?(1.5.0)";
                        RegExp.pattern := _ |}
                     [Samples.release 3 "v2.0.0"; Samples.release 2 "v1.5.0";
                      Samples.release 1 "v1.0.0"]
                     1 (Some "/out") initial initial eq_refl eq_refl eq_refl
                     (or_introl eq_refl))
                  (Samples.release 2 "v1.5.0") [] _ _ _).
    + reflexivity.
    + reflexivity.
    + constructor.
Defined.

(** C9. When the tag pattern matches no release of the listing, [version]
    resolves to undefined and [cacheId] to owner/repo/undefined; neither
    rejects, and [copyTo] rejects with the release-not-found error, each
    queried on its own or one after the other on the same instance. *)
Theorem release_unmatched_getters (W : World) (a : GitHubReleaseAsset.t) (re : RegExp.t)
    (data : list GitHubRelease.t) (fuel : nat) (dest : option string) (σ : State) :
  let base := GitHubReleaseAsset.base a in
  Instance.releasePromise (fields (GitHubAsset.this base) σ) = None →
  releases W (client base σ) (GitHubAsset.owner base) (GitHubAsset.repo base) = inr data →
  GitHubReleaseAsset.tagRegex a = inr re →
  Forall (λ r, String_match (GitHubRelease.tag_name r) re = None) data →
  (∃ σ', version W (Release a) σ = Some (Resolved None, σ'))
  ∧ (∃ σ', cacheId W (Release a) σ
           = Some (Resolved (Some (GitHubAsset.owner base +:+ "/" +:+ GitHubAsset.repo base
                                   +:+ "/" +:+ "undefined")), σ'))
  ∧ (∃ σ', copyTo W fuel (Release a) dest σ
           = Some (Rejected (Error ("Could not find release for tag pattern "
                                    +:+ RegExp.source re)), σ'))
  ∧ (∃ σ1 σ2,
       version W (Release a) σ = Some (Resolved None, σ1)
       ∧ cacheId W (Release a) σ1
         = Some (Resolved (Some (GitHubAsset.owner base +:+ "/" +:+ GitHubAsset.repo base
                                 +:+ "/" +:+ "undefined")), σ1)
       ∧ copyTo W fuel (Release a) dest σ1
         = Some (Rejected (Error ("Could not find release for tag pattern "
                                  +:+ RegExp.source re)), σ2)).
Proof.
  intros base Hfresh Hdata Hre Hnone%find_unmatched.
  pose proof (version_first_run W a re data σ Hfresh Hdata Hre) as Hversion.
  rewrite Hnone in Hversion.
  split; [by eexists|]. split; [|split].
  - eexists. rewrite (cacheId_first_run W a re data σ Hfresh Hdata Hre), Hnone. reflexivity.
  - eexists. apply (copyTo_release_not_found W a re data fuel dest σ Hfresh Hdata Hre Hnone).
  - eexists _, _. split; [exact Hversion|]. split.
    + apply (cacheId_kept W a None), releasePromise_listed.
    + apply (copyTo_release_not_found_kept W a re); [apply releasePromise_listed | exact Hre].
Qed.

Lemma release_unmatched_getters_witness :
  (∃ σ', version Samples.three_releases (Release (Samples.release_asset "3.5.0")) initial
         = Some (Resolved None, σ'))
  ∧ (∃ σ', cacheId Samples.three_releases (Release (Samples.release_asset "3.5.0")) initial
           = Some (Resolved (Some ("org" +:+ "/" +:+ "tool" +:+ "/" +:+ "undefined")), σ'))
  ∧ (∃ σ', copyTo Samples.three_releases 1 (Release (Samples.release_asset "3.5.0"))
             (Some "/out") initial
           = Some (Rejected (Error ("Could not find release for tag pattern "
                                    +:+ "v?(3.5.0)")), σ'))
  ∧ (∃ σ1 σ2,
       version Samples.three_releases (Release (Samples.release_asset "3.5.0")) initial
       = Some (Resolved None, σ1)
       ∧ cacheId Samples.three_releases (Release (Samples.release_asset "3.5.0")) σ1
         = Some (Resolved (Some ("org" +:+ "/" +:+ "tool" +:+ "/" +:+ "undefined")), σ1)
       ∧ copyTo Samples.three_releases 1 (Release (Samples.release_asset "3.5.0"))
           (Some "/out") σ1
         = Some (Rejected (Error ("Could not find release for tag pattern "
                                  +:+ "v?(3.5.0)")), σ2)).
Proof.
  refine (release_unmatched_getters Samples.three_releases (Samples.release_asset "3.5.0")
            {| RegExp.source := "v?(3.5.0)"; RegExp.pattern := _ |}
            [Samples.release 3 "v2.0.0"; Samples.release 2 "v1.5.0";
             Samples.release 1 "v1.0.0"]
            1 (Some "/out") initial eq_refl eq_refl eq_refl _).
  repeat constructor.
Defined.

(** ** Workflow artifacts *)

Arguments looked_up : simpl never.
Arguments successful_runs : simpl never.

Lemma head_page (f : WorkflowRun.t → bool) (runs : list WorkflowRun.t) :
  head (take 1 (List.filter f runs)) = List.find f runs.
Proof.
  induction runs as [|x runs IH]; [done|].
  cbn. destruct (f x); [done | exact IH].
Qed.

Lemma find_most_recent (f : WorkflowRun.t → bool) (newer older : list WorkflowRun.t)
    (r : WorkflowRun.t) :
  Forall (λ x, f x = false) newer →
  f r = true →
  List.find f (newer ++ r :: older) = Some r.
Proof.
  intros Hnewer Hr. induction Hnewer as [|x newer Hx _ IH]; cbn.
  - by rewrite Hr.
  - by rewrite Hx.
Qed.

Section WorkflowResolution.
Context (W : World) (a : GitHubWorkflowAsset.t).

Let base := GitHubWorkflowAsset.base a.
Let this := GitHubAsset.this base.
Let owner := GitHubAsset.owner base.
Let repo := GitHubAsset.repo base.

Lemma lastWorkflowRun_first_run (runs : list WorkflowRun.t) (σ : State) :
  Instance.lastWorkflowRunPromise (fields this σ) = None →
  workflow_runs W (client base σ) owner repo (GitHubWorkflowAsset.workflow a) = inr runs →
  GitHubWorkflowAsset.lastWorkflowRun W a σ
  = Some (Resolved (Resolved (List.find successful runs)),
          looked_up a (Resolved (List.find successful runs)) σ).
Proof.
  intros Hfresh Hruns.
  unfold GitHubWorkflowAsset.lastWorkflowRun, GitHubWorkflowAsset.listWorkflowRuns.
  run. fold base this owner repo.
  rewrite Hfresh. run. fold base owner repo. rewrite Hruns. run.
  unfold GitHubWorkflowAsset.page. cbn. rewrite head_page. reflexivity.
Qed.

Lemma lastWorkflowRun_kept (p : Settled (option WorkflowRun.t)) (σ : State) :
  Instance.lastWorkflowRunPromise (fields this σ) = Some p →
  GitHubWorkflowAsset.lastWorkflowRun W a σ = Some (Resolved p, σ).
Proof.
  intros Hkept. unfold GitHubWorkflowAsset.lastWorkflowRun. run. fold base this.
  rewrite Hkept. reflexivity.
Qed.

End WorkflowResolution.

(** *** Computations that settle and keep the trace *)

Lemma extends_refl (σ : State) : extends σ σ.
Proof. exists []. by rewrite app_nil_r. Qed.

Lemma extends_trans (σ1 σ2 σ3 : State) : extends σ1 σ2 → extends σ2 σ3 → extends σ1 σ3.
Proof. intros [l1 H1] [l2 H2]. exists (l1 ++ l2)%list. by rewrite H2, H1, app_assoc. Qed.

Lemma extends_trace (σ σ' : State) : trace σ' = trace σ → extends σ σ'.
Proof. intros H. exists []. by rewrite app_nil_r. Qed.

Lemma extends_elem (e : Event) (σ σ' : State) : extends σ σ' → e ∈ trace σ → e ∈ trace σ'.
Proof. intros [later ->] H. apply elem_of_app. by left. Qed.

Lemma steady_ret {A : Type} (x : A) : steady (mret x : M A).
Proof. intros σ. eexists _, σ. split; [reflexivity | apply extends_refl]. Qed.

Lemma steady_throw {A : Type} (e : JsError) : steady (throw e : M A).
Proof. intros σ. eexists _, σ. split; [reflexivity | apply extends_refl]. Qed.

Lemma steady_quiet {A : Type} (m : M A) : quiet m → steady m.
Proof. intros H σ. destruct (H σ) as [r Hr]. exists r, σ. split; [done | apply extends_refl]. Qed.

Lemma steady_bind {A B : Type} (m : M A) (k : A → M B) :
  steady m → (∀ x, steady (k x)) → steady (m ≫= k).
Proof.
  intros Hm Hk σ. rewrite bind_run.
  destruct (Hm σ) as ([x|e] & σ1 & -> & H1).
  - destruct (Hk x σ1) as (r & σ2 & -> & H2). exists r, σ2.
    split; [done | by eapply extends_trans].
  - by eexists _, σ1.
Qed.

Lemma steady_modify (f : State → State) :
  (∀ σ, extends σ (f σ)) → steady (modify f).
Proof. intros H σ. eexists _, (f σ). split; [reflexivity | apply H]. Qed.

Lemma steady_get : steady get.
Proof. intros σ. eexists _, σ. split; [reflexivity | apply extends_refl]. Qed.

Lemma steady_emit (e : Event) : steady (emit e).
Proof. apply steady_modify. intros σ. by exists [e]. Qed.

Lemma steady_api {A : Type} (o : Octokit.t) (call : ApiCall) (answer : JsError + A) :
  steady (api o call answer).
Proof. intros σ. rewrite api_run. eexists _, _. split; [reflexivity|]. by exists [Api o call]. Qed.

Lemma steady_getOctokit (a : GitHubAsset.t) : steady (GitHubAsset.getOctokit a).
Proof.
  intros σ. rewrite getOctokit_run. eexists _, _. split; [reflexivity|].
  by apply extends_trace.
Qed.

Lemma steady_write (this : nat) (f : Instance.t → Instance.t) : steady (write this f).
Proof.
  intros σ. rewrite write_run. eexists _, _. split; [reflexivity|]. by apply extends_trace.
Qed.

Lemma steady_mkdir (W : World) (p : string) : steady (fs.mkdir W p).
Proof.
  unfold fs.mkdir. destruct (write_error W p); [apply steady_throw|].
  apply steady_modify. intros σ. by apply extends_trace.
Qed.

Lemma steady_writeFile (W : World) (p content : string) : steady (fs.writeFile W p content).
Proof.
  unfold fs.writeFile. destruct (write_error W p); [apply steady_throw|].
  apply steady_modify. intros σ. by apply extends_trace.
Qed.

Lemma steady_readFile (W : World) (p : string) : steady (fs.readFile W p).
Proof.
  unfold fs.readFile. apply steady_bind; [apply steady_get|]. intros σ.
  destruct (files σ !! p); [apply steady_ret | apply steady_throw].
Qed.

Lemma steady_mkTempDir (W : World) (this : nat) : steady (AbstractAsset.mkTempDir W this).
Proof.
  unfold AbstractAsset.mkTempDir, AbstractAsset.addDisposable.
  apply steady_bind; [apply steady_get | intros σ].
  apply steady_bind; [apply steady_modify; intros; by apply extends_trace | intros _].
  apply steady_bind; [apply steady_mkdir | intros _].
  apply steady_bind; [apply steady_write | intros _]. apply steady_ret.
Qed.

Lemma steady_mkDest (W : World) (this : nat) (dest : option string) :
  steady (AbstractAsset.mkDest W this dest).
Proof.
  destruct dest as [d|]; cbn; [|apply steady_mkTempDir].
  apply steady_bind; [apply steady_mkdir | intros _; apply steady_ret].
Qed.

Lemma steady_write_entries (W : World) (dest : string) (strip : nat)
    (entries : list (string * string)) :
  steady (AbstractAsset.write_entries W dest strip entries).
Proof.
  induction entries as [|[name content] entries IH]; cbn; [apply steady_ret|].
  apply steady_bind; [|intros _; exact IH].
  destruct (AbstractAsset.strip_segments strip name);
    [apply steady_writeFile | apply steady_ret].
Qed.

Lemma steady_extractArchive (W : World) (this : nat) (archivePath : string)
    (dest : option string) (strip : nat) :
  steady (AbstractAsset.extractArchive W this archivePath dest strip).
Proof.
  unfold AbstractAsset.extractArchive.
  apply steady_bind; [apply steady_mkDest | intros d].
  apply steady_bind; [apply steady_readFile | intros bytes].
  destruct (archive_entries W bytes); [|apply steady_throw].
  apply steady_bind; [apply steady_write_entries | intros _; apply steady_ret].
Qed.

Lemma steady_downloadArtifact (W : World) (a : GitHubWorkflowAsset.t) (id : Z) (p : string) :
  steady (GitHubWorkflowAsset.downloadArtifact W a id p).
Proof.
  unfold GitHubWorkflowAsset.downloadArtifact, AbstractAsset.assureFile.
  apply steady_bind; [|intros present].
  { apply steady_bind; [apply steady_get | intros; apply steady_ret]. }
  apply steady_bind; [|intros _; apply steady_ret].
  destruct present; [apply steady_ret|].
  apply steady_bind; [apply steady_getOctokit | intros o].
  apply steady_bind; [apply steady_api | intros data].
  apply steady_bind; [apply steady_mkdir | intros _]. apply steady_writeFile.
Qed.

Arguments scratch : simpl never.

Lemma mkTempDir_run (W : World) (this : nat) (σ : State) :
  write_error W (temp_name W (temp_count σ)) = None →
  AbstractAsset.mkTempDir W this σ
  = Some (Resolved (temp_name W (temp_count σ)), scratch W this σ).
Proof.
  intros Hok. unfold AbstractAsset.mkTempDir, AbstractAsset.addDisposable, fs.mkdir.
  rewrite bind_run. cbn. rewrite Hok. run. reflexivity.
Qed.

Lemma client_scratch (W : World) (a : GitHubAsset.t) (this : nat) (σ : State) :
  client a (scratch W this σ) = client a σ.
Proof. reflexivity. Qed.

Lemma trace_scratch (W : World) (this : nat) (σ : State) :
  trace (scratch W this σ) = trace σ.
Proof. reflexivity. Qed.

Lemma lastWorkflowRunPromise_scratch (W : World) (this : nat) (σ : State) :
  Instance.lastWorkflowRunPromise (fields this (scratch W this σ))
  = Instance.lastWorkflowRunPromise (fields this σ).
Proof. unfold scratch. rewrite fields_stored. reflexivity. Qed.

Section WorkflowRuns.
Context (W : World) (a : GitHubWorkflowAsset.t).

Let base := GitHubWorkflowAsset.base a.
Let this := GitHubAsset.this base.
Let owner := GitHubAsset.owner base.
Let repo := GitHubAsset.repo base.

(** Both getters read the run the promise resolved with. *)
Lemma workflow_getters_first_run (runs : list WorkflowRun.t) (σ : State) :
  Instance.lastWorkflowRunPromise (fields this σ) = None →
  workflow_runs W (client base σ) owner repo (GitHubWorkflowAsset.workflow a) = inr runs →
  let σ' := looked_up a (Resolved (List.find successful runs)) σ in
  match List.find successful runs with
  | Some r =>
      version W (Workflow a) σ
      = Some (Resolved (Some (GitHubWorkflowAsset.workflow a +:+ "@"
                              +:+ number_toString (WorkflowRun.id r))), σ')
      ∧ cacheId W (Workflow a) σ
        = Some (Resolved (Some (owner +:+ "/" +:+ repo +:+ "/"
                                +:+ GitHubWorkflowAsset.workflow a +:+ "/"
                                +:+ number_toString (WorkflowRun.id r))), σ')
  | None =>
      version W (Workflow a) σ = Some (Rejected (read_of_undefined "id"), σ')
      ∧ cacheId W (Workflow a) σ = Some (Rejected (read_of_undefined "id"), σ')
  end.
Proof.
  intros Hfresh Hruns. cbn.
  unfold GitHubWorkflowAsset.version, GitHubWorkflowAsset.cacheId.
  rewrite !bind_run, (lastWorkflowRun_first_run W a runs σ Hfresh Hruns).
  destruct (List.find successful runs) as [r|]; run; done.
Qed.

Lemma lastWorkflowRunPromise_looked_up (p : Settled (option WorkflowRun.t)) (σ : State) :
  Instance.lastWorkflowRunPromise (fields this (looked_up a p σ)) = Some p.
Proof. unfold looked_up. fold base this. rewrite fields_stored. reflexivity. Qed.

(** With the promise kept, both getters read it. *)
Lemma workflow_getters_kept (r : WorkflowRun.t) (σ : State) :
  Instance.lastWorkflowRunPromise (fields this σ) = Some (Resolved (Some r)) →
  version W (Workflow a) σ
  = Some (Resolved (Some (GitHubWorkflowAsset.workflow a +:+ "@"
                          +:+ number_toString (WorkflowRun.id r))), σ)
  ∧ cacheId W (Workflow a) σ
    = Some (Resolved (Some (owner +:+ "/" +:+ repo +:+ "/"
                            +:+ GitHubWorkflowAsset.workflow a +:+ "/"
                            +:+ number_toString (WorkflowRun.id r))), σ).
Proof.
  intros Hkept. cbn.
  unfold GitHubWorkflowAsset.version, GitHubWorkflowAsset.cacheId.
  rewrite !bind_run, (lastWorkflowRun_kept W a _ σ Hkept). run. done.
Qed.

(** [copyTo], once its scratch directory exists, lists the artifacts of
    the run the promise resolves with. *)
Lemma workflow_copyTo_run (r : WorkflowRun.t) (fuel : nat) (dest : option string)
    (σ σ2 : State) :
  write_error W (temp_name W (temp_count σ)) = None →
  GitHubWorkflowAsset.lastWorkflowRun W a (scratch W this (pooled base σ))
  = Some (Resolved (Resolved (Some r)), σ2) →
  ∃ out σ',
    copyTo W fuel (Workflow a) dest σ = Some (out, σ')
    ∧ Api (client base σ) (ListWorkflowRunArtifacts owner repo (WorkflowRun.id r))
        ∈ trace σ'.
Proof.
  intros Htemp Hrun. cbn. unfold GitHubWorkflowAsset.copyTo.
  rewrite bind_run, getOctokit_run. fold base this.
  rewrite bind_run, (mkTempDir_run W this (pooled base σ) Htemp).
  rewrite bind_run, Hrun. run. fold base owner repo.
  set (σ1 := called _ _ _).
  assert (Hcalled : Api (client base σ)
                      (ListWorkflowRunArtifacts owner repo (WorkflowRun.id r)) ∈ trace σ1).
  { unfold σ1. rewrite trace_called. apply elem_of_app. right. by apply list_elem_of_singleton. }
  destruct (settled_of _) as [artifacts|e]; [|by eexists _, σ1].
  match goal with |- context [(?m ≫= ?k) σ1] => assert (Hsteady : steady (m ≫= k)) end.
  { apply steady_bind; [apply steady_quiet, quiet_of_result | intros [artifact|]].
    2:{ apply steady_throw. }
    apply steady_bind; [apply steady_ret | intros run_number].
    apply steady_bind; [apply steady_emit | intros _].
    apply steady_bind; [apply steady_downloadArtifact | intros _].
    apply steady_extractArchive. }
  destruct (Hsteady σ1) as (out & σ' & Hout & Hext).
  exists out, σ'. split; [exact Hout|]. by eapply extends_elem.
Qed.

(** Without a successful run [copyTo] fails on reading the id. *)
Lemma workflow_copyTo_no_run (fuel : nat) (dest : option string) (σ σ2 : State) :
  write_error W (temp_name W (temp_count σ)) = None →
  GitHubWorkflowAsset.lastWorkflowRun W a (scratch W this (pooled base σ))
  = Some (Resolved (Resolved None), σ2) →
  copyTo W fuel (Workflow a) dest σ = Some (Rejected (read_of_undefined "id"), σ2).
Proof.
  intros Htemp Hrun. cbn. unfold GitHubWorkflowAsset.copyTo.
  rewrite bind_run, getOctokit_run. fold base this.
  rewrite bind_run, (mkTempDir_run W this (pooled base σ) Htemp).
  rewrite bind_run, Hrun. run. reflexivity.
Qed.

Lemma lastWorkflowRun_in_copyTo (runs : list WorkflowRun.t) (σ : State) :
  Instance.lastWorkflowRunPromise (fields this σ) = None →
  workflow_runs W (client base σ) owner repo (GitHubWorkflowAsset.workflow a) = inr runs →
  GitHubWorkflowAsset.lastWorkflowRun W a (scratch W this (pooled base σ))
  = Some (Resolved (Resolved (List.find successful runs)),
          looked_up a (Resolved (List.find successful runs)) (scratch W this (pooled base σ))).
Proof.
  intros Hfresh Hruns. apply lastWorkflowRun_first_run.
  - fold this. by rewrite lastWorkflowRunPromise_scratch.
  - fold base. by rewrite client_scratch, client_pooled.
Qed.

Lemma lastWorkflowRun_in_copyTo_kept (p : Settled (option WorkflowRun.t)) (σ : State) :
  Instance.lastWorkflowRunPromise (fields this σ) = Some p →
  GitHubWorkflowAsset.lastWorkflowRun W a (scratch W this (pooled base σ))
  = Some (Resolved p, scratch W this (pooled base σ)).
Proof.
  intros Hkept. apply lastWorkflowRun_kept.
  fold this. by rewrite lastWorkflowRunPromise_scratch.
Qed.

End WorkflowRuns.

(** C4. The run a workflow asset uses is the most recent run that GitHub
    counts as successful, whatever newer runs failed: [version] is the
    workflow file name and that run's id, [cacheId] adds owner and
    repository, and [copyTo] lists the artifacts of that run, each queried
    on its own or one after the other on the same instance. *)
Theorem workflow_uses_latest_successful_run (W : World) (a : GitHubWorkflowAsset.t)
    (newer older : list WorkflowRun.t) (r : WorkflowRun.t)
    (fuel : nat) (dest : option string) (σ : State) :
  let base := GitHubWorkflowAsset.base a in
  let owner := GitHubAsset.owner base in
  let repo := GitHubAsset.repo base in
  let workflow := GitHubWorkflowAsset.workflow a in
  let v := workflow +:+ "@" +:+ number_toString (WorkflowRun.id r) in
  let c := owner +:+ "/" +:+ repo +:+ "/" +:+ workflow +:+ "/"
           +:+ number_toString (WorkflowRun.id r) in
  let listing := Api (client base σ) (ListWorkflowRunArtifacts owner repo (WorkflowRun.id r)) in
  Instance.lastWorkflowRunPromise (fields (GitHubAsset.this base) σ) = None →
  workflow_runs W (client base σ) owner repo workflow = inr (newer ++ r :: older)%list →
  Forall (λ x, successful x = false) newer →
  successful r = true →
  write_error W (temp_name W (temp_count σ)) = None →
  (∃ σ', version W (Workflow a) σ = Some (Resolved (Some v), σ'))
  ∧ (∃ σ', cacheId W (Workflow a) σ = Some (Resolved (Some c), σ'))
  ∧ (∃ out σ', copyTo W fuel (Workflow a) dest σ = Some (out, σ') ∧ listing ∈ trace σ')
  ∧ (∃ σ1 out σ2,
       version W (Workflow a) σ = Some (Resolved (Some v), σ1)
       ∧ cacheId W (Workflow a) σ1 = Some (Resolved (Some c), σ1)
       ∧ copyTo W fuel (Workflow a) dest σ1 = Some (out, σ2)
       ∧ listing ∈ trace σ2).
Proof.
  intros base owner repo workflow v c listing Hfresh Hruns Hnewer Hr Htemp.
  pose proof (find_most_recent successful newer older r Hnewer Hr) as Hfind.
  pose proof (workflow_getters_first_run W a _ σ Hfresh Hruns) as Hget.
  pose proof (lastWorkflowRun_in_copyTo W a _ σ Hfresh Hruns) as Hrun.
  cbn zeta in Hget. rewrite Hfind in Hget, Hrun. destruct Hget as [Hv Hc].
  split; [by eexists|]. split; [by eexists|]. split.
  - apply (workflow_copyTo_run W a r fuel dest σ _ Htemp Hrun).
  - set (σ1 := looked_up a (Resolved (Some r)) σ) in *.
    pose proof (lastWorkflowRunPromise_looked_up a (Resolved (Some r)) σ) as Hkept.
    destruct (workflow_getters_kept W a r σ1 Hkept) as [_ Hc1].
    destruct (workflow_copyTo_run W a r fuel dest σ1 _ Htemp
                (lastWorkflowRun_in_copyTo_kept W a _ σ1 Hkept))
      as (out & σ2 & Hout & Hin).
    exists σ1, out, σ2. split; [exact Hv|]. split; [exact Hc1|]. split; [exact Hout|].
    unfold listing. by rewrite <- (client_pooled base σ).
Qed.

Lemma workflow_uses_latest_successful_run_witness :
  let v := "build.yml" +:+ "@" +:+ number_toString 104 in
  let c := "org" +:+ "/" +:+ "tool" +:+ "/" +:+ "build.yml" +:+ "/" +:+ number_toString 104 in
  let listing :=
    Api (client Samples.github initial) (ListWorkflowRunArtifacts "org" "tool" 104) in
  let W := Samples.mixed_runs in
  let a := Workflow Samples.workflow_asset in
  (∃ σ', version W a initial = Some (Resolved (Some v), σ'))
  ∧ (∃ σ', cacheId W a initial = Some (Resolved (Some c), σ'))
  ∧ (∃ out σ', copyTo W 1 a (Some "/out") initial = Some (out, σ') ∧ listing ∈ trace σ')
  ∧ (∃ σ1 out σ2,
       version W a initial = Some (Resolved (Some v), σ1)
       ∧ cacheId W a σ1 = Some (Resolved (Some c), σ1)
       ∧ copyTo W 1 a (Some "/out") σ1 = Some (out, σ2)
       ∧ listing ∈ trace σ2).
Proof.
  apply (workflow_uses_latest_successful_run Samples.mixed_runs Samples.workflow_asset
           [Samples.run 105 "failure"] [Samples.run 103 "success"]
           (Samples.run 104 "success") 1 (Some "/out") initial).
  - reflexivity.
  - reflexivity.
  - repeat constructor.
  - reflexivity.
  - reflexivity.
Defined.

(** C7, on the code. With no successful run the promise resolves with
    undefined, and [version], [cacheId] and [copyTo] reject with the
    TypeError of reading [id] from it: the message names neither the
    workflow nor the repository. *)
Theorem workflow_without_successful_run :
  let a := Workflow Samples.workflow_asset in
  let e := TypeError "Cannot read properties of undefined (reading 'id')" in
  (∃ σ', version Samples.failed_runs a initial = Some (Rejected e, σ'))
  ∧ (∃ σ', cacheId Samples.failed_runs a initial = Some (Rejected e, σ'))
  ∧ (∃ σ', copyTo Samples.failed_runs 1 a (Some "/out") initial = Some (Rejected e, σ'))
  ∧ ¬ includes "build.yml" (message e)
  ∧ ¬ includes "org" (message e)
  ∧ ¬ includes "tool" (message e).
Proof.
  cbv zeta.
  split; [eexists; vm_compute; reflexivity|].
  split; [eexists; vm_compute; reflexivity|].
  split; [eexists; vm_compute; reflexivity|].
  split; [|split]; apply not_includes; vm_compute; reflexivity.
Qed.

(** ** File assets *)

Arguments path.join : simpl never.
Arguments path.basename : simpl never.

(** C5, as the code has it. An archive asset answers [version] with its
    subject's version, through any depth of wrapping, and hands the cache
    directory on to its subject; it declares no [cacheId], so the getter it
    inherits answers, with no cache slot, whatever the subject's is. *)
Theorem archive_delegates_version (W : World) (this : nat) (subject : Asset)
    (strip : nat) (cacheDir : string) (σ : State) :
  version W (ArchiveFileAsset this subject strip) σ = version W subject σ
  ∧ version W (ArchiveFileAsset this subject strip) σ = version W (innermost subject) σ
  ∧ cacheId W (ArchiveFileAsset this subject strip) σ = Some (Resolved None, σ)
  ∧ withCacheDir (ArchiveFileAsset this subject strip) cacheDir σ
    = (withCacheDir subject cacheDir;; AbstractAsset.withCacheDir this cacheDir) σ.
Proof.
  split; [reflexivity|]. split; [|split; reflexivity].
  cbn [version]. induction subject as [? subject IH ?| | | | |]; try reflexivity.
  exact IH.
Qed.

(** The cache slot of a web file is not the one of the archive around it. *)
Lemma archive_cacheId_not_subject :
  ¬ archive_shares_identity Samples.offline 4 (Web Samples.web_asset) 1 initial.
Proof.
  intros [_ H]. vm_compute in H. discriminate H.
Qed.

(** C10. Given a destination directory, [copyTo] of a local file resolves
    to that directory, while [copyTo] of a web file resolves to the path of
    the downloaded file: the destination joined with the file name, which
    defaults to the base name of the URL's path. *)
Theorem copyTo_result_paths (W : World) (l : LocalFileAsset.t) (w : WebFileAsset.t)
    (dest : string) (fuel : nat) (σ : State) :
  let target :=
    path.join [dest; nullish (LocalFileAsset.targetName l)
                       (path.basename (LocalFileAsset.filepath l))] in
  let destFile :=
    path.join [dest; nullish (WebFileAsset.filename w)
                       (path.basename (URL.pathname (WebFileAsset.url w)))] in
  (∀ content,
     write_error W dest = None →
     files σ !! LocalFileAsset.filepath l = Some content →
     write_error W target = None →
     ∃ σ', copyTo W fuel (Local l) (Some dest) σ = Some (Resolved dest, σ')
           ∧ files σ' !! target = Some content)
  ∧ (∀ res code,
       write_error W dest = None →
       https_request W (URL.href (WebFileAsset.url w))
         (WebFileAsset.headers w ∪ default_headers) = inr res →
       IncomingMessage.statusCode res = Some code →
       200 ≤ code < 300 →
       write_error W destFile = None →
       ∃ σ', copyTo W (S fuel) (Web w) (Some dest) σ = Some (Resolved destFile, σ')
             ∧ files σ' !! destFile = Some (IncomingMessage.body res))
  ∧ (∀ p σ', copyTo W fuel (Local l) (Some dest) σ = Some (Resolved p, σ') → p = dest)
  ∧ (∀ p σ', copyTo W fuel (Web w) (Some dest) σ = Some (Resolved p, σ') → p = destFile).
Proof.
  intros target destFile. split; [|split; [|split]].
  - intros content Hdest Hsrc Htarget. cbn.
    unfold LocalFileAsset.copyTo, AbstractAsset.mkDest, fs.copyFile, fs.mkdir,
      fs.readFile, fs.writeFile.
    rewrite Hdest. unfold mbind, M_bind. cbn. rewrite Hsrc. cbn.
    fold target. rewrite Htarget. cbn.
    eexists. split; [reflexivity|]. cbn. by rewrite lookup_insert_eq.
  - intros res code Hdest Hreq Hcode Hrange HdestFile. cbn -[downloadFile].
    unfold WebFileAsset.copyTo, AbstractAsset.mkDest, AbstractAsset.downloadFile, fs.mkdir.
    rewrite Hdest. fold destFile. rewrite bind_run, bind_run. cbn -[downloadFile].
    rewrite (downloadFile_stores_body W fuel _ destFile _ _ res code Hreq Hcode Hrange HdestFile).
    eexists. split; [reflexivity|]. cbn. by rewrite lookup_insert_eq.
  - intros p σ'. cbn.
    unfold LocalFileAsset.copyTo, AbstractAsset.mkDest, fs.copyFile, fs.mkdir,
      fs.readFile, fs.writeFile.
    unfold mbind, M_bind. cbn.
    destruct (write_error W dest); cbn; [done|].
    destruct (files σ !! LocalFileAsset.filepath l); cbn; [|done].
    fold target. destruct (write_error W target); cbn; [done|]. by intros [= <- <-].
  - intros p σ'. cbn -[downloadFile].
    unfold WebFileAsset.copyTo, AbstractAsset.mkDest, AbstractAsset.downloadFile, fs.mkdir.
    fold destFile. rewrite bind_run, bind_run.
    destruct (write_error W dest); cbn -[downloadFile]; [done|].
    apply downloadFile_resolves_to_outputPath.
Qed.

Lemma copyTo_result_paths_witness :
  let σ := with_files (insert "/src/tool.bin" "binary") initial in
  (∃ σ', copyTo Samples.serving 1 (Local Samples.local_asset) (Some "/out") σ
         = Some (Resolved "/out", σ')
         ∧ files σ' !! "/out/tool.bin" = Some "binary")
  ∧ (∃ σ', copyTo Samples.serving 1 (Web Samples.web_asset) (Some "/out") σ
           = Some (Resolved "/out/tool.zip", σ')
           ∧ files σ' !! "/out/tool.zip" = Some "zip-bytes").
Proof.
  pose proof (copyTo_result_paths Samples.serving Samples.local_asset Samples.web_asset
                "/out" 0 (with_files (insert "/src/tool.bin" "binary") initial)) as H.
  cbv zeta in H. destruct H as (Hlocal & Hweb & _). split.
  - destruct (λ H1 H2 H3, Hlocal "binary" H1 H2 H3) as (σ' & H & Hfile);
      [reflexivity | reflexivity | reflexivity |].
    exists σ'. split; [exact H | exact Hfile].
  - apply (Hweb (Samples.response 200 "OK" [] "zip-bytes") 200);
      [reflexivity | reflexivity | reflexivity | lia | reflexivity].
Defined.

(** * Further properties of the code *)

(** ** [downloadFile] *)

Lemma downloadFile_unfold (W : World) (fuel : nat) (url outputPath : string)
    (headers : OutgoingHttpHeaders) (σ : State) :
  downloadFile W (S fuel) url outputPath headers σ
  = match https_request W url (headers ∪ default_headers) with
    | inl e => Some (Rejected e, requested url (headers ∪ default_headers) σ)
    | inr res =>
        on_response W fuel url outputPath res (requested url (headers ∪ default_headers) σ)
    end.
Proof.
  cbn -[default_headers]. unfold mbind, M_bind. cbn -[default_headers].
  rewrite requested_unfold, of_result_run.
  by destruct (https_request W url (headers ∪ default_headers)).
Qed.

Lemma on_response_redirect (W : World) (fuel : nat) (url outputPath loc : string)
    (res : IncomingMessage.t) :
  redirects_to res loc →
  on_response W fuel url outputPath res = downloadFile W fuel loc outputPath ∅.
Proof.
  intros (code & Hcode & Hredirect & Hloc & Hne). unfold on_response.
  rewrite Hcode, Hloc.
  replace ((code <? 200) || (code >=? 300)) with true
    by (symmetry; apply orb_true_iff; lia).
  replace ((code =? 301) || (code =? 302)) with true
    by (symmetry; apply orb_true_iff; lia).
  cbn. by destruct (String.eqb_spec loc "").
Qed.

Lemma on_response_store (W : World) (fuel : nat) (url outputPath : string)
    (res : IncomingMessage.t) (σ : State) :
  stores_body res →
  on_response W fuel url outputPath res σ
  = match write_error W outputPath with
    | Some e => Some (Rejected e, σ)
    | None =>
        Some (Resolved outputPath,
              with_files (insert outputPath (IncomingMessage.body res)) σ)
    end.
Proof.
  unfold stores_body, on_response, pipe_to_file. intros Hok.
  destruct (IncomingMessage.statusCode res) as [code|].
  - replace ((code <? 200) || (code >=? 300)) with false
      by (symmetry; apply orb_false_iff; lia).
    by destruct (write_error W outputPath).
  - by destruct (write_error W outputPath).
Qed.

Lemma https_requests_requested (url : string) (headers : OutgoingHttpHeaders) (σ : State) :
  https_requests (trace (requested url headers σ))
  = (https_requests (trace σ) ++ [(url, headers)])%list.
Proof. unfold https_requests, requested. cbn. by rewrite omap_app. Qed.

(** The requests of a settled call: its own, then one per redirect
    followed, each of those with the default headers alone. *)
Lemma downloadFile_requests (W : World) (fuel : nat) (url outputPath : string)
    (headers : OutgoingHttpHeaders) (σ σ' : State) (r : Settled string) :
  downloadFile W fuel url outputPath headers σ = Some (r, σ') →
  ∃ hops,
    https_requests (trace σ')
    = (https_requests (trace σ)
       ++ (url, headers ∪ default_headers) :: map (λ u, (u, default_headers)) hops)%list.
Proof.
  revert url headers σ. induction fuel as [|fuel IH]; intros url headers σ; [done|].
  rewrite downloadFile_unfold.
  pose proof (https_requests_requested url (headers ∪ default_headers) σ) as Hreq.
  set (σ1 := requested url (headers ∪ default_headers) σ) in *.
  destruct (https_request W url (headers ∪ default_headers)) as [e|res].
  { intros [= <- <-]. by exists []. }
  assert (Hstore : ∀ x,
    (pipe_to_file W outputPath (IncomingMessage.body res);; mret outputPath) σ1 = Some (x, σ') →
    trace σ' = trace σ1).
  { intros x. rewrite bind_run. unfold pipe_to_file.
    destruct (write_error W outputPath) as [e|]; cbn; by intros [= <- <-]. }
  unfold on_response.
  destruct (IncomingMessage.statusCode res) as [code|].
  2:{ intros H. exists []. by rewrite (Hstore _ H). }
  destruct ((code <? 200) || (code >=? 300)).
  2:{ intros H. exists []. by rewrite (Hstore _ H). }
  destruct (((code =? 301) || (code =? 302))
            && truthy (location (IncomingMessage.headers res))).
  - intros H. apply IH in H as [hops Hhops].
    exists (string_or_undefined (location (IncomingMessage.headers res)) :: hops).
    rewrite Hhops, Hreq, <- app_assoc, (left_id_L ∅ (∪)). reflexivity.
  - intros [= <- <-]. by exists [].
Qed.

(** X1. A request that is answered with a 2xx status, or with no status
    at all, directly or after any number of 301/302 redirects, stores the
    body of the last answer at the output path and resolves with that
    path, given one unit of fuel per request; the requests issued are the
    one for the URL with the caller's headers laid over the defaults, then
    one per hop with the default headers alone. *)
Theorem downloadFile_follows_chain (W : World) (url outputPath : string)
    (headers : OutgoingHttpHeaders) (hops : list string) (final : IncomingMessage.t)
    (fuel : nat) (σ : State) :
  redirect_chain W url headers hops final →
  write_error W outputPath = None →
  ∃ σ',
    downloadFile W (S (List.length hops) + fuel) url outputPath headers σ
      = Some (Resolved outputPath, σ')
    ∧ files σ' = <[outputPath := IncomingMessage.body final]> (files σ)
    ∧ https_requests (trace σ')
      = (https_requests (trace σ)
         ++ (url, headers ∪ default_headers) :: map (λ u, (u, default_headers)) hops)%list.
Proof.
  intros Hchain Hok. revert url headers σ Hchain.
  induction hops as [|next rest IH]; intros url headers σ Hchain.
  - destruct Hchain as [Hreq Hstore]. cbn [List.length Nat.add].
    rewrite downloadFile_unfold, Hreq, (on_response_store _ _ _ _ _ _ Hstore), Hok.
    eexists. split; [reflexivity|]. split; [reflexivity|].
    cbn [map]. apply https_requests_requested.
  - destruct Hchain as (res & Hreq & Hredirect & Hrest). cbn [List.length Nat.add].
    rewrite downloadFile_unfold, Hreq, (on_response_redirect _ _ _ _ _ _ Hredirect).
    destruct (IH next ∅ (requested url (headers ∪ default_headers) σ) Hrest)
      as (σ' & Hrun & Hfiles & Hreqs).
    exists σ'. split; [exact Hrun|]. split; [exact Hfiles|].
    rewrite Hreqs, https_requests_requested, <- app_assoc, (left_id_L ∅ (∪)).
    reflexivity.
Qed.

Lemma downloadFile_follows_chain_witness :
  ∃ σ',
    downloadFile MoreSamples.mirrored 3 "https://a.example/tool.zip" "/out/tool.zip"
      Samples.bearer initial
      = Some (Resolved "/out/tool.zip", σ')
    ∧ files σ' = <["/out/tool.zip" := "zip-bytes"]> ∅
    ∧ https_requests (trace σ')
      = [("https://a.example/tool.zip", Samples.bearer ∪ default_headers);
         ("https://b.example/tool.zip", default_headers);
         ("https://c.example/tool.zip", default_headers)].
Proof.
  apply (downloadFile_follows_chain MoreSamples.mirrored "https://a.example/tool.zip"
           "/out/tool.zip" Samples.bearer
           ["https://b.example/tool.zip"; "https://c.example/tool.zip"]
           (Samples.response 200 "OK" [] "zip-bytes") 0 initial).
  - eexists. split; [reflexivity|]. split.
    { exists 301. repeat split; [by left | discriminate]. }
    eexists. split; [reflexivity|]. split.
    { exists 302. repeat split; [by right | discriminate]. }
    split; [reflexivity|]. cbn. lia.
  - reflexivity.
Defined.

(** X2. A URL caught in a set of URLs that all answer with redirects into
    the set is followed for ever: there is no bound on the number of
    redirects, so the call settles for no amount of fuel. *)
Theorem downloadFile_redirect_loop_never_settles (W : World) (P : string → Prop)
    (url outputPath : string) (headers : OutgoingHttpHeaders) (fuel : nat) (σ : State) :
  trapped W P →
  P url →
  downloadFile W fuel url outputPath headers σ = None.
Proof.
  intros Htrapped. revert url headers σ.
  induction fuel as [|fuel IH]; intros url headers σ Hurl; [reflexivity|].
  destruct (Htrapped url (headers ∪ default_headers) Hurl) as (res & loc & Hreq & Hred & Hloc).
  rewrite downloadFile_unfold, Hreq, (on_response_redirect _ _ _ _ _ _ Hred).
  by apply IH.
Qed.

Lemma downloadFile_redirect_loop_never_settles_witness :
  downloadFile MoreSamples.ping_pong 1000 "https://a.example/x" "/out/x" Samples.bearer initial
  = None.
Proof.
  apply (downloadFile_redirect_loop_never_settles MoreSamples.ping_pong
           (λ u, u = "https://a.example/x" ∨ u = "https://b.example/x")).
  - intros url headers [-> | ->].
    + eexists _, "https://b.example/x". split; [reflexivity|]. split; [|by right].
      exists 302. repeat split; [by right | discriminate].
    + eexists _, "https://a.example/x". split; [reflexivity|]. split; [|by left].
      exists 301. repeat split; [by left | discriminate].
  - by left.
Defined.





(** ** What the getters leave alone *)

Section Keeps.
Context (R : State → State → Prop) `{!Reflexive R} `{!Transitive R}.

Lemma keeps_ret {A : Type} (x : A) : keeps R (mret x : M A).
Proof. intros σ r σ' [= <- <-]. reflexivity. Qed.

Lemma keeps_throw {A : Type} (e : JsError) : keeps R (throw e : M A).
Proof. intros σ r σ' [= <- <-]. reflexivity. Qed.

Lemma keeps_quiet {A : Type} (m : M A) : quiet m → keeps R m.
Proof.
  intros Hq σ r σ' H. destruct (Hq σ) as [r' Hr]. rewrite Hr in H.
  injection H as <- <-. reflexivity.
Qed.

Lemma keeps_bind {A B : Type} (m : M A) (k : A → M B) :
  keeps R m → (∀ x, keeps R (k x)) → keeps R (m ≫= k).
Proof.
  intros Hm Hk σ r σ'. rewrite bind_run.
  destruct (m σ) as [[[x|e] σ1]|] eqn:H1; [| |done].
  - intros H2. etrans; [by eapply Hm | by eapply Hk].
  - intros [= <- <-]. by eapply Hm.
Qed.

Lemma keeps_settle {A : Type} (m : M A) : keeps R m → keeps R (settle m).
Proof.
  intros Hm σ r σ'. rewrite settle_run.
  destruct (m σ) as [[x σ1]|] eqn:H1; [|done]. intros [= <- <-]. by eapply Hm.
Qed.

Lemma keeps_step {A : Type} (m : M A) (x : Settled A) (f : State → State) :
  (∀ σ, m σ = Some (x, f σ)) → (∀ σ, R σ (f σ)) → keeps R m.
Proof. intros Hm Hf σ r σ'. rewrite Hm. intros [= <- <-]. apply Hf. Qed.

End Keeps.

#[local] Instance getter_frame_refl (b : GitHubAsset.t) : Reflexive (getter_frame b).
Proof. intros σ. unfold getter_frame. repeat split; auto. Qed.

#[local] Instance getter_frame_trans (b : GitHubAsset.t) : Transitive (getter_frame b).
Proof.
  intros σ1 σ2 σ3 (Hf1 & Hd1 & Ht1 & Hh1 & Hp1) (Hf2 & Hd2 & Ht2 & Hh2 & Hp2).
  unfold getter_frame. split; [congruence|]. split; [congruence|]. split; [congruence|].
  split.
  - intros i Hi. rewrite Hh2, Hh1; done.
  - intros k. destruct (Hp1 k) as [H1 | (Hk & Hnone & Hsome)];
      destruct (Hp2 k) as [H2 | (Hk2 & Hnone2 & Hsome2)].
    + left. congruence.
    + right. rewrite <- H1. done.
    + right. rewrite H2. done.
    + congruence.
Qed.

Section GetterFrame.
Context (b : GitHubAsset.t).

Lemma frame_getOctokit : keeps (getter_frame b) (GitHubAsset.getOctokit b).
Proof.
  intros σ r σ'. rewrite getOctokit_run. intros [= <- <-].
  unfold getter_frame. repeat split; try done.
  intros k. unfold pooled. cbn. fold (pool_key b).
  destruct (decide (k = pool_key b)) as [->|Hk].
  - rewrite lookup_insert_eq. unfold client. fold (pool_key b).
    destruct (OCTOKIT σ !! pool_key b) as [o|] eqn:Ho; cbn; [by left | by right].
  - left. by rewrite lookup_insert_ne.
Qed.

Lemma frame_api {A : Type} (o : Octokit.t) (call : ApiCall) (answer : JsError + A) :
  keeps (getter_frame b) (api o call answer).
Proof.
  intros σ r σ'. rewrite api_run. intros [= <- <-].
  unfold getter_frame. repeat split; try done. intros k. by left.
Qed.

Lemma frame_write (f : Instance.t → Instance.t) :
  keeps (getter_frame b) (write (GitHubAsset.this b) f).
Proof.
  intros σ r σ'. rewrite write_run. intros [= <- <-].
  unfold getter_frame. repeat split; try done.
  - intros i Hi. unfold stored. cbn. by rewrite lookup_insert_ne.
  - intros k. by left.
Qed.

Lemma frame_read {A : Type} (this : nat) (f : Instance.t → A) :
  keeps (getter_frame b) (read this f).
Proof. intros σ r σ'. rewrite read_run. intros [= <- <-]. reflexivity. Qed.

End GetterFrame.

Section GetterFrames.
Context (W : World).

Lemma frame_release (a : GitHubReleaseAsset.t) :
  keeps (getter_frame (GitHubReleaseAsset.base a)) (GitHubReleaseAsset.release W a).
Proof.
  set (b := GitHubReleaseAsset.base a). unfold GitHubReleaseAsset.release.
  apply (keeps_bind _); [apply frame_read | intros [p|]]; [apply (keeps_ret _)|].
  apply (keeps_bind _); [|intros p].
  - apply (keeps_settle _), (keeps_bind _); [apply frame_getOctokit | intros o].
    apply (keeps_bind _); [apply frame_api | intros data].
    apply (keeps_quiet _), quiet_of_result.
  - apply (keeps_bind _); [apply frame_write | intros _; apply (keeps_ret _)].
Qed.

Lemma frame_lastWorkflowRun (a : GitHubWorkflowAsset.t) :
  keeps (getter_frame (GitHubWorkflowAsset.base a)) (GitHubWorkflowAsset.lastWorkflowRun W a).
Proof.
  set (b := GitHubWorkflowAsset.base a).
  unfold GitHubWorkflowAsset.lastWorkflowRun, GitHubWorkflowAsset.listWorkflowRuns.
  apply (keeps_bind _); [apply frame_read | intros [p|]]; [apply (keeps_ret _)|].
  apply (keeps_bind _); [|intros p].
  - apply (keeps_settle _), (keeps_bind _); [apply frame_getOctokit | intros o].
    apply (keeps_bind _); [apply frame_api | intros data]. apply (keeps_ret _).
  - apply (keeps_bind _); [apply frame_write | intros _; apply (keeps_ret _)].
Qed.

Lemma frame_resolveRef (b : GitHubAsset.t) (ref : string) :
  keeps (getter_frame b) (GitHubAsset.resolveRef W b ref).
Proof.
  unfold GitHubAsset.resolveRef.
  apply (keeps_bind _); [apply frame_read | intros refs].
  destruct (refs !! ref); [apply (keeps_ret _)|].
  apply (keeps_bind _); [apply frame_getOctokit | intros o].
  apply (keeps_bind _); [apply frame_api | intros sha].
  apply (keeps_bind _); [apply frame_write | intros _; apply (keeps_ret _)].
Qed.

Lemma frame_query_github (a : Asset) (g : Getter) (b : GitHubAsset.t) :
  a = innermost a →
  github_base a = Some b →
  keeps (getter_frame b) (query W g a).
Proof.
  intros Hin Hb. unfold github_base in Hb. rewrite <- Hin in Hb.
  destruct a as [| | |a|a|a]; try done; injection Hb as <-.
  - destruct (release_tail_quiet W a g) as (k & Hk & ->).
    apply (keeps_bind _); [apply frame_release | intros p].
    apply (keeps_quiet _), quiet_bind; [apply quiet_await | exact Hk].
  - destruct g; cbn; unfold GitHubRepoAsset.version, GitHubRepoAsset.cacheId.
    all: apply (keeps_bind _); [apply frame_resolveRef | intros sha; apply (keeps_ret _)].
  - destruct (workflow_tail_quiet W a g) as (k & Hk & ->).
    apply (keeps_bind _); [apply frame_lastWorkflowRun | intros p].
    apply (keeps_quiet _), quiet_bind; [apply quiet_await | exact Hk].
Qed.

End GetterFrames.

(** X5. A query of [version] or [cacheId] on any asset leaves files,
    directories and every other instance as they are. On an asset that is,
    under its archive wrappers, a GitHub asset, it may change the fields of
    that one instance, and it may pool one client, made with the asset's
    own token under the asset's own key, when that key was free: a pooled
    client is never replaced or dropped. On any other asset it changes
    nothing at all. *)
Theorem getters_frame (W : World) (a : Asset) (g : Getter) (σ σ' : State)
    (r : Settled (option string)) :
  query W g a σ = Some (r, σ') →
  match github_base a with
  | Some b => getter_frame b σ σ'
  | None => σ' = σ
  end.
Proof.
  destruct g.
  - induction a as [this subject IH strip|a|a|a|a|a]; cbn [query] in *.
    + exact IH.
    + by intros [= <- <-].
    + by intros [= <- <-].
    + apply (frame_query_github W (Release a) Version); done.
    + apply (frame_query_github W (Repo a) Version); done.
    + apply (frame_query_github W (Workflow a) Version); done.
  - destruct a as [this subject strip|a|a|a|a|a]; cbn [query].
    + intros [= <- <-]. destruct (github_base _); reflexivity.
    + by intros [= <- <-].
    + by intros [= <- <-].
    + apply (frame_query_github W (Release a) CacheId); done.
    + apply (frame_query_github W (Repo a) CacheId); done.
    + apply (frame_query_github W (Workflow a) CacheId); done.
Qed.

Lemma getters_frame_witness :
  getter_frame Samples.github initial
    (listed (Samples.release_asset "1.5.0")
       (Resolved (Some (Samples.release 2 "v1.5.0"))) initial).
Proof.
  apply (getters_frame Samples.three_releases (Release (Samples.release_asset "1.5.0"))
           Version initial _ (Resolved (Some "1.5.0"))).
  vm_compute. reflexivity.
Defined.

(** X6. Clients are pooled by [token ?? '']: of two assets whose tokens
    have the same key, the second is handed the client pooled for the
    first and leaves the pool as it is, also when one token is undefined
    and the other the empty string; with different keys, the second gets a
    client of its own token if its key was free, and the first client stays
    pooled. *)
Theorem getOctokit_pools_by_key (a b : GitHubAsset.t) (σ : State) :
  ∃ oa ob σ1 σ2,
    GitHubAsset.getOctokit a σ = Some (Resolved oa, σ1)
    ∧ GitHubAsset.getOctokit b σ1 = Some (Resolved ob, σ2)
    ∧ OCTOKIT σ2 !! pool_key a = Some oa
    ∧ (pool_key a = pool_key b → ob = oa ∧ OCTOKIT σ2 = OCTOKIT σ1)
    ∧ (pool_key a ≠ pool_key b →
       OCTOKIT σ !! pool_key b = None →
       ob = {| Octokit.auth := GitHubAsset.token b |}).
Proof.
  exists (client a σ), (client b (pooled a σ)), (pooled a σ), (pooled b (pooled a σ)).
  rewrite !getOctokit_run. split; [done|]. split; [done|].
  unfold pooled, client, pool_key. cbn. split; [|split].
  - destruct (decide (nullish (GitHubAsset.token b) "" = nullish (GitHubAsset.token a) ""))
      as [->|Hne].
    + by rewrite !lookup_insert_eq.
    + rewrite lookup_insert_ne by done. by rewrite lookup_insert_eq.
  - intros <-. rewrite lookup_insert_eq. cbn. split; [done|].
    apply insert_id. by rewrite lookup_insert_eq.
  - intros Hne Hfree. rewrite lookup_insert_ne by done. by rewrite Hfree.
Qed.

Lemma getOctokit_pools_by_key_witness :
  let a := MoreSamples.with_token None in
  let b := MoreSamples.with_token (Some "") in
  ∃ oa ob σ1 σ2,
    GitHubAsset.getOctokit a initial = Some (Resolved oa, σ1)
    ∧ GitHubAsset.getOctokit b σ1 = Some (Resolved ob, σ2)
    ∧ OCTOKIT σ2 !! pool_key a = Some oa
    ∧ (pool_key a = pool_key b → ob = oa ∧ OCTOKIT σ2 = OCTOKIT σ1)
    ∧ (pool_key a ≠ pool_key b →
       OCTOKIT initial !! pool_key b = None →
       ob = {| Octokit.auth := GitHubAsset.token b |}).
Proof.
  exact (getOctokit_pools_by_key (MoreSamples.with_token None)
           (MoreSamples.with_token (Some "")) initial).
Defined.

(** ** Asking again *)








(** ** Repository snapshots *)

(** X8. A repository snapshot built without a ref asks GitHub for [main].
    When the ref resolves to a SHA, a first [version] is ref@SHA, the SHA
    is kept under the ref beside the refs already kept, and a following
    [cacheId] is owner/repo/SHA without a further call. When the lookup
    fails, [version] rejects with that error, nothing is kept, and the
    following [cacheId] asks again and rejects the same way. *)
Theorem repo_version_and_cacheId (W : World) (this : nat) (owner repo : string)
    (token ref : option string) (path : option (string + list string)) (σ : State) :
  let a := GitHubRepoAsset.new this owner repo token ref path in
  let b := GitHubRepoAsset.base a in
  let r := nullish ref "main" in
  let call := Api (client b σ) (GetRef owner repo r) in
  Instance.refs (fields this σ) !! r = None →
  (∀ sha,
     git_ref_sha W (client b σ) owner repo r = inr sha →
     ∃ σ1,
       version W (Repo a) σ = Some (Resolved (Some (r +:+ "@" +:+ sha)), σ1)
       ∧ cacheId W (Repo a) σ1
         = Some (Resolved (Some (owner +:+ "/" +:+ repo +:+ "/" +:+ sha)), σ1)
       ∧ trace σ1 = (trace σ ++ [call])%list
       ∧ Instance.refs (fields this σ1) = <[r := sha]> (Instance.refs (fields this σ)))
  ∧ (∀ e,
       git_ref_sha W (client b σ) owner repo r = inl e →
       ∃ σ1 σ2,
         version W (Repo a) σ = Some (Rejected e, σ1)
         ∧ Instance.refs (fields this σ1) = Instance.refs (fields this σ)
         ∧ cacheId W (Repo a) σ1 = Some (Rejected e, σ2)
         ∧ trace σ2 = (trace σ ++ [call; call])%list).
Proof.
  intros a b r call Hfresh. subst call b a.
  cbn [GitHubRepoAsset.base GitHubRepoAsset.new] in *.
  set (b := {| GitHubAsset.this := this; GitHubAsset.owner := owner;
               GitHubAsset.repo := repo; GitHubAsset.token := token |}) in *.
  split.
  - intros sha Hsha. cbn.
    unfold GitHubRepoAsset.version, GitHubRepoAsset.cacheId, GitHubAsset.resolveRef.
    cbn. fold b r. eexists. split; [|split; [|split]].
    + run. fold b r. rewrite Hfresh. run. fold b r. rewrite Hsha. run. reflexivity.
    + run. rewrite fields_stored. cbn. rewrite lookup_insert_eq. run. reflexivity.
    + reflexivity.
    + by rewrite fields_stored.
  - intros e He. cbn.
    unfold GitHubRepoAsset.version, GitHubRepoAsset.cacheId, GitHubAsset.resolveRef.
    cbn. fold b r. eexists _, _. split; [|split; [|split]].
    + run. fold b r. rewrite Hfresh. run. fold b r. rewrite He. run. reflexivity.
    + reflexivity.
    + run. autorewrite with store. fold b r. rewrite Hfresh. run.
      autorewrite with store. rewrite ?client_pooled. fold b r. rewrite He. run. reflexivity.
    + autorewrite with store. rewrite ?client_pooled. by rewrite <- app_assoc.
Qed.

Lemma repo_version_and_cacheId_witness :
  let a := GitHubRepoAsset.new 1 "org" "tool" None None None in
  let d := GitHubRepoAsset.new 1 "org" "tool" None (Some "heads/dev") None in
  let o := {| Octokit.auth := None |} in
  (∃ σ1,
     version MoreSamples.only_main (Repo a) initial
       = Some (Resolved (Some ("main" +:+ "@" +:+ "0a1b2c3")), σ1)
     ∧ cacheId MoreSamples.only_main (Repo a) σ1
       = Some (Resolved (Some ("org" +:+ "/" +:+ "tool" +:+ "/" +:+ "0a1b2c3")), σ1)
     ∧ trace σ1 = [Api o (GetRef "org" "tool" "main")]
     ∧ Instance.refs (fields 1 σ1) = {[ "main" := "0a1b2c3" ]})
  ∧ (∃ σ1 σ2,
       version MoreSamples.only_main (Repo d) initial = Some (Rejected (Error "Not Found"), σ1)
       ∧ Instance.refs (fields 1 σ1) = ∅
       ∧ cacheId MoreSamples.only_main (Repo d) σ1 = Some (Rejected (Error "Not Found"), σ2)
       ∧ trace σ2 = [Api o (GetRef "org" "tool" "heads/dev");
                     Api o (GetRef "org" "tool" "heads/dev")]).
Proof.
  split.
  - apply (proj1 (repo_version_and_cacheId MoreSamples.only_main 1 "org" "tool"
                    None None None initial eq_refl) "0a1b2c3").
    reflexivity.
  - apply (proj2 (repo_version_and_cacheId MoreSamples.only_main 1 "org" "tool"
                    None (Some "heads/dev") None initial eq_refl) (Error "Not Found")).
    reflexivity.
Defined.

(** ** Release assets: patterns that do not compile, patterns without a group *)

Section ReleasePattern.
Context (W : World) (a : GitHubReleaseAsset.t).

Let base := GitHubReleaseAsset.base a.
Let this := GitHubAsset.this base.
Let owner := GitHubAsset.owner base.
Let repo := GitHubAsset.repo base.



End ReleasePattern.



(** *** Captures come from groups *)

Section Captures.
Context (input : list ascii) (i : nat).





End Captures.




(** ** Downloads of a GitHub asset *)

(** X11. Whatever its outcome, a settled download of a GitHub asset has
    sent the token, as a Bearer authorization header laid over the default
    headers, with its first request only: every request for a redirect hop
    carries the default headers, which hold no authorization, and a token
    that is undefined or empty adds no header to the first one either. *)
Theorem github_download_sends_token_once (W : World) (b : GitHubAsset.t) (fuel : nat)
    (url : URL.t) (downloadFilePath : string) (σ σ' : State) (r : Settled string) :
  let first := token_headers (GitHubAsset.token b) ∪ default_headers in
  GitHubAsset.downloadFile W b fuel url downloadFilePath σ = Some (r, σ') →
  (∃ hops,
     https_requests (trace σ')
     = (https_requests (trace σ)
        ++ (URL.href url, first) :: map (λ u, (u, default_headers)) hops)%list)
  ∧ first !! "authorization"
    = match GitHubAsset.token b with
      | Some t => if String.eqb t "" then None else Some (HString ("Bearer " +:+ t))
      | None => None
      end
  ∧ default_headers !! "authorization" = None.
Proof.
  intros first Hrun. split; [|split].
  - unfold GitHubAsset.downloadFile, AbstractAsset.downloadFile in Hrun.
    exact (downloadFile_requests W fuel (URL.href url) downloadFilePath
             (token_headers (GitHubAsset.token b)) σ σ' r Hrun).
  - unfold first, token_headers.
    destruct (GitHubAsset.token b) as [t|]; cbn; [|done].
    destruct (String.eqb t ""); cbn; [done|].
    apply lookup_union_Some_l, lookup_singleton_eq.
  - done.
Qed.

Lemma github_download_sends_token_once_witness :
  let b := MoreSamples.with_token (Some "secret") in
  let first := token_headers (Some "secret") ∪ default_headers in
  let σ' :=
    with_files (insert "/out/tool.zip" "zip-bytes")
      (requested "https://c.example/tool.zip" default_headers
         (requested "https://b.example/tool.zip" default_headers
            (requested "https://a.example/tool.zip" first initial))) in
  (∃ hops,
     https_requests (trace σ')
     = ([] ++ ("https://a.example/tool.zip", first)
           :: map (λ u, (u, default_headers)) hops)%list)
  ∧ first !! "authorization" = Some (HString ("Bearer " +:+ "secret"))
  ∧ default_headers !! "authorization" = None.
Proof.
  intros b first σ'.
  apply (github_download_sends_token_once MoreSamples.mirrored b 3 MoreSamples.api_url
           "/out/tool.zip" initial σ' (Resolved "/out/tool.zip")).
  vm_compute. reflexivity.
Defined.

(** ** The asset of a release and the artifact of a run *)

(** X12. When a release matches the tag, [findReleaseAsset] lists the
    assets of that release and of no other, and resolves with the first
    asset whose name is exactly the asset name; later assets of the same
    name are passed over. *)
Theorem findReleaseAsset_first_of_name (W : World) (a : GitHubReleaseAsset.t)
    (re : RegExp.t) (data : list GitHubRelease.t) (r : GitHubRelease.t)
    (before after : list ReleaseAsset.t) (x : ReleaseAsset.t) (σ : State) :
  let base := GitHubReleaseAsset.base a in
  let owner := GitHubAsset.owner base in
  let repo := GitHubAsset.repo base in
  Instance.releasePromise (fields (GitHubAsset.this base) σ) = None →
  releases W (client base σ) owner repo = inr data →
  GitHubReleaseAsset.tagRegex a = inr re →
  List.find (tag_matches re) data = Some r →
  release_assets W (client base σ) owner repo (GitHubRelease.id r)
    = inr (before ++ x :: after)%list →
  Forall (λ y, ReleaseAsset.name y ≠ GitHubReleaseAsset.assetName a) before →
  ReleaseAsset.name x = GitHubReleaseAsset.assetName a →
  ∃ σ',
    GitHubReleaseAsset.findReleaseAsset W a σ = Some (Resolved x, σ')
    ∧ trace σ' = (trace σ ++ [Api (client base σ) (ListReleases owner repo);
                              Api (client base σ)
                                (ListReleaseAssets owner repo (GitHubRelease.id r))])%list.
Proof.
  intros base owner repo Hfresh Hdata Hre Hfound Hassets Hbefore Hname.
  unfold GitHubReleaseAsset.findReleaseAsset. run. fold base.
  rewrite (release_first_run W a re data (pooled base σ));
    [| done | by fold base; rewrite client_pooled | done].
  rewrite Hfound. run. fold base owner repo. rewrite Hassets. run.
  assert (Hfind : List.find (λ y, String.eqb (ReleaseAsset.name y)
                                    (GitHubReleaseAsset.assetName a))
                    (before ++ x :: after) = Some x).
  { clear Hassets. induction Hbefore as [|y rest Hy _ IH]; cbn.
    - by rewrite Hname, String.eqb_refl.
    - apply String.eqb_neq in Hy. by rewrite Hy. }
  rewrite Hfind. run. eexists. split; [reflexivity|].
  rewrite trace_called. unfold listed. fold base owner repo.
  rewrite trace_stored, trace_called, !trace_pooled, client_pooled, <- app_assoc.
  reflexivity.
Qed.

Lemma findReleaseAsset_first_of_name_witness :
  ∃ σ',
    GitHubReleaseAsset.findReleaseAsset MoreSamples.published
      (Samples.release_asset "1.5.0") initial
    = Some (Resolved (MoreSamples.file 12 "tool.zip"), σ')
    ∧ trace σ' = [Api (client Samples.github initial) (ListReleases "org" "tool");
                  Api (client Samples.github initial) (ListReleaseAssets "org" "tool" 2)].
Proof.
  apply (findReleaseAsset_first_of_name MoreSamples.published
           (Samples.release_asset "1.5.0")
           (match RegExp.new "v?(1.5.0)" with
            | inr re => re
            | inl _ => MoreSamples.major_one
            end)
           [Samples.release 3 "v2.0.0"; Samples.release 2 "v1.5.0"; Samples.release 1 "v1.0.0"]
           (Samples.release 2 "v1.5.0")
           [MoreSamples.file 11 "tool.zip.sha256"] [MoreSamples.file 13 "tool.zip"]
           (MoreSamples.file 12 "tool.zip") initial).
  - reflexivity.
  - reflexivity.
  - vm_compute. reflexivity.
  - vm_compute. reflexivity.
  - reflexivity.
  - repeat constructor. discriminate.
  - reflexivity.
Defined.

(** X13. When no artifact of the run matches the artifact name,
    [copyTo] of a workflow asset rejects with an error that names the
    pattern and the id of the run, after listing the runs and the
    artifacts of that run; no artifact is downloaded and no file is
    written. The scratch directory is taken to be creatable. *)
Theorem workflow_artifact_not_found (W : World) (a : GitHubWorkflowAsset.t)
    (runs : list WorkflowRun.t) (r : WorkflowRun.t) (artifacts : list Artifact.t)
    (fuel : nat) (dest : option string) (σ : State) :
  let base := GitHubWorkflowAsset.base a in
  let owner := GitHubAsset.owner base in
  let repo := GitHubAsset.repo base in
  Instance.lastWorkflowRunPromise (fields (GitHubAsset.this base) σ) = None →
  workflow_runs W (client base σ) owner repo (GitHubWorkflowAsset.workflow a) = inr runs →
  List.find successful runs = Some r →
  write_error W (temp_name W (temp_count σ)) = None →
  run_artifacts W (client base σ) owner repo (WorkflowRun.id r) = inr artifacts →
  Forall (λ x, GitHubWorkflowAsset.matches_artifactName a (Artifact.name x) = inr false)
    artifacts →
  ∃ σ',
    copyTo W fuel (Workflow a) dest σ
    = Some (Rejected (Error ("No artifact found matching "
                             +:+ GitHubWorkflowAsset.artifactName_toString a
                             +:+ " in workflow run " +:+ number_toString (WorkflowRun.id r))),
            σ')
    ∧ trace σ' = (trace σ ++ [Api (client base σ) (ListWorkflowRuns (successful_runs a));
                              Api (client base σ)
                                (ListWorkflowRunArtifacts owner repo (WorkflowRun.id r))])%list
    ∧ files σ' = files σ.
Proof.
  intros base owner repo Hfresh Hruns Hfound Htemp Hartifacts Hnone.
  subst base owner repo.
  cbn [copyTo]. unfold GitHubWorkflowAsset.copyTo.
  rewrite bind_run, getOctokit_run.
  rewrite bind_run, (mkTempDir_run W _ (pooled _ σ) Htemp).
  rewrite bind_run, (lastWorkflowRun_in_copyTo W a runs σ Hfresh Hruns), Hfound.
  run. rewrite Hartifacts. run.
  assert (Hfind : GitHubWorkflowAsset.find_artifact a artifacts = inr None).
  { clear Hartifacts. induction Hnone as [|x rest Hx _ IH]; [done|].
    cbn. by rewrite Hx. }
  rewrite Hfind. run. eexists. split; [reflexivity|]. split.
  - rewrite trace_called. unfold looked_up.
    rewrite trace_stored, trace_called, trace_pooled, trace_scratch, trace_pooled.
    rewrite client_scratch, !client_pooled, <- app_assoc. reflexivity.
  - reflexivity.
Qed.

Lemma workflow_artifact_not_found_witness :
  ∃ σ',
    copyTo MoreSamples.built 0 (Workflow Samples.workflow_asset) None initial
    = Some (Rejected (Error ("No artifact found matching " +:+ "dist"
                             +:+ " in workflow run " +:+ "104")), σ')
    ∧ trace σ' = [Api (client Samples.github initial)
                    (ListWorkflowRuns (successful_runs Samples.workflow_asset));
                  Api (client Samples.github initial)
                    (ListWorkflowRunArtifacts "org" "tool" 104)]
    ∧ files σ' = ∅.
Proof.
  apply (workflow_artifact_not_found MoreSamples.built Samples.workflow_asset
           [Samples.run 105 "failure"; Samples.run 104 "success"; Samples.run 103 "success"]
           (Samples.run 104 "success")
           [{| Artifact.id := 7; Artifact.name := "docs" |};
            {| Artifact.id := 8; Artifact.name := "logs" |}]
           0 None initial).
  - reflexivity.
  - reflexivity.
  - reflexivity.
  - reflexivity.
  - reflexivity.
  - repeat constructor; vm_compute; reflexivity.
Defined.

(** ** Archives of archives *)

(** X14. An error of [copyTo] of the asset inside any number of archive
    wrappers is the error of the outermost [copyTo], and the store is the
    one the inner asset left: no wrapper extracts anything. *)
Theorem archive_copyTo_passes_rejection_out (W : World) (fuel : nat) (this : nat)
    (subject : Asset) (strip : nat) (e : JsError) (dest : option string) (σ σ' : State) :
  copyTo W fuel (innermost subject) None σ = Some (Rejected e, σ') →
  copyTo W fuel (ArchiveFileAsset this subject strip) dest σ = Some (Rejected e, σ').
Proof.
  intros Hinner. cbn [copyTo]. rewrite bind_run.
  enough (Hs : copyTo W fuel subject None σ = Some (Rejected e, σ')) by (by rewrite Hs).
  clear this strip dest.
  induction subject as [this s IH strip| | | | |]; try exact Hinner.
  cbn [copyTo]. rewrite bind_run, (IH Hinner). reflexivity.
Qed.

Lemma archive_copyTo_passes_rejection_out_witness :
  let inner := Release (Samples.release_asset "3.5.0") in
  let e := Error ("Could not find release for tag pattern " +:+ "v?(3.5.0)") in
  let σ' := listed (Samples.release_asset "3.5.0") (Resolved None)
              (pooled Samples.github initial) in
  copyTo Samples.three_releases 0 (ArchiveFileAsset 5 (ArchiveFileAsset 4 inner 1) 0)
    (Some "/dest") initial
  = Some (Rejected e, σ').
Proof.
  intros inner e σ'.
  apply (archive_copyTo_passes_rejection_out Samples.three_releases 0 5
           (ArchiveFileAsset 4 inner 1) 0 e (Some "/dest") initial σ').
  vm_compute. reflexivity.
Defined.

(** ** Literal tags as patterns *)

Section LiteralTags.

Lemma list_ascii_of_append (a b : string) :
  list_ascii_of_string (a +:+ b) = (list_ascii_of_string a ++ list_ascii_of_string b)%list.
Proof.
  induction a as [|x a IH]; [done|].
  change (x :: list_ascii_of_string (a +:+ b)
          = x :: (list_ascii_of_string a ++ list_ascii_of_string b)%list).
  by f_equal.
Qed.

Lemma match_question {A : Type} (c : ascii) (tl : list ascii) (x y : A) :
  c ≠ "?"%char →
  match c :: tl with "?"%char :: _ => x | _ => y end = y.
Proof.
  intros Hc. destruct c as [[] [] [] [] [] [] [] []]; try reflexivity. by destruct Hc.
Qed.

Lemma quantified_other (a : RegExp.Pattern) (rest : list ascii) :
  head rest ≠ Some "?"%char → head rest ≠ Some "*"%char → head rest ≠ Some "+"%char →
  RegExp.quantified a rest = Some (a, rest).
Proof.
  intros H1 H2 H3. destruct rest as [|c tl]; [done|]. cbn in H1, H2, H3.
  destruct c as [[] [] [] [] [] [] [] []]; try reflexivity; congruence.
Qed.

Lemma tag_char_head (s rest : list ascii) (c : ascii) :
  forallb tag_char s = true →
  RegExp.syntax_character c = true → c ≠ ")"%char → c ≠ "."%char →
  head (s ++ ")"%char :: rest)%list ≠ Some c.
Proof.
  intros Hs Hc Hnot Hdot. destruct s as [|d s]; cbn.
  - congruence.
  - intros [= ->]. cbn in Hs. apply andb_prop in Hs as [Hd _].
    unfold tag_char in Hd. rewrite Hc, orb_false_r in Hd.
    by apply Ascii.eqb_eq in Hd.
Qed.

Lemma parse_term_atom (c : ascii) (f n : nat) (rest : list ascii) :
  tag_char c = true →
  head rest ≠ Some "?"%char → head rest ≠ Some "*"%char → head rest ≠ Some "+"%char →
  RegExp.parse_term (S f) n (c :: rest) = Some (atom c, n, rest).
Proof.
  intros Hc H1 H2 H3.
  destruct c as [[] [] [] [] [] [] [] []]; try discriminate Hc;
    cbn [RegExp.parse_term]; cbn;
    rewrite (quantified_other _ rest H1 H2 H3); reflexivity.
Qed.

Lemma parse_alternative_unfold (f n : nat) (c : ascii) (s : list ascii) :
  RegExp.parse_alternative (S f) n (c :: s)
  = if Ascii.eqb c "|" || Ascii.eqb c ")" then Some (RegExp.Empty, n, c :: s)
    else
      match RegExp.parse_term f n (c :: s) with
      | Some (a, n1, s1) =>
          match RegExp.parse_alternative f n1 s1 with
          | Some (b, n2, s2) => Some (RegExp.Seq a b, n2, s2)
          | None => None
          end
      | None => None
      end.
Proof. reflexivity. Qed.

Lemma parse_literal (s : list ascii) :
  forallb tag_char s = true →
  ∀ (f n : nat) (rest : list ascii),
    (List.length s < f)%nat →
    RegExp.parse_alternative f n (s ++ ")"%char :: rest)%list
    = Some (literal s, n, ")"%char :: rest).
Proof.
  induction s as [|c s IH]; intros Hs f n rest Hf.
  - destruct f as [|f]; [lia|]. reflexivity.
  - cbn in Hs. apply andb_prop in Hs as [Hc Hs].
    destruct f as [|f]; cbn in Hf; [lia|].
    change ((c :: s) ++ ")"%char :: rest)%list with (c :: (s ++ ")"%char :: rest))%list.
    rewrite parse_alternative_unfold.
    assert (Hbar : Ascii.eqb c "|" || Ascii.eqb c ")" = false).
    { destruct c as [[] [] [] [] [] [] [] []]; try reflexivity; discriminate Hc. }
    rewrite Hbar. destruct f as [|f]; [lia|].
    rewrite (parse_term_atom c f n _ Hc);
      [| by apply tag_char_head | by apply tag_char_head | by apply tag_char_head ].
    rewrite (IH Hs (S f) n rest) by lia. reflexivity.
Qed.

Lemma parse_tag_pattern (s : list ascii) (f : nat) :
  forallb tag_char s = true →
  (List.length s < f)%nat →
  RegExp.parse_disjunction (5 + f) 0 ("v"%char :: "?"%char :: "("%char :: s ++ [")"%char])%list
  = Some (RegExp.Seq (RegExp.Opt (RegExp.Char "v"))
            (RegExp.Seq (RegExp.Group 1 (literal s)) RegExp.Empty), 1%nat, []).
Proof.
  intros Hs Hf. cbn [Nat.add].
  cbn [RegExp.parse_disjunction RegExp.parse_alternative RegExp.parse_term].
  cbn [Ascii.eqb Bool.eqb orb andb negb RegExp.syntax_character RegExp.quantified
       RegExp.finish existsb list_ascii_of_string].
  assert (Hq : ∀ (A : Type) (x y : A),
             match (s ++ [")"%char])%list with "?"%char :: _ => x | _ => y end = y).
  { intros A x y. destruct s as [|c s']; [reflexivity|].
    apply (match_question c (s' ++ [")"%char])%list). intros ->. discriminate Hs. }
  rewrite Hq, (parse_literal s Hs f 1 []) by lia.
  reflexivity.
Qed.

Context (input : list ascii).

Lemma drop_lookup (i : nat) :
  drop i input = match input !! i with
                 | Some u => u :: drop (S i) input
                 | None => []
                 end.
Proof.
  destruct (input !! i) as [u|] eqn:Hi.
  - by apply drop_S.
  - apply drop_ge. by apply lookup_ge_None.
Qed.

Lemma run_atom (c : ascii) (x : RegExp.MState) (k : RegExp.MState → option RegExp.MState) :
  RegExp.run input (atom c) x k
  = match input !! RegExp.pos x with
    | Some u =>
        if fits c u then k {| RegExp.pos := S (RegExp.pos x); RegExp.caps := RegExp.caps x |}
        else None
    | None => None
    end.
Proof. unfold atom, fits. destruct (Ascii.eqb c "."); reflexivity. Qed.

Lemma run_literal (s : list ascii) (x : RegExp.MState)
    (k : RegExp.MState → option RegExp.MState) :
  RegExp.run input (literal s) x k
  = if fits_at s (drop (RegExp.pos x) input)
    then k {| RegExp.pos := RegExp.pos x + List.length s; RegExp.caps := RegExp.caps x |}
    else None.
Proof.
  revert x. induction s as [|c s IH]; intros [p caps].
  - cbn. by rewrite Nat.add_0_r.
  - change (literal (c :: s)) with (RegExp.Seq (atom c) (literal s)).
    cbn [RegExp.run]. rewrite run_atom. cbn [RegExp.pos RegExp.caps].
    rewrite (drop_lookup p). destruct (input !! p) as [u|]; [|reflexivity].
    cbn [fits_at]. destruct (fits c u); [|reflexivity].
    rewrite IH. cbn [RegExp.pos RegExp.caps andb List.length].
    by rewrite Nat.add_succ_r.
Qed.

(** A match of the pattern of a tag, tried at one index. *)
Lemma run_tag_pattern (s : list ascii) (start : nat) :
  let p := RegExp.Seq (RegExp.Opt (RegExp.Char "v"))
             (RegExp.Seq (RegExp.Group 1 (literal s)) RegExp.Empty) in
  match RegExp.run input p {| RegExp.pos := start; RegExp.caps := ∅ |} Some with
  | Some y =>
      ∃ i, fits_at s (drop i input) = true
           ∧ RegExp.caps y !! 1%nat = Some (RegExp.slice input i (i + List.length s))
  | None => fits_at s (drop start input) = false
  end.
Proof.
  cbn [RegExp.run]. unfold RegExp.step, RegExp.clear.
  cbn [RegExp.groups foldr RegExp.pos RegExp.caps]. rewrite !run_literal.
  cbn [RegExp.pos RegExp.caps].
  assert (Hdirect :
    match (if fits_at s (drop start input)
           then Some {| RegExp.pos := start + List.length s;
                        RegExp.caps := <[1%nat := RegExp.slice input start
                                                   (start + List.length s)]> ∅ |}
           else None) with
    | Some y =>
        ∃ i, fits_at s (drop i input) = true
             ∧ RegExp.caps y !! 1%nat = Some (RegExp.slice input i (i + List.length s))
    | None => fits_at s (drop start input) = false
    end).
  { destruct (fits_at s (drop start input)) eqn:Hfit; [|reflexivity].
    exists start. split; [exact Hfit|]. cbn. apply lookup_insert_eq. }
  destruct (input !! start) as [u|]; [|exact Hdirect].
  destruct (Ascii.eqb "v" u); [|exact Hdirect].
  rewrite (proj2 (Nat.eqb_neq (S start) start)) by lia.
  destruct (fits_at s (drop (S start) input)) eqn:Hfit; [|exact Hdirect].
  exists (S start). split; [exact Hfit|]. cbn. apply lookup_insert_eq.
Qed.

Lemma search_tag_pattern (s : list ascii) (n start : nat) :
  let p := RegExp.Seq (RegExp.Opt (RegExp.Char "v"))
             (RegExp.Seq (RegExp.Group 1 (literal s)) RegExp.Empty) in
  match RegExp.search input p n start with
  | Some m =>
      ∃ i, fits_at s (drop i input) = true
           ∧ RegExp.captures m !! 1%nat = Some (RegExp.slice input i (i + List.length s))
  | None => ∀ i, (start ≤ i < start + n)%nat → fits_at s (drop i input) = false
  end.
Proof.
  intros p. revert start. induction n as [|n IH]; intros start.
  - cbn. intros i Hi. lia.
  - cbn [RegExp.search]. pose proof (run_tag_pattern s start) as Hrun.
    cbn zeta in Hrun. fold p in Hrun.
    destruct (RegExp.run input p _ Some) as [y|].
    + exact Hrun.
    + specialize (IH (S start)). destruct (RegExp.search input p n (S start)) as [m|].
      * exact IH.
      * intros i Hi. destruct (decide (i = start)) as [->|Hne]; [exact Hrun|].
        apply IH. lia.
Qed.

Lemma fits_at_exact (s text : list ascii) :
  forallb (λ c, negb (Ascii.eqb c ".")) s = true →
  fits_at s text = true →
  take (List.length s) text = s.
Proof.
  revert text. induction s as [|c s IH]; intros text Hs Hfit; [done|].
  destruct text as [|u text]; [discriminate Hfit|].
  cbn in Hs, Hfit. apply andb_prop in Hs as [Hc Hs]. apply andb_prop in Hfit as [Hu Hfit].
  unfold fits in Hu. apply negb_true_iff in Hc. rewrite Hc in Hu.
  apply Ascii.eqb_eq in Hu. subst u. cbn. f_equal. by apply IH.
Qed.

End LiteralTags.

(** X15. A literal tag made of dots and of characters that are no syntax
    characters always compiles, to the pattern v?(tag). A tag name matches
    it exactly when some part of the tag name fits the literal character
    by character, a dot fitting any character but a line terminator; the
    first capture group, which [version] resolves to, is such a part, and
    is the literal itself when the literal has no dot. The tag name need
    not equal the literal, nor start with it. *)
Theorem literal_tag_matches_any_part (a : GitHubReleaseAsset.t) (s : string) :
  let tag := list_ascii_of_string s in
  GitHubReleaseAsset.tag a = inr s →
  forallb tag_char tag = true →
  ∃ re,
    GitHubReleaseAsset.tagRegex a = inr re
    ∧ RegExp.source re = RegExp.source_of ("v?(" +:+ s +:+ ")")
    ∧ ∀ tag_name : string,
        let text := list_ascii_of_string tag_name in
        match String_match tag_name re with
        | Some m =>
            ∃ i, fits_at tag (drop i text) = true
                 ∧ RegExp.index m 1
                   = Some (string_of_list_ascii (take (List.length tag) (drop i text)))
                 ∧ (forallb (λ c, negb (Ascii.eqb c ".")) tag = true →
                    RegExp.index m 1 = Some s)
        | None => ∀ i, fits_at tag (drop i text) = false
        end.
Proof.
  intros tag Htag Hchars.
  rewrite (tagRegex_literal a s Htag). unfold RegExp.new, RegExp.parse.
  rewrite !list_ascii_of_append.
  change (list_ascii_of_string "v?(") with ["v"; "?"; "("]%char.
  change (list_ascii_of_string ")") with [")"%char]. fold tag.
  change (["v"; "?"; "("]%char ++ tag ++ [")"%char])%list
    with ("v"%char :: "?"%char :: "("%char :: tag ++ [")"%char])%list.
  replace (4 * List.length ("v"%char :: "?"%char :: "("%char :: tag ++ [")"%char])%list + 4)%nat
    with (5 + (4 * List.length tag + 15))%nat
    by (cbn [List.length]; rewrite length_app; cbn [List.length]; lia).
  rewrite (parse_tag_pattern tag _ Hchars) by lia.
  eexists. split; [reflexivity|]. split; [reflexivity|].
  intros tag_name. set (text := list_ascii_of_string tag_name).
  unfold String_match, RegExp.exec. cbn [RegExp.pattern]. fold text.
  pose proof (search_tag_pattern text tag (S (List.length text)) 0) as Hsearch.
  cbn zeta in Hsearch.
  destruct (RegExp.search text _ _ 0) as [m|].
  - destruct Hsearch as (i & Hfit & Hcap). exists i. split; [exact Hfit|].
    assert (Hindex : RegExp.index m 1
                     = Some (string_of_list_ascii (take (List.length tag) (drop i text)))).
    { cbn [RegExp.index]. rewrite Hcap. unfold RegExp.slice.
      by replace (i + List.length tag - i)%nat with (List.length tag) by lia. }
    split; [exact Hindex|]. intros Hplain.
    rewrite Hindex, (fits_at_exact tag _ Hplain Hfit). unfold tag.
    by rewrite string_of_list_ascii_of_string.
  - intros i. destruct (decide (i ≤ List.length text)%nat) as [Hle|Hgt].
    + apply Hsearch. lia.
    + rewrite drop_ge by lia.
      rewrite <- (drop_all text). apply Hsearch. lia.
Qed.

Lemma literal_tag_matches_any_part_witness :
  ∃ re,
    GitHubReleaseAsset.tagRegex (Samples.release_asset "1.5") = inr re
    ∧ RegExp.source re = "v?(1.5)"
    ∧ ∀ tag_name : string,
        let text := list_ascii_of_string tag_name in
        match String_match tag_name re with
        | Some m =>
            ∃ i, fits_at ["1"; "."; "5"]%char (drop i text) = true
                 ∧ RegExp.index m 1 = Some (string_of_list_ascii (take 3 (drop i text)))
                 ∧ (false = true → RegExp.index m 1 = Some "1.5")
        | None => ∀ i, fits_at ["1"; "."; "5"]%char (drop i text) = false
        end.
Proof.
  apply (literal_tag_matches_any_part (Samples.release_asset "1.5") "1.5");
    reflexivity.
Defined.

(** ** The calls [copyTo] of a repository asset makes *)

#[local] Instance same_calls_refl : Reflexive same_calls.
Proof. intros σ. reflexivity. Qed.

#[local] Instance same_calls_trans : Transitive same_calls.
Proof. intros σ1 σ2 σ3 H1 H2. unfold same_calls in *. congruence. Qed.

Lemma bind_assoc_run {A B C : Type} (m : M A) (k : A → M B) (h : B → M C) (σ : State) :
  ((m ≫= k) ≫= h) σ = (m ≫= (λ x, k x ≫= h)) σ.
Proof. rewrite !bind_run. by destruct (m σ) as [[[x|e] σ1]|]. Qed.

Section SameCalls.
Context (W : World).

Lemma calls_modify (f : State → State) :
  (∀ σ, trace (f σ) = trace σ) → keeps same_calls (modify f).
Proof. intros Hf σ r σ' [= <- <-]. unfold same_calls. by rewrite Hf. Qed.

Lemma calls_get : keeps same_calls get.
Proof. intros σ r σ' [= <- <-]. reflexivity. Qed.

Lemma calls_emit (e : Event) :
  (∀ octokit call, e ≠ Api octokit call) → keeps same_calls (emit e).
Proof.
  intros He σ r σ' [= <- <-]. unfold same_calls, api_calls. cbn.
  rewrite omap_app. cbn. destruct e as [line|line|url headers|o call];
    try by rewrite app_nil_r.
  by destruct (He o call).
Qed.

Lemma calls_write (this : nat) (f : Instance.t → Instance.t) :
  keeps same_calls (write this f).
Proof. intros σ r σ'. rewrite write_run. intros [= <- <-]. reflexivity. Qed.

Lemma calls_mkdir (p : string) : keeps same_calls (fs.mkdir W p).
Proof.
  unfold fs.mkdir. destruct (write_error W p); [apply (keeps_throw _)|].
  by apply calls_modify.
Qed.

Lemma calls_writeFile (p content : string) : keeps same_calls (fs.writeFile W p content).
Proof.
  unfold fs.writeFile. destruct (write_error W p); [apply (keeps_throw _)|].
  by apply calls_modify.
Qed.

Lemma calls_readFile (p : string) : keeps same_calls (fs.readFile W p).
Proof.
  unfold fs.readFile. apply (keeps_bind _); [apply calls_get | intros σ].
  destruct (files σ !! p); [apply (keeps_ret _) | apply (keeps_throw _)].
Qed.

Lemma calls_mkTempDir (this : nat) : keeps same_calls (AbstractAsset.mkTempDir W this).
Proof.
  unfold AbstractAsset.mkTempDir, AbstractAsset.addDisposable.
  apply (keeps_bind _); [apply calls_get | intros σ].
  apply (keeps_bind _); [by apply calls_modify | intros _].
  apply (keeps_bind _); [apply calls_mkdir | intros _].
  apply (keeps_bind _); [apply calls_write | intros _].
  apply (keeps_ret _).
Qed.

Lemma calls_mkDest (this : nat) (dest : option string) :
  keeps same_calls (AbstractAsset.mkDest W this dest).
Proof.
  destruct dest as [d|]; cbn; [|apply calls_mkTempDir].
  apply (keeps_bind _); [apply calls_mkdir | intros _].
  apply (keeps_ret _).
Qed.

Lemma calls_write_entries (dest : string) (strip : nat) (entries : list (string * string)) :
  keeps same_calls (AbstractAsset.write_entries W dest strip entries).
Proof.
  induction entries as [|[name content] entries IH]; cbn; [apply (keeps_ret _)|].
  apply (keeps_bind _); [| intros _; exact IH].
  destruct (AbstractAsset.strip_segments strip name);
    [apply calls_writeFile | apply (keeps_ret _)].
Qed.

Lemma calls_extractArchive (this : nat) (archivePath : string) (dest : option string)
    (strip : nat) :
  keeps same_calls (AbstractAsset.extractArchive W this archivePath dest strip).
Proof.
  unfold AbstractAsset.extractArchive.
  apply (keeps_bind _); [apply calls_mkDest | intros d].
  apply (keeps_bind _); [apply calls_readFile | intros bytes].
  destruct (archive_entries W bytes); [|apply (keeps_throw _)].
  apply (keeps_bind _); [apply calls_write_entries | intros _].
  apply (keeps_ret _).
Qed.

Lemma calls_copyRecursive (src dest : string) (strip : nat) :
  keeps same_calls (AbstractAsset.copyRecursive W src dest strip).
Proof.
  unfold AbstractAsset.copyRecursive.
  apply (keeps_bind _); [apply calls_get | intros σ].
  match goal with |- keeps _ (match ?l with _ => _ end) => destruct l end;
    [apply (keeps_throw _) | apply calls_write_entries].
Qed.

Lemma calls_copy_paths (extracted dest : string) (paths : list string) :
  keeps same_calls (GitHubRepoAsset.copy_paths W extracted dest paths).
Proof.
  induction paths as [|srcPath paths IH]; cbn; [apply (keeps_ret _)|].
  apply (keeps_bind _); [by apply calls_emit | intros _].
  apply (keeps_bind _); [apply calls_copyRecursive | intros _; exact IH].
Qed.

Lemma calls_downloadFile (fuel : nat) (url outputPath : string)
    (headers : OutgoingHttpHeaders) :
  keeps same_calls (downloadFile W fuel url outputPath headers).
Proof.
  revert url headers. induction fuel as [|fuel IH]; intros url headers; [by intros σ r σ'|].
  cbn [downloadFile].
  apply (keeps_bind _); [by apply calls_emit | intros _].
  apply (keeps_bind _); [by apply calls_emit | intros _].
  apply (keeps_bind _);
    [apply (keeps_quiet _), quiet_of_result | intros res].
  assert (Hwrite : keeps same_calls
            (pipe_to_file W outputPath (IncomingMessage.body res);; mret outputPath : M string)).
  { apply (keeps_bind _); [| intros _; apply (keeps_ret _)].
    unfold pipe_to_file. destruct (write_error W outputPath);
      [apply (keeps_throw _) | by apply calls_modify]. }
  destruct (IncomingMessage.statusCode res) as [code|]; [|exact Hwrite].
  destruct ((code <? 200) || (code >=? 300)); [|exact Hwrite].
  destruct (_ && _); [apply IH | apply (keeps_throw _)].
Qed.

End SameCalls.

(** X16. [copyTo] of a repository asset makes one call through the
    Octokit client, the download of the tarball of the ref as it was
    given, and none when the scratch directory cannot be created: whatever
    the outcome, the ref is never resolved to a commit, so the snapshot
    copied is the one the ref names at the time of the download. *)
Theorem repo_copyTo_fetches_ref (W : World) (a : GitHubRepoAsset.t) (fuel : nat)
    (dest : option string) (σ σ' : State) (out : Settled string) :
  let base := GitHubRepoAsset.base a in
  copyTo W fuel (Repo a) dest σ = Some (out, σ') →
  api_calls (trace σ')
  = (api_calls (trace σ)
     ++ match write_error W (temp_name W (temp_count σ)) with
        | None =>
            [(client base σ,
              DownloadTarballArchive (GitHubAsset.owner base) (GitHubAsset.repo base)
                (GitHubRepoAsset.ref a))]
        | Some _ => []
        end)%list.
Proof.
  intros base. cbn [copyTo]. unfold GitHubRepoAsset.copyTo. fold base.
  rewrite bind_run.
  destruct (write_error W (temp_name W (temp_count σ))) as [e|] eqn:Htemp.
  - unfold AbstractAsset.mkTempDir, fs.mkdir. rewrite bind_run. cbn. rewrite Htemp. cbn.
    intros [= <- <-]. cbn. by rewrite app_nil_r.
  - rewrite (mkTempDir_run W _ σ Htemp).
    unfold GitHubAsset.downloadRepo.
    rewrite bind_assoc_run, bind_run, getOctokit_run.
    rewrite bind_assoc_run, bind_run, api_run.
    rewrite client_scratch.
    set (σ1 := called _ _ _).
    assert (Hcalls : api_calls (trace σ1)
                     = (api_calls (trace σ)
                        ++ [(client base σ,
                             DownloadTarballArchive (GitHubAsset.owner base)
                               (GitHubAsset.repo base) (GitHubRepoAsset.ref a))])%list).
    { unfold σ1. rewrite trace_called, trace_pooled, trace_scratch.
      unfold api_calls. by rewrite omap_app. }
    destruct (settled_of _) as [url|e].
    2:{ intros [= <- <-]. exact Hcalls. }
    intros Hrest. rewrite <- Hcalls. revert Hrest.
    match goal with |- ?m σ1 = _ → _ => assert (Hkeeps : keeps same_calls m) end.
    2:{ apply Hkeeps. }
    apply (keeps_bind _); [| intros archive].
    { apply (keeps_bind _);
        [apply (keeps_quiet _), quiet_of_result | intros u].
      apply calls_downloadFile. }
    apply (keeps_bind _); [apply calls_extractArchive | intros extracted].
    apply (keeps_bind _); [apply calls_write | intros _].
    destruct dest as [d|]; [|apply (keeps_throw _)].
    apply (keeps_bind _); [apply calls_mkdir | intros _].
    apply (keeps_bind _); [apply calls_copy_paths | intros _].
    apply (keeps_ret _).
Qed.

Lemma repo_copyTo_fetches_ref_witness :
  let base := GitHubRepoAsset.base Samples.repo_asset in
  let call := DownloadTarballArchive "org" "tool" "main" in
  let σ' := called (client base initial) call
              (pooled base (scratch Samples.offline 1 initial)) in
  copyTo Samples.offline 0 (Repo Samples.repo_asset) (Some "/dest") initial
    = Some (Rejected (Error "Not Found"), σ')
  ∧ api_calls (trace σ') = [(client base initial, call)].
Proof.
  intros base call σ'.
  assert (Hrun : copyTo Samples.offline 0 (Repo Samples.repo_asset) (Some "/dest") initial
                 = Some (Rejected (Error "Not Found"), σ')).
  { vm_compute. reflexivity. }
  split; [exact Hrun|].
  exact (repo_copyTo_fetches_ref Samples.offline Samples.repo_asset 0 (Some "/dest")
           initial σ' (Rejected (Error "Not Found")) Hrun).
Defined.
